(** * Fan anomaly detection firmware: capture/inference pipeline and OLED renderer

    A shallow embedding of [main/Fan_Anomaly_Detection.cpp]: the SSD1306
    framebuffer renderer, the audio capture task, the inference/render cycle
    and the performance telemetry, followed by the properties of the
    specification that are settled on that embedding.

    Conventions.  C integers are [Z]; every narrowing conversion is written
    out ([to_uint8], [to_int16], [to_uint32], [to_int64]).  [float] is the
    IEEE-754 binary32 format, modelled by [spec_float] with precision 24 and
    maximal exponent 128.  Global arrays are lists indexed with stdpp's
    lookup and [alter]/insert.  The global variables of the translation unit,
    the locals of the two tasks and the environment (timer, I2C transport,
    classifier) form one record, [world], threaded by a small state monad. *)

From Stdlib Require Import ZArith Bool Lia Ascii String SpecFloat.
From stdpp Require Import base option list.

Local Open Scope Z_scope.

(* ================================================================== *)
(** * Part I: the embedding                                            *)
(* ================================================================== *)

(** ** Machine integers and floats *)

Definition to_uint8 (z : Z) : Z := z mod 2 ^ 8.
Definition to_uint32 (z : Z) : Z := z mod 2 ^ 32.
Definition to_int16 (z : Z) : Z := (z + 2 ^ 15) mod 2 ^ 16 - 2 ^ 15.
Definition to_int64 (z : Z) : Z := (z + 2 ^ 63) mod 2 ^ 64 - 2 ^ 63.

Definition is_time (z : Z) : Prop := 0 <= z < 2 ^ 63.

(** [float]: binary32. *)
Definition float_prec : Z := 24.
Definition float_emax : Z := 128.

(** Conversion of an integer to [float] (round to nearest even). *)
Definition float_of_Z (z : Z) : spec_float :=
  binary_normalize float_prec float_emax z 0 false.

Definition float_div (a b : spec_float) : spec_float :=
  SFdiv float_prec float_emax a b.

(** [a > b] on floats. *)
Definition float_gt (a b : spec_float) : bool := SFltb b a.

(** ** Framebuffer renderer *)

Definition OLED_WIDTH : Z := 128.
Definition OLED_HEIGHT : Z := 64.
Definition OLED_BUFFER_SIZE : Z := OLED_WIDTH * OLED_HEIGHT / 8.

(** Simple 5x7 font: one row per glyph, one byte per glyph column. *)
Definition font5x7 : list (list Z) :=
  [ [0x7E; 0x11; 0x11; 0x11; 0x7E]  (* A *)
  ; [0x7F; 0x49; 0x49; 0x49; 0x36]  (* B *)
  ; [0x3E; 0x41; 0x41; 0x41; 0x22]  (* C *)
  ; [0x7F; 0x41; 0x41; 0x22; 0x1C]  (* D *)
  ; [0x7F; 0x49; 0x49; 0x49; 0x41]  (* E *)
  ; [0x7F; 0x09; 0x09; 0x09; 0x01]  (* F *)
  ; [0x3E; 0x41; 0x49; 0x49; 0x7A]  (* G *)
  ; [0x7F; 0x08; 0x08; 0x08; 0x7F]  (* H *)
  ; [0x00; 0x41; 0x7F; 0x41; 0x00]  (* I *)
  ; [0x20; 0x40; 0x41; 0x3F; 0x01]  (* J *)
  ; [0x7F; 0x08; 0x14; 0x22; 0x41]  (* K *)
  ; [0x7F; 0x40; 0x40; 0x40; 0x40]  (* L *)
  ; [0x7F; 0x02; 0x0C; 0x02; 0x7F]  (* M *)
  ; [0x7F; 0x04; 0x08; 0x10; 0x7F]  (* N *)
  ; [0x3E; 0x41; 0x41; 0x41; 0x3E]  (* O *)
  ; [0x7F; 0x09; 0x09; 0x09; 0x06]  (* P *)
  ; [0x3E; 0x41; 0x51; 0x21; 0x5E]  (* Q *)
  ; [0x7F; 0x09; 0x19; 0x29; 0x46]  (* R *)
  ; [0x46; 0x49; 0x49; 0x49; 0x31]  (* S *)
  ; [0x01; 0x01; 0x7F; 0x01; 0x01]  (* T *)
  ; [0x3F; 0x40; 0x40; 0x40; 0x3F]  (* U *)
  ; [0x1F; 0x20; 0x40; 0x20; 0x1F]  (* V *)
  ; [0x3F; 0x40; 0x38; 0x40; 0x3F]  (* W *)
  ; [0x63; 0x14; 0x08; 0x14; 0x63]  (* X *)
  ; [0x07; 0x08; 0x70; 0x08; 0x07]  (* Y *)
  ; [0x61; 0x51; 0x49; 0x45; 0x43]  (* Z *)
  ; [0x00; 0x00; 0x00; 0x00; 0x00]  (* Space *)
  ; [0x00; 0x00; 0x5F; 0x00; 0x00]  (* ! *)
  ; [0x3E; 0x51; 0x49; 0x45; 0x3E]  (* 0 *)
  ; [0x00; 0x42; 0x7F; 0x40; 0x00]  (* 1 *)
  ; [0x42; 0x61; 0x51; 0x49; 0x46]  (* 2 *)
  ; [0x21; 0x41; 0x45; 0x4B; 0x31]  (* 3 *)
  ; [0x18; 0x14; 0x12; 0x7F; 0x10]  (* 4 *)
  ; [0x27; 0x45; 0x45; 0x45; 0x39]  (* 5 *)
  ; [0x3C; 0x4A; 0x49; 0x49; 0x30]  (* 6 *)
  ; [0x01; 0x71; 0x09; 0x05; 0x03]  (* 7 *)
  ; [0x36; 0x49; 0x49; 0x49; 0x36]  (* 8 *)
  ; [0x06; 0x49; 0x49; 0x29; 0x1E]  (* 9 *)
  ; [0x00; 0x36; 0x36; 0x00; 0x00]  (* : *)
  ].

(** [memset(oled_buffer, v, OLED_BUFFER_SIZE)] *)
Definition oled_clear_buffer (oled_buffer : list Z) : list Z :=
  replicate (Z.to_nat OLED_BUFFER_SIZE) 0x00.

Definition oled_fill_buffer (oled_buffer : list Z) : list Z :=
  replicate (Z.to_nat OLED_BUFFER_SIZE) 0xFF.

(** [oled_set_pixel]: [y / 8] and [y % 8] are C's truncating division and
    remainder; the compound assignments store back into a [uint8_t]. *)
Definition oled_set_pixel (oled_buffer : list Z) (x y : Z) (on : bool) : list Z :=
  if (x <? 0) || (x >=? OLED_WIDTH) || (y <? 0) || (y >=? OLED_HEIGHT)
  then oled_buffer
  else
    let byte_index := x + Z.quot y 8 * OLED_WIDTH in
    let bit_index := Z.rem y 8 in
    if on
    then alter (fun b => to_uint8 (Z.lor b (Z.shiftl 1 bit_index)))
               (Z.to_nat byte_index) oled_buffer
    else alter (fun b => to_uint8 (Z.land b (Z.lnot (Z.shiftl 1 bit_index))))
               (Z.to_nat byte_index) oled_buffer.

(** Character code of a [char]. *)
Definition char_code (c : ascii) : Z := Z.of_N (N_of_ascii c).

(** The index computation at the head of [oled_draw_char];
    ['A' = 65], ['Z' = 90], ['a' = 97], ['z' = 122], [' ' = 32], ['!' = 33],
    ['0' = 48], ['9' = 57], [':' = 58]. *)
Definition glyph_index (c : ascii) : Z :=
  let c := char_code c in
  if (c >=? 65) && (c <=? 90) then c - 65
  else if (c >=? 97) && (c <=? 122) then c - 97
  else if c =? 32 then 26
  else if c =? 33 then 27
  else if (c >=? 48) && (c <=? 57) then 28 + (c - 48)
  else if c =? 58 then 38
  else -1.

(** [font5x7[index][i]] *)
Definition font_column (index i : Z) : Z :=
  (font5x7 !!! Z.to_nat index) !!! Z.to_nat i.

(** The inner loop of [oled_draw_char]: [for (j = 0; j < 7; j++)]. *)
Definition draw_column (oled_buffer : list Z) (x y i col : Z) (on : bool) : list Z :=
  foldl (fun fb j =>
           if negb (Z.land col (Z.shiftl 1 j) =? 0)
           then oled_set_pixel fb (x + i) (y + j) on
           else fb)
        oled_buffer (seqZ 0 7).

Definition oled_draw_char (oled_buffer : list Z) (x y : Z) (c : ascii) (on : bool)
  : list Z :=
  let index := glyph_index c in
  if index <? 0 then oled_buffer
  else
    foldl (fun fb i => draw_column fb x y i (font_column index i) on)
          oled_buffer (seqZ 0 5).

Fixpoint oled_draw_string (oled_buffer : list Z) (x y : Z) (str : string) (on : bool)
  {struct str} : list Z :=
  match str with
  | EmptyString => oled_buffer
  | String c str' => oled_draw_string (oled_draw_char oled_buffer x y c on) (x + 6) y str' on
  end.

(** Pixel read-back, used to state what the drawing primitives do. *)
Definition get_pixel (oled_buffer : list Z) (x y : Z) : bool :=
  match oled_buffer !! Z.to_nat (x + y / 8 * OLED_WIDTH) with
  | Some b => Z.testbit b (y mod 8)
  | None => false
  end.

Definition in_display (x y : Z) : Prop :=
  0 <= x < OLED_WIDTH /\ 0 <= y < OLED_HEIGHT.

(** The framebuffer is an array of [OLED_BUFFER_SIZE] bytes. *)
Definition framebuffer_ok (oled_buffer : list Z) : Prop :=
  length oled_buffer = Z.to_nat OLED_BUFFER_SIZE /\
  Forall (fun b => 0 <= b < 256) oled_buffer.

(** The two compound assignments of [oled_set_pixel] as a function of the
    byte they are applied to. *)
Definition pixel_update (y : Z) (on : bool) (b : Z) : Z :=
  if on then to_uint8 (Z.lor b (Z.shiftl 1 (y mod 8)))
  else to_uint8 (Z.land b (Z.lnot (Z.shiftl 1 (y mod 8)))).

(** The glyph table read through its row comments: the character each row
    of [font5x7] is labelled with, in table order. *)
Definition font_labels : string := "ABCDEFGHIJKLMNOPQRSTUVWXYZ !0123456789:".

Definition to_upper (c : ascii) : ascii :=
  let n := N_of_ascii c in
  if (97 <=? n)%N && (n <=? 122)%N then ascii_of_N (n - 32) else c.

Fixpoint label_position (c : ascii) (labels : string) {struct labels} : option nat :=
  match labels with
  | EmptyString => None
  | String d rest =>
      if Ascii.eqb c d then Some 0%nat else S <$> label_position c rest
  end.

(** The supported character set: A-Z case-insensitive, 0-9, space, '!', ':'. *)
Definition supported (c : ascii) : Prop :=
  is_Some (label_position (to_upper c) font_labels).

(** The glyph the table assigns to a character, if any. *)
Definition glyph_of (c : ascii) : option (list Z) :=
  k ← label_position (to_upper c) font_labels; font5x7 !! k.

(** Pixel [(px, py)] belongs to the pattern of glyph [g] drawn at [(x, y)]:
    bit [j] of column [i] maps to pixel [(x + i, y + j)]. *)
Definition glyph_painted (g : list Z) (x y px py : Z) : Prop :=
  exists i j : Z,
    0 <= i < 5 /\ 0 <= j < 7 /\ px = x + i /\ py = y + j /\
    Z.testbit (g !!! Z.to_nat i) j = true.

(** Boolean form of the pattern: iteration [j] of the inner loop, and the
    whole of iteration [i] of the outer loop, paint pixel [(px, py)]. *)
Definition column_hit (x y i col px py j : Z) : bool :=
  Z.testbit col j && ((px =? x + i) && (py =? y + j)).

Definition glyph_hit (g : list Z) (x y px py i : Z) : bool :=
  existsb (column_hit x y i (g !!! Z.to_nat i) px py) (seqZ 0 7).

(** Agreement of the index arithmetic of [oled_draw_char] with the table's
    labelling, as a check on one character. *)
Definition glyph_index_check (c : ascii) : bool :=
  match label_position (to_upper c) font_labels with
  | Some k => (0 <=? glyph_index c) && (Z.to_nat (glyph_index c) =? k)%nat
              && (k <? 39)%nat
  | None => glyph_index c =? -1
  end.

(** ** Program state and environment *)

(** [performance_metrics_t]; [fps] is a [float], [inference_count] a
    [uint32_t], the durations are [int64_t]. *)
Record performance_metrics_t := {
  audio_capture_us : Z;
  inference_us : Z;
  display_update_us : Z;
  total_cycle_us : Z;
  fps : spec_float;
  inference_count : Z
}.

(** Accesses to the shared window and flag, in the order they happen. *)
Inductive handoff_event :=
| EvWrite (slot value : Z)   (* capture: inference_buffer[slot] = value *)
| EvReady                    (* capture: audio_ready = true *)
| EvClaim                    (* inference: audio_ready = false *)
| EvRead (slot : Z).         (* inference: get_data reads inference_buffer[slot] *)

(** What the inference task logs. *)
Inductive log_entry :=
| LogInferenceFailed (res : Z)
| LogInference (anomaly : bool) (m : performance_metrics_t)
| LogSummary (current_time : Z) (m : performance_metrics_t).

(** One classification: [(label, value)] per class. *)
Definition classification := list (string * spec_float).

Record world := {
  (* globals of the translation unit *)
  oled_buffer : list Z;
  inference_buffer : list Z;
  audio_ready : bool;
  perf_metrics : performance_metrics_t;
  audio_capture_start_time : Z;
  (* locals of audio_capture_task and of inference_task *)
  buffer_index : Z;
  cycle_start_time : Z;
  last_report_time : Z;
  (* environment: esp_timer, the I2C transport, the classifier, libc *)
  esp_timer : nat -> Z;             (* value returned by the n-th reading *)
  timer_reads : nat;
  i2c_outcome : nat -> Z;           (* esp_err_t of the n-th transmission *)
  i2c_wire : list (list Z);         (* buffers handed to the transport *)
  run_classifier : list spec_float -> Z * classification;
  snprintf_scores : spec_float -> spec_float -> string;
  snprintf_ms : Z -> string;
  (* observations *)
  esp_log : list log_entry;
  handoff_trace : list handoff_event
}.

Definition ESP_OK : Z := 0.
Definition EI_IMPULSE_OK : Z := 0.
Definition EI_CLASSIFIER_RAW_SAMPLE_COUNT : Z := 416.
Definition I2S_DMA_BUF_LEN : Z := 512.

(** Field updates. *)
Definition set_oled_buffer (v : list Z) (w : world) : world :=
  Build_world v (inference_buffer w) (audio_ready w) (perf_metrics w)
    (audio_capture_start_time w) (buffer_index w) (cycle_start_time w)
    (last_report_time w) (esp_timer w) (timer_reads w) (i2c_outcome w)
    (i2c_wire w) (run_classifier w) (snprintf_scores w) (snprintf_ms w)
    (esp_log w) (handoff_trace w).
Definition set_inference_buffer (v : list Z) (w : world) : world :=
  Build_world (oled_buffer w) v (audio_ready w) (perf_metrics w)
    (audio_capture_start_time w) (buffer_index w) (cycle_start_time w)
    (last_report_time w) (esp_timer w) (timer_reads w) (i2c_outcome w)
    (i2c_wire w) (run_classifier w) (snprintf_scores w) (snprintf_ms w)
    (esp_log w) (handoff_trace w).
Definition set_audio_ready (v : bool) (w : world) : world :=
  Build_world (oled_buffer w) (inference_buffer w) v (perf_metrics w)
    (audio_capture_start_time w) (buffer_index w) (cycle_start_time w)
    (last_report_time w) (esp_timer w) (timer_reads w) (i2c_outcome w)
    (i2c_wire w) (run_classifier w) (snprintf_scores w) (snprintf_ms w)
    (esp_log w) (handoff_trace w).
Definition set_perf_metrics (v : performance_metrics_t) (w : world) : world :=
  Build_world (oled_buffer w) (inference_buffer w) (audio_ready w) v
    (audio_capture_start_time w) (buffer_index w) (cycle_start_time w)
    (last_report_time w) (esp_timer w) (timer_reads w) (i2c_outcome w)
    (i2c_wire w) (run_classifier w) (snprintf_scores w) (snprintf_ms w)
    (esp_log w) (handoff_trace w).
Definition set_audio_capture_start_time (v : Z) (w : world) : world :=
  Build_world (oled_buffer w) (inference_buffer w) (audio_ready w) (perf_metrics w)
    v (buffer_index w) (cycle_start_time w)
    (last_report_time w) (esp_timer w) (timer_reads w) (i2c_outcome w)
    (i2c_wire w) (run_classifier w) (snprintf_scores w) (snprintf_ms w)
    (esp_log w) (handoff_trace w).
Definition set_buffer_index (v : Z) (w : world) : world :=
  Build_world (oled_buffer w) (inference_buffer w) (audio_ready w) (perf_metrics w)
    (audio_capture_start_time w) v (cycle_start_time w)
    (last_report_time w) (esp_timer w) (timer_reads w) (i2c_outcome w)
    (i2c_wire w) (run_classifier w) (snprintf_scores w) (snprintf_ms w)
    (esp_log w) (handoff_trace w).
Definition set_cycle_start_time (v : Z) (w : world) : world :=
  Build_world (oled_buffer w) (inference_buffer w) (audio_ready w) (perf_metrics w)
    (audio_capture_start_time w) (buffer_index w) v
    (last_report_time w) (esp_timer w) (timer_reads w) (i2c_outcome w)
    (i2c_wire w) (run_classifier w) (snprintf_scores w) (snprintf_ms w)
    (esp_log w) (handoff_trace w).
Definition set_last_report_time (v : Z) (w : world) : world :=
  Build_world (oled_buffer w) (inference_buffer w) (audio_ready w) (perf_metrics w)
    (audio_capture_start_time w) (buffer_index w) (cycle_start_time w)
    v (esp_timer w) (timer_reads w) (i2c_outcome w)
    (i2c_wire w) (run_classifier w) (snprintf_scores w) (snprintf_ms w)
    (esp_log w) (handoff_trace w).
Definition set_timer_reads (v : nat) (w : world) : world :=
  Build_world (oled_buffer w) (inference_buffer w) (audio_ready w) (perf_metrics w)
    (audio_capture_start_time w) (buffer_index w) (cycle_start_time w)
    (last_report_time w) (esp_timer w) v (i2c_outcome w)
    (i2c_wire w) (run_classifier w) (snprintf_scores w) (snprintf_ms w)
    (esp_log w) (handoff_trace w).
Definition set_i2c_wire (v : list (list Z)) (w : world) : world :=
  Build_world (oled_buffer w) (inference_buffer w) (audio_ready w) (perf_metrics w)
    (audio_capture_start_time w) (buffer_index w) (cycle_start_time w)
    (last_report_time w) (esp_timer w) (timer_reads w) (i2c_outcome w)
    v (run_classifier w) (snprintf_scores w) (snprintf_ms w)
    (esp_log w) (handoff_trace w).
Definition set_esp_log (v : list log_entry) (w : world) : world :=
  Build_world (oled_buffer w) (inference_buffer w) (audio_ready w) (perf_metrics w)
    (audio_capture_start_time w) (buffer_index w) (cycle_start_time w)
    (last_report_time w) (esp_timer w) (timer_reads w) (i2c_outcome w)
    (i2c_wire w) (run_classifier w) (snprintf_scores w) (snprintf_ms w)
    v (handoff_trace w).
Definition set_handoff_trace (v : list handoff_event) (w : world) : world :=
  Build_world (oled_buffer w) (inference_buffer w) (audio_ready w) (perf_metrics w)
    (audio_capture_start_time w) (buffer_index w) (cycle_start_time w)
    (last_report_time w) (esp_timer w) (timer_reads w) (i2c_outcome w)
    (i2c_wire w) (run_classifier w) (snprintf_scores w) (snprintf_ms w)
    (esp_log w) v.

Definition set_audio_capture_us (v : Z) (m : performance_metrics_t) :=
  Build_performance_metrics_t v (inference_us m) (display_update_us m)
    (total_cycle_us m) (fps m) (inference_count m).
Definition set_inference_us (v : Z) (m : performance_metrics_t) :=
  Build_performance_metrics_t (audio_capture_us m) v (display_update_us m)
    (total_cycle_us m) (fps m) (inference_count m).
Definition set_display_update_us (v : Z) (m : performance_metrics_t) :=
  Build_performance_metrics_t (audio_capture_us m) (inference_us m) v
    (total_cycle_us m) (fps m) (inference_count m).
Definition set_total_cycle_us (v : Z) (m : performance_metrics_t) :=
  Build_performance_metrics_t (audio_capture_us m) (inference_us m)
    (display_update_us m) v (fps m) (inference_count m).
Definition set_fps (v : spec_float) (m : performance_metrics_t) :=
  Build_performance_metrics_t (audio_capture_us m) (inference_us m)
    (display_update_us m) (total_cycle_us m) v (inference_count m).
Definition set_inference_count (v : Z) (m : performance_metrics_t) :=
  Build_performance_metrics_t (audio_capture_us m) (inference_us m)
    (display_update_us m) (total_cycle_us m) (fps m) v.

(** ** The state monad of the program *)

Definition M (A : Type) : Type := world -> A * world.

#[global] Instance M_ret : MRet M := fun A (a : A) w => (a, w).
#[global] Instance M_bind : MBind M :=
  fun A B (f : A -> M B) (m : M A) w => let (a, w') := m w in f a w'.

Definition get {A} (f : world -> A) : M A := fun w => (f w, w).
Definition modify (f : world -> world) : M unit := fun w => (tt, f w).
Definition exec {A} (m : M A) (w : world) : world := snd (m w).

Definition skip : M unit := mret tt.

(** [esp_timer_get_time()] *)
Definition esp_timer_get_time : M Z := fun w =>
  (esp_timer w (timer_reads w), set_timer_reads (S (timer_reads w)) w).

(** [i2c_master_transmit(oled_dev, buf, sizeof(buf), -1)] *)
Definition i2c_master_transmit (buf : list Z) : M Z := fun w =>
  (i2c_outcome w (length (i2c_wire w)), set_i2c_wire (i2c_wire w ++ [buf]) w).

Definition ESP_LOG (e : log_entry) : M unit :=
  modify (fun w => set_esp_log (esp_log w ++ [e]) w).

Definition observe (e : handoff_event) : M unit :=
  modify (fun w => set_handoff_trace (handoff_trace w ++ [e]) w).

(** ** Display flush *)

Definition oled_write_command (cmd : Z) : M Z :=
  i2c_master_transmit [0x00; cmd].

(** The body of the loop of [oled_update] for one page; the values returned
    by the four transmissions are dropped, as in the source. *)
Definition oled_update_page (page : Z) : M unit :=
  _ ← oled_write_command (to_uint8 (0xB0 + page));
  _ ← oled_write_command 0x00;
  _ ← oled_write_command 0x10;
  fb ← get oled_buffer;
  let buf := 0x40 :: take (Z.to_nat OLED_WIDTH)
                          (drop (Z.to_nat (OLED_WIDTH * page)) fb) in
  _ ← i2c_master_transmit buf;
  mret tt.

(** [for (uint8_t page = 0; page < 8; page++)] *)
Fixpoint for_pages (pages : list Z) {struct pages} : M unit :=
  match pages with
  | [] => mret tt
  | page :: rest => _ ← oled_update_page page; for_pages rest
  end.

Definition oled_update : M unit := for_pages (seqZ 0 8).

Definition set_i2c_outcome (v : nat -> Z) (w : world) : world :=
  Build_world (oled_buffer w) (inference_buffer w) (audio_ready w) (perf_metrics w)
    (audio_capture_start_time w) (buffer_index w) (cycle_start_time w)
    (last_report_time w) (esp_timer w) (timer_reads w) v
    (i2c_wire w) (run_classifier w) (snprintf_scores w) (snprintf_ms w)
    (esp_log w) (handoff_trace w).

(** What flush is specified to put on the wire: for each page, the three
    addressing commands, then one data transfer of the page's pixel bytes. *)
Definition page_bytes (fb : list Z) (page : Z) : list Z :=
  take 128 (drop (Z.to_nat (128 * page)) fb).

Definition page_transfer (fb : list Z) (page : Z) : list (list Z) :=
  [ [0x00; 0xB0 + page]; [0x00; 0x00]; [0x00; 0x10]; 0x40 :: page_bytes fb page ].

Definition flush_transfers (fb : list Z) : list (list Z) :=
  flat_map (page_transfer fb) [0; 1; 2; 3; 4; 5; 6; 7].

(** What the program itself can inspect after a call: its variables and its
    log (not the transport, which lies behind the driver). *)
Definition program_view (w : world) :=
  (oled_buffer w, inference_buffer w, audio_ready w, perf_metrics w,
   audio_capture_start_time w, buffer_index w, cycle_start_time w,
   last_report_time w, esp_log w).

(** The transport reports a failure during the flush started in [w]
    (a flush makes 32 transmissions). *)
Definition flush_fails (w : world) : Prop :=
  exists k : nat,
    (length (i2c_wire w) <= k < length (i2c_wire w) + 32)%nat /\
    i2c_outcome w k <> ESP_OK.

(** "Any transmission failure is observable by the caller of flush": a flush
    during which the transport fails differs, in its result or in what the
    program can inspect afterwards, from the same flush on a transport that
    succeeds. *)
Definition flush_failure_observable : Prop :=
  forall w : world,
    flush_fails w ->
    (fst (oled_update w), program_view (exec oled_update w))
    <> (fst (oled_update (set_i2c_outcome (fun _ => ESP_OK) w)),
        program_view (exec oled_update (set_i2c_outcome (fun _ => ESP_OK) w))).

(** A world right after start-up, for a given timer, transport and
    classifier. *)
Definition boot_world (timer : nat -> Z) (outcome : nat -> Z)
           (classifier : list spec_float -> Z * classification) : world :=
  {| oled_buffer := replicate (Z.to_nat OLED_BUFFER_SIZE) 0;
     inference_buffer := replicate (Z.to_nat EI_CLASSIFIER_RAW_SAMPLE_COUNT) 0;
     audio_ready := false;
     perf_metrics := Build_performance_metrics_t 0 0 0 0 (S754_zero false) 0;
     audio_capture_start_time := 0;
     buffer_index := 0;
     cycle_start_time := 0;
     last_report_time := 0;
     esp_timer := timer;
     timer_reads := 0;
     i2c_outcome := outcome;
     i2c_wire := [];
     run_classifier := classifier;
     snprintf_scores := fun _ _ => "N:0 A:0"%string;
     snprintf_ms := fun _ => "0ms"%string;
     esp_log := [];
     handoff_trace := [] |}.

(** ** Audio capture task *)

(** [inference_buffer[buffer_index++] = (int16_t)(i2s_buffer[i] >> 14);]
    ([>>] on a negative [int32_t] is the arithmetic shift; stdpp's insert
    leaves the list alone out of range, which the loop guard excludes). *)
Definition store_sample (raw : Z) : M unit :=
  idx ← get buffer_index;
  let v := to_int16 (Z.shiftr raw 14) in
  _ ← modify (fun w => set_inference_buffer (<[Z.to_nat idx := v]> (inference_buffer w)) w);
  _ ← observe (EvWrite idx v);
  modify (set_buffer_index (idx + 1)).

(** The body of [if (buffer_index >= EI_CLASSIFIER_RAW_SAMPLE_COUNT)]. *)
Definition publish_window : M unit :=
  now ← esp_timer_get_time;
  start ← get audio_capture_start_time;
  _ ← modify (fun w => set_perf_metrics
                         (set_audio_capture_us (to_int64 (now - start)) (perf_metrics w)) w);
  _ ← modify (set_audio_ready true);
  _ ← observe EvReady;
  modify (set_buffer_index 0).

(** The body of the [for] loop. *)
Definition capture_sample (raw : Z) : M unit :=
  _ ← store_sample raw;
  idx ← get buffer_index;
  if idx >=? EI_CLASSIFIER_RAW_SAMPLE_COUNT then publish_window else skip.

(** [for (i = 0; i < samples_read && buffer_index < EI_CLASSIFIER_RAW_SAMPLE_COUNT; i++)]
    over the samples of one read. *)
Fixpoint capture_samples (samples : list Z) {struct samples} : M unit :=
  match samples with
  | [] => skip
  | raw :: rest =>
      idx ← get buffer_index;
      if idx <? EI_CLASSIFIER_RAW_SAMPLE_COUNT
      then (_ ← capture_sample raw; capture_samples rest)
      else skip
  end.

(** "Mark start of audio capture when buffer is empty". *)
Definition mark_capture_start : M unit :=
  idx ← get buffer_index;
  if idx =? 0
  then (t ← esp_timer_get_time; modify (set_audio_capture_start_time t))
  else skip.

(** One iteration of [while (1)]; [read] is what [i2s_channel_read]
    delivered: its return code and the [bytes_read / sizeof(int32_t)] samples. *)
Definition audio_capture_iteration (read : Z * list Z) : M unit :=
  _ ← mark_capture_start;
  if fst read =? ESP_OK then capture_samples (snd read) else skip.

(** The task run over a finite prefix of the reads it receives. *)
Fixpoint audio_capture_task (reads : list (Z * list Z)) {struct reads} : M unit :=
  match reads with
  | [] => skip
  | read :: rest => _ ← audio_capture_iteration read; audio_capture_task rest
  end.

(** The samples of the reads that returned [ESP_OK], in order. *)
Definition accepted_samples (reads : list (Z * list Z)) : list Z :=
  flat_map (fun read => if fst read =? ESP_OK then snd read else []) reads.

Definition is_ready (e : handoff_event) : bool :=
  match e with EvReady => true | _ => false end.
Definition is_write (e : handoff_event) : bool :=
  match e with EvWrite _ _ => true | _ => false end.
Definition is_claim (e : handoff_event) : bool :=
  match e with EvClaim => true | _ => false end.
Definition is_read (e : handoff_event) : bool :=
  match e with EvRead _ => true | _ => false end.

(** Number of events of a kind in a trace. *)
Definition count (p : handoff_event -> bool) (t : list handoff_event) : Z :=
  Z.of_nat (length (filter (fun e => p e = true) t)).

(** The events specified for a stream of accepted samples, starting with
    fill index [idx]: a write per sample, and the ready mark right after the
    write that fills slot 415 (and only there), the index then back at 0. *)
Fixpoint capture_events (idx : Z) (samples : list Z) {struct samples}
  : list handoff_event :=
  match samples with
  | [] => []
  | raw :: rest =>
      EvWrite idx (to_int16 (Z.shiftr raw 14))
      :: (if idx + 1 >=? EI_CLASSIFIER_RAW_SAMPLE_COUNT
          then EvReady :: capture_events 0 rest
          else capture_events (idx + 1) rest)
  end.

(** ** Inference task *)

(** The [for] loop over [result.classification]. *)
Definition extract_scores (result : classification) : spec_float * spec_float :=
  foldl (fun scores entry =>
           let label := fst entry in
           let value := snd entry in
           if String.eqb label "normal" || String.eqb label "Normal"
           then (value, snd scores)
           else if String.eqb label "abnormal" || String.eqb label "Abnormal"
           then (fst scores, value)
           else scores)
        (S754_zero false, S754_zero false) result.

(** Title and separator line. *)
Definition draw_header (fb : list Z) : list Z :=
  let fb := oled_clear_buffer fb in
  let fb := oled_draw_string fb 10 5 "FAN STATUS" true in
  foldl (fun fb x => oled_set_pixel fb x 16 true) fb (seqZ 0 OLED_WIDTH).

(** The two branches of [if (anomaly_score > normal_score)]. *)
Definition draw_anomaly (fb : list Z) : list Z :=
  let fb := oled_draw_string fb 15 25 "ANOMALY!" true in
  let fb := foldl (fun fb x => oled_set_pixel (oled_set_pixel fb x 22 true) x 38 true)
                  fb (seqZ 10 (OLED_WIDTH - 10 - 10)) in
  foldl (fun fb y => oled_set_pixel (oled_set_pixel fb 10 y true) (OLED_WIDTH - 11) y true)
        fb (seqZ 22 (38 - 22)).

Definition draw_normal (fb : list Z) : list Z :=
  oled_draw_string fb 20 25 "NORMAL" true.

(** Scores and inference time. *)
Definition draw_footer (score_text timing_text : string) (fb : list Z) : list Z :=
  let fb := oled_draw_string fb 20 45 score_text true in
  oled_draw_string fb 5 55 timing_text true.

(** The drawing between [display_start] and [oled_update()]. *)
Definition render (normal_score anomaly_score : spec_float) : M unit :=
  score_text ← get (fun w => snprintf_scores w (SFmul float_prec float_emax normal_score (float_of_Z 100))
                                               (SFmul float_prec float_emax anomaly_score (float_of_Z 100)));
  timing_text ← get (fun w => snprintf_ms w (Z.quot (inference_us (perf_metrics w)) 1000));
  modify (fun w =>
    let fb := draw_header (oled_buffer w) in
    let fb := if float_gt anomaly_score normal_score
              then draw_anomaly fb else draw_normal fb in
    set_oled_buffer (draw_footer score_text timing_text fb) w).

(** Metrics update after the display update: total cycle time, counter,
    throughput [1000000.0f / perf_metrics.total_cycle_us]. *)
Definition update_cycle_metrics : M unit :=
  now ← esp_timer_get_time;
  start ← get cycle_start_time;
  modify (fun w =>
    let m := set_total_cycle_us (to_int64 (now - start)) (perf_metrics w) in
    let m := set_inference_count (to_uint32 (inference_count m + 1)) m in
    let m := set_fps (float_div (float_of_Z 1000000) (float_of_Z (total_cycle_us m))) m in
    set_perf_metrics m w).

(** "Print summary statistics every 10 seconds". *)
Definition report_summary : M unit :=
  current_time ← esp_timer_get_time;
  last ← get last_report_time;
  if to_int64 (current_time - last) >=? 10000000
  then (m ← get perf_metrics;
        _ ← ESP_LOG (LogSummary current_time m);
        modify (set_last_report_time current_time))
  else skip.

(** The cycle from the return of [run_classifier] to the end of the loop
    body. *)
Definition finish_cycle (inference_start res : Z) (result : classification) : M unit :=
  inference_end ← esp_timer_get_time;
  _ ← modify (fun w => set_perf_metrics
                         (set_inference_us (to_int64 (inference_end - inference_start))
                                           (perf_metrics w)) w);
  if negb (res =? EI_IMPULSE_OK)
  then ESP_LOG (LogInferenceFailed res)            (* continue *)
  else
    let normal_score := fst (extract_scores result) in
    let anomaly_score := snd (extract_scores result) in
    display_start ← esp_timer_get_time;
    _ ← render normal_score anomaly_score;
    _ ← oled_update;
    display_end ← esp_timer_get_time;
    _ ← modify (fun w => set_perf_metrics
                           (set_display_update_us (to_int64 (display_end - display_start))
                                                  (perf_metrics w)) w);
    _ ← update_cycle_metrics;
    m ← get perf_metrics;
    _ ← ESP_LOG (LogInference (float_gt anomaly_score normal_score) m);
    report_summary.                                 (* vTaskDelay(100 ms) *)

(** [signal.get_data(offset, length, out_ptr)] *)
Definition signal_get_data (offset length : Z) : M (list spec_float) :=
  buf ← get inference_buffer;
  _ ← modify (fun w => set_handoff_trace
                         (handoff_trace w ++ map EvRead (seqZ offset length)) w);
  mret (map float_of_Z (take (Z.to_nat length) (drop (Z.to_nat offset) buf))).

(** [audio_ready = false;] *)
Definition claim_window : M unit :=
  _ ← modify (set_audio_ready false);
  observe EvClaim.

(** One iteration of [while (1)] of [inference_task]; the classifier pulls
    the whole window through [signal.get_data]. *)
Definition inference_iteration : M unit :=
  ready ← get audio_ready;
  if negb ready then skip                           (* vTaskDelay(10 ms); continue *)
  else
    t ← esp_timer_get_time;
    _ ← modify (set_cycle_start_time t);
    _ ← claim_window;
    inference_start ← esp_timer_get_time;
    signal ← signal_get_data 0 EI_CLASSIFIER_RAW_SAMPLE_COUNT;
    classify ← get run_classifier;
    finish_cycle inference_start (fst (classify signal)) (snd (classify signal)).

(** [int64_t last_report_time = esp_timer_get_time();] at task start. *)
Definition inference_task_start : M unit :=
  t ← esp_timer_get_time;
  modify (set_last_report_time t).

(** ** The two tasks together *)

(** Coarse schedules: the scheduler runs whole loop iterations of either
    task, in any order. *)
Inductive activation :=
| RunCapture (read : Z * list Z)
| RunInference.

Definition activate (a : activation) : M unit :=
  match a with
  | RunCapture read => audio_capture_iteration read
  | RunInference => inference_iteration
  end.

Fixpoint run (schedule : list activation) {struct schedule} : M unit :=
  match schedule with
  | [] => skip
  | a :: rest => _ ← activate a; run rest
  end.

Definition firmware (schedule : list activation) : M unit :=
  _ ← inference_task_start; run schedule.

(** Times at which a summary was logged. *)
Fixpoint summary_times (log : list log_entry) {struct log} : list Z :=
  match log with
  | [] => []
  | LogSummary t _ :: rest => t :: summary_times rest
  | _ :: rest => summary_times rest
  end.

(** Each time of [ts] is at least 10 s (in microseconds) after the one
    before it, the first after [prev]. *)
Fixpoint spaced (prev : Z) (ts : list Z) {struct ts} : Prop :=
  match ts with
  | [] => True
  | t :: rest => 10000000 <= t - prev /\ spaced t rest
  end.

(** Fine-grained interleaving: the unit of execution is one access to the
    shared window or flag.  Each task carries a program point. *)
Inductive capture_pc :=
| CapFill     (* at the head of the [for] body: next, store a sample *)
| CapFull.    (* slot 415 stored: next, the body of the [if] *)

Inductive inference_pc :=
| InfIdle                                (* polling [audio_ready] *)
| InfClaiming                            (* saw it set: next, clear it *)
| InfClassifying (inference_start : Z).  (* inside [run_classifier] *)

Record system := {
  sys_world : world;
  cap_pc : capture_pc;
  inf_pc : inference_pc
}.

Inductive step : system -> system -> Prop :=
| step_mark_start w ip :
    step (Build_system w CapFill ip)
         (Build_system (exec mark_capture_start w) CapFill ip)
| step_store raw w ip :
    step (Build_system w CapFill ip)
         (Build_system
            (exec (store_sample raw) w)
            (if buffer_index (exec (store_sample raw) w) >=? EI_CLASSIFIER_RAW_SAMPLE_COUNT
             then CapFull else CapFill)
            ip)
| step_publish w ip :
    step (Build_system w CapFull ip)
         (Build_system (exec publish_window w) CapFill ip)
| step_poll_wait w cp :
    audio_ready w = false ->
    step (Build_system w cp InfIdle) (Build_system w cp InfIdle)
| step_poll_ready w cp :
    audio_ready w = true ->
    step (Build_system w cp InfIdle)
         (Build_system (exec (t ← esp_timer_get_time; modify (set_cycle_start_time t)) w)
                       cp InfClaiming)
| step_claim w cp :
    step (Build_system w cp InfClaiming)
         (Build_system (exec (_ ← claim_window; esp_timer_get_time) w) cp
                       (InfClassifying (fst ((_ ← claim_window; esp_timer_get_time) w))))
| step_get_data offset length w cp t :
    0 <= offset -> 0 <= length -> offset + length <= EI_CLASSIFIER_RAW_SAMPLE_COUNT ->
    step (Build_system w cp (InfClassifying t))
         (Build_system (exec (signal_get_data offset length) w) cp (InfClassifying t))
| step_finish res result w cp t :
    step (Build_system w cp (InfClassifying t))
         (Build_system (exec (finish_cycle t res result) w) cp InfIdle).




(** The claims of the specification that the code does not meet, as
    propositions (each is refuted in Part II). *)

(** "If the classifier reports failure, no Performance Metrics field is
    updated for that cycle." *)
Definition failed_cycle_updates_no_metric : Prop :=
  forall (w : world) (inference_start res : Z) (result : classification),
    res <> EI_IMPULSE_OK ->
    perf_metrics (exec (finish_cycle inference_start res result) w) = perf_metrics w.

Definition float_is_finite (f : spec_float) : bool :=
  match f with
  | S754_zero _ | S754_finite _ _ _ => true
  | S754_infinity _ | S754_nan => false
  end.

(** "The throughput computation is guarded so that a total cycle duration
    of 0 never causes a division by zero": with a total of 0 the stored
    throughput is still a finite number. *)
Definition throughput_guarded : Prop :=
  forall (w : world) (inference_start : Z) (result : classification),
    let w' := exec (finish_cycle inference_start EI_IMPULSE_OK result) w in
    total_cycle_us (perf_metrics w') = 0 ->
    float_is_finite (fps (perf_metrics w')) = true.

(** The window as the classifier receives it. *)
Definition window_signal (w : world) : list spec_float :=
  map float_of_Z (take (Z.to_nat EI_CLASSIFIER_RAW_SAMPLE_COUNT) (inference_buffer w)).

(** The metrics record at the end of a completed cycle that started in [w]
    when [run_classifier] returned. *)
Definition completed_metrics (w : world) (inference_start : Z) : performance_metrics_t :=
  let now := fun k => esp_timer w (k + timer_reads w)%nat in
  let total := to_int64 (now 3%nat - cycle_start_time w) in
  {| audio_capture_us := audio_capture_us (perf_metrics w);
     inference_us := to_int64 (now 0%nat - inference_start);
     display_update_us := to_int64 (now 2%nat - now 1%nat);
     total_cycle_us := total;
     fps := float_div (float_of_Z 1000000) (float_of_Z total);
     inference_count := to_uint32 (inference_count (perf_metrics w) + 1) |}.

(** The state in which [run_classifier] returns, for a cycle entered in [w]. *)
Definition classified (w : world) : world :=
  set_handoff_trace
    (handoff_trace w ++ EvClaim :: map EvRead (seqZ 0 EI_CLASSIFIER_RAW_SAMPLE_COUNT))
    (set_timer_reads (2 + timer_reads w)
       (set_audio_ready false
          (set_cycle_start_time (esp_timer w (timer_reads w)) w))).

(** What a cycle from [w] to [w'] reported: the frame holds the anomaly
    (resp. normal) branch and the log line of the cycle says the same. *)
Definition shows_anomaly (w w' : world) : Prop :=
  exists (score_text timing_text : string) (m : performance_metrics_t)
         (tail : list log_entry),
    oled_buffer w'
    = draw_footer score_text timing_text (draw_anomaly (draw_header (oled_buffer w))) /\
    esp_log w' = esp_log w ++ LogInference true m :: tail.

Definition shows_normal (w w' : world) : Prop :=
  exists (score_text timing_text : string) (m : performance_metrics_t)
         (tail : list log_entry),
    oled_buffer w'
    = draw_footer score_text timing_text (draw_normal (draw_header (oled_buffer w))) /\
    esp_log w' = esp_log w ++ LogInference false m :: tail.

(** What the capture task leaves alone: the display, the inference task's
    locals, the environment and the log. *)
Definition capture_frame (w w' : world) : Prop :=
  oled_buffer w' = oled_buffer w /\
  cycle_start_time w' = cycle_start_time w /\
  last_report_time w' = last_report_time w /\
  esp_timer w' = esp_timer w /\
  i2c_outcome w' = i2c_outcome w /\
  i2c_wire w' = i2c_wire w /\
  run_classifier w' = run_classifier w /\
  esp_log w' = esp_log w /\
  length (inference_buffer w') = length (inference_buffer w).

(** The telemetry invariant of a run whose report window opened at [opened]:
    the summaries logged so far are spaced, and [last_report_time] is the
    time of the latest one ([opened] before the first). *)
Definition report_inv (opened : Z) (w : world) : Prop :=
  spaced opened (summary_times (esp_log w)) /\
  last_report_time w = default opened (last (summary_times (esp_log w))) /\
  is_time (last_report_time w).



(** ** Further definitions used in Part III *)

(** Bytes of the data transfers of a wire log (those that start with the
    control byte 0x40), in the order they were sent. *)
Definition wire_pixels (transfers : list (list Z)) : list Z :=
  flat_map (fun buf => match buf with
                       | 0x40 :: bytes => bytes
                       | _ => []
                       end) transfers.

(** Pixel [(px, py)] belongs to the glyph of some supported character of
    [str] drawn from [(x, y)] with the 6-pixel advance of
    [oled_draw_string]. *)
Definition string_painted (str : string) (x y px py : Z) : Prop :=
  exists (k : nat) (c : ascii) (g : list Z),
    String.get k str = Some c /\ glyph_of c = Some g /\
    glyph_painted g (x + 6 * Z.of_nat k) y px py.

(** Boolean form, following the recursion of [oled_draw_string]. *)
Fixpoint string_hit (str : string) (x y px py : Z) {struct str} : bool :=
  match str with
  | EmptyString => false
  | String c rest =>
      match glyph_of c with
      | Some g => existsb (glyph_hit g x y px py) (seqZ 0 5)
      | None => false
      end || string_hit rest (x + 6) y px py
  end.

(** The integer a [float] denotes, when it denotes one. *)
Definition float_to_Z (f : spec_float) : option Z :=
  match f with
  | S754_zero _ => Some 0
  | S754_finite s m e =>
      let sign := if s then -1 else 1 in
      if 0 <=? e then Some (sign * (Z.pos m * 2 ^ e))
      else if Z.pos m mod 2 ^ (- e) =? 0 then Some (sign * (Z.pos m / 2 ^ (- e)))
      else None
  | S754_infinity _ | S754_nan => None
  end.

Definition is_int16 (z : Z) : Prop := - 2 ^ 15 <= z < 2 ^ 15.

(** [test] holds of the [n] integers from [v] on. *)
Fixpoint holds_from (test : Z -> bool) (n : nat) (v : Z) {struct n} : bool :=
  match n with
  | O => true
  | S k => test v && holds_from test k (v + 1)
  end.

Definition float_exact_at (v : Z) : bool :=
  match float_to_Z (float_of_Z v) with
  | Some u => u =? v
  | None => false
  end.

(** The two label tests of the score loop. *)
Definition is_normal_label (label : string) : bool :=
  String.eqb label "normal" || String.eqb label "Normal".
Definition is_abnormal_label (label : string) : bool :=
  String.eqb label "abnormal" || String.eqb label "Abnormal".

(** The value of the last entry of a classification whose label passes
    [test], 0.0 when there is none. *)
Definition last_score (test : string -> bool) (result : list (string * spec_float))
  : spec_float :=
  default (S754_zero false)
          (last (map snd (filter (fun entry => test (fst entry) = true) result))).

(** The conversion applied to each raw sample. *)
Definition convert_sample (raw : Z) : Z := to_int16 (Z.shiftr raw 14).

(** A write event stays inside the window and stores a 16-bit value. *)
Definition write_in_window (e : handoff_event) : Prop :=
  match e with
  | EvWrite slot value =>
      0 <= slot < EI_CLASSIFIER_RAW_SAMPLE_COUNT /\ is_int16 value
  | _ => True
  end.

Definition is_inference_entry (e : log_entry) : bool :=
  match e with LogInference _ _ => true | _ => false end.

(** Number of completed cycles a log records. *)
Definition completed_cycles (log : list log_entry) : Z :=
  Z.of_nat (length (filter (fun e => is_inference_entry e = true) log)).

(** Every summary of the log comes directly after the line of a completed
    cycle and carries the metrics record of that line; [prev] is the entry
    before the log. *)
Fixpoint summaries_follow (prev : option log_entry) (log : list log_entry)
         {struct log} : Prop :=
  match log with
  | [] => True
  | e :: rest =>
      match e with
      | LogSummary _ m => exists d, prev = Some (LogInference d m)
      | _ => True
      end /\ summaries_follow (Some e) rest
  end.

(** How one activation of a task extends the log and the counter. *)
Inductive log_step (w w' : world) : Prop :=
| log_quiet :
    esp_log w' = esp_log w ->
    inference_count (perf_metrics w') = inference_count (perf_metrics w) ->
    log_step w w'
| log_failed (res : Z) :
    esp_log w' = esp_log w ++ [LogInferenceFailed res] ->
    inference_count (perf_metrics w') = inference_count (perf_metrics w) ->
    log_step w w'
| log_completed (d : bool) (m : performance_metrics_t) (tail : list log_entry) :
    esp_log w' = esp_log w ++ LogInference d m :: tail ->
    (tail = [] \/ exists t, tail = [LogSummary t m]) ->
    inference_count (perf_metrics w')
    = to_uint32 (inference_count (perf_metrics w) + 1) ->
    log_step w w'.

(** The invariant of a run on log and counter. *)
Definition log_inv (w : world) : Prop :=
  inference_count (perf_metrics w) = to_uint32 (completed_cycles (esp_log w)) /\
  summaries_follow None (esp_log w).

(** Pixel [(v, row)] of a frame is on. *)
Definition row_pixel_on (fb : list Z) (row v : Z) : bool := get_pixel fb v row.

(** The timer never runs backwards and stays in the range of the
    microsecond clock. *)
Definition timer_monotone (w : world) : Prop :=
  forall n : nat, is_time (esp_timer w n) /\ esp_timer w n <= esp_timer w (S n).

(** ** The readiness flag under a clearing consumer *)

(** The two accesses to the flag and the fill index: one pass through the
    body of the capture loop, and the inference task's
    [audio_ready = false].  A list of them is the capture task's sample
    stream with the consumer's clears falling between samples, anywhere. *)
Inductive window_op : Type :=
| OpSample (raw : Z)
| OpClaim.

Definition do_op (op : window_op) : M unit :=
  match op with
  | OpSample raw => capture_sample raw
  | OpClaim => claim_window
  end.

Fixpoint do_ops (ops : list window_op) {struct ops} : M unit :=
  match ops with
  | [] => skip
  | op :: rest => _ ← do_op op; do_ops rest
  end.

Definition is_sample_op (op : window_op) : bool :=
  match op with OpSample _ => true | OpClaim => false end.

(** Number of samples among the operations. *)
Definition sample_count (ops : list window_op) : Z :=
  Z.of_nat (length (filter (fun op => is_sample_op op = true) ops)).

(** The latest of {a sample whose number is a multiple of 416, a clear} is
    a sample: the sample closes a window and no clear follows it. *)
Definition marked (ops : list window_op) : Prop :=
  exists (before : list window_op) (raw : Z) (after : list window_op),
    ops = before ++ OpSample raw :: after /\
    (sample_count before + 1) mod EI_CLASSIFIER_RAW_SAMPLE_COUNT = 0 /\
    Forall (fun op => is_sample_op op = true) after.

(** ** Structure of the handoff trace *)






(** Several steps of the interleaved system. *)
Inductive steps : system -> system -> Prop :=
| steps_refl s : steps s s
| steps_step s s' s'' : step s s' -> steps s' s'' -> steps s s''.

(** The claims made so far, plus the one the inference task can still make
    without a new mark: the flag is set, or it has seen the flag set and is
    about to clear it. *)
Definition claim_budget (s : system) : Z :=
  count is_claim (handoff_trace (sys_world s))
  + (if audio_ready (sys_world s)
        || match inf_pc s with InfClaiming => true | _ => false end
     then 1 else 0).

(** ** What the status band shows *)

(** The warning box of the anomaly branch: rows 22 and 38 from column 10 to
    column 117, columns 10 and 117 from row 22 to row 37. *)
Definition box_border (px py : Z) : Prop :=
  (10 <= px < OLED_WIDTH - 10 /\ (py = 22 \/ py = 38)) \/
  ((px = 10 \/ px = OLED_WIDTH - 11) /\ 22 <= py < 38).

Definition box_hit (px py : Z) : bool :=
  ((10 <=? px) && (px <? OLED_WIDTH - 10) && ((py =? 22) || (py =? 38)))
  || (((px =? 10) || (px =? OLED_WIDTH - 11)) && (22 <=? py) && (py <? 38)).

(** The status band of a frame, rows 17 to 44 (below the separator line,
    above the score line), has exactly the pixels [lit] on. *)
Definition band_shows (frame : list Z) (lit : Z -> Z -> Prop) : Prop :=
  forall px py : Z,
    0 <= px < OLED_WIDTH -> 17 <= py < 45 ->
    (get_pixel frame px py = true <-> lit px py).

(** The band reads ANOMALY! at (15, 25) inside the warning box, and
    nothing else. *)
Definition anomaly_displayed (frame : list Z) : Prop :=
  band_shows frame
    (fun px py => string_painted "ANOMALY!" 15 25 px py \/ box_border px py).

(** The band reads NORMAL at (20, 25), and nothing else. *)
Definition normal_displayed (frame : list Z) : Prop :=
  band_shows frame (string_painted "NORMAL" 20 25).

(** Boolean check of a band against a pattern, pixel by pixel. *)
Definition band_matches (frame : list Z) (hit : Z -> Z -> bool) : bool :=
  holds_from
    (fun py =>
       holds_from (fun px => Bool.eqb (get_pixel frame px py) (hit px py))
                  (Z.to_nat OLED_WIDTH) 0)
    28 17.

(* ================================================================== *)
(** * Part II: properties                                              *)
(* ================================================================== *)

(** ** Bit-level facts about bytes *)

Section ByteBits.

Lemma testbit_one_shiftl (j n : Z) :
  0 <= j -> Z.testbit (Z.shiftl 1 j) n = (n =? j).
Proof.
  intros Hj. rewrite Z.shiftl_1_l. rewrite Z.pow2_bits_eqb by lia.
  apply Z.eqb_sym.
Qed.

Lemma byte_testbit_high (b n : Z) :
  0 <= b < 256 -> 8 <= n -> Z.testbit b n = false.
Proof.
  intros Hb Hn. destruct (Z.eq_dec b 0) as [->|Hnz].
  - apply Z.bits_0.
  - apply Z.bits_above_log2; [lia|].
    assert (Z.log2 b < 8); [|lia].
    apply Z.log2_lt_pow2; lia.
Qed.

Lemma to_uint8_range (z : Z) : 0 <= to_uint8 z < 256.
Proof. unfold to_uint8. change (2 ^ 8) with 256. apply Z.mod_pos_bound. lia. Qed.

Lemma to_uint8_testbit (z n : Z) :
  Z.testbit (to_uint8 z) n = (n <? 8) && Z.testbit z n.
Proof.
  unfold to_uint8. destruct (Z.ltb_spec n 8) as [Hlt|Hge]; simpl.
  - destruct (Z.ltb_spec n 0) as [Hneg|Hpos].
    + now rewrite !Z.testbit_neg_r.
    + apply Z.mod_pow2_bits_low. lia.
  - apply Z.mod_pow2_bits_high. lia.
Qed.

(** [b |= (1 << j)] on a byte. *)
Lemma set_bit_spec (b j n : Z) :
  0 <= b < 256 -> 0 <= j < 8 ->
  Z.testbit (to_uint8 (Z.lor b (Z.shiftl 1 j))) n
  = if n =? j then true else Z.testbit b n.
Proof.
  intros Hb Hj. rewrite to_uint8_testbit, Z.lor_spec, testbit_one_shiftl by lia.
  destruct (Z.eqb_spec n j) as [->|Hne].
  - rewrite orb_true_r, andb_true_r. apply Z.ltb_lt. lia.
  - rewrite orb_false_r. destruct (Z.ltb_spec n 8); simpl; [reflexivity|].
    symmetry. now apply byte_testbit_high.
Qed.

(** [b &= ~(1 << j)] on a byte. *)
Lemma clear_bit_spec (b j n : Z) :
  0 <= b < 256 -> 0 <= j < 8 ->
  Z.testbit (to_uint8 (Z.land b (Z.lnot (Z.shiftl 1 j)))) n
  = if n =? j then false else Z.testbit b n.
Proof.
  intros Hb Hj. rewrite to_uint8_testbit.
  destruct (Z.ltb_spec n 0) as [Hneg|Hpos].
  { rewrite !Z.testbit_neg_r by lia. rewrite andb_false_r. now destruct (n =? j). }
  rewrite Z.land_spec, Z.lnot_spec, testbit_one_shiftl by lia.
  destruct (Z.eqb_spec n j) as [->|Hne]; simpl.
  - rewrite andb_false_r. apply andb_false_r.
  - rewrite andb_true_r. destruct (Z.ltb_spec n 8); simpl; [reflexivity|].
    symmetry. now apply byte_testbit_high.
Qed.

End ByteBits.

(** ** [oled_set_pixel] *)

Section SetPixel.

Implicit Types (fb : list Z) (x y : Z) (on : bool).

Lemma in_display_guard x y :
  in_display x y ->
  (x <? 0) || (x >=? OLED_WIDTH) || (y <? 0) || (y >=? OLED_HEIGHT) = false.
Proof.
  unfold in_display, OLED_WIDTH, OLED_HEIGHT. intros [Hx Hy].
  repeat (apply orb_false_intro); lia.
Qed.

Lemma not_in_display_guard x y :
  ~ in_display x y ->
  (x <? 0) || (x >=? OLED_WIDTH) || (y <? 0) || (y >=? OLED_HEIGHT) = true.
Proof.
  unfold in_display, OLED_WIDTH, OLED_HEIGHT. intros Hout.
  destruct (Z.ltb_spec x 0); [reflexivity|].
  destruct (Z.geb_spec x 128); [reflexivity|].
  destruct (Z.ltb_spec y 0); [reflexivity|].
  destruct (Z.geb_spec y 64); [reflexivity|].
  exfalso. apply Hout. lia.
Qed.

(** Out of bounds: the call returns at its first statement. *)
Lemma oled_set_pixel_out fb x y on :
  ~ in_display x y -> oled_set_pixel fb x y on = fb.
Proof. intros Hout. unfold oled_set_pixel. now rewrite not_in_display_guard. Qed.

(** In bounds: one byte function applied at the byte index. *)
Lemma oled_set_pixel_in fb x y on :
  in_display x y ->
  oled_set_pixel fb x y on
  = alter (pixel_update y on) (Z.to_nat (x + y / 8 * OLED_WIDTH)) fb.
Proof.
  intros Hin. unfold oled_set_pixel. rewrite in_display_guard by assumption.
  destruct Hin as [_ Hy]. unfold OLED_HEIGHT in Hy.
  rewrite Z.quot_div_nonneg, Z.rem_mod_nonneg by lia.
  unfold pixel_update. destruct on; reflexivity.
Qed.

Lemma pixel_update_testbit y on b n :
  0 <= b < 256 ->
  Z.testbit (pixel_update y on b) n
  = if n =? y mod 8 then on else Z.testbit b n.
Proof.
  intros Hb. assert (0 <= y mod 8 < 8) by (apply Z.mod_pos_bound; lia).
  unfold pixel_update. destruct on.
  - now apply set_bit_spec.
  - now apply clear_bit_spec.
Qed.

Lemma pixel_update_range y on b : 0 <= pixel_update y on b < 256.
Proof. unfold pixel_update. destruct on; apply to_uint8_range. Qed.

Lemma byte_index_lt x y :
  in_display x y -> (Z.to_nat (x + y / 8 * OLED_WIDTH) < Z.to_nat OLED_BUFFER_SIZE)%nat.
Proof.
  unfold in_display, OLED_WIDTH, OLED_HEIGHT. intros [Hx Hy].
  change (Z.to_nat OLED_BUFFER_SIZE) with (Z.to_nat 1024).
  assert (0 <= y / 8 < 8) by (split; [apply Z.div_pos|apply Z.div_lt_upper_bound]; lia).
  lia.
Qed.

Lemma oled_set_pixel_ok fb x y on :
  framebuffer_ok fb -> framebuffer_ok (oled_set_pixel fb x y on).
Proof.
  intros [Hlen Hall]. unfold oled_set_pixel.
  destruct (_ || _); [now split|].
  destruct on; (split; [now rewrite length_alter|]);
    apply Forall_alter; auto; intros; apply to_uint8_range.
Qed.

End SetPixel.

(** C6.  For every coordinate pair outside [0,128) x [0,64), [oled_set_pixel]
    leaves the framebuffer unchanged; for every pair inside, it keeps the
    length, leaves every byte other than the one at index [x + (y/8)*128]
    unchanged, and in that byte changes nothing but bit [y % 8], which takes
    the value [on]. *)
Theorem oled_set_pixel_frame (fb : list Z) (x y : Z) (on : bool) :
  (~ in_display x y -> oled_set_pixel fb x y on = fb) /\
  (in_display x y -> framebuffer_ok fb ->
   let k := Z.to_nat (x + y / 8 * OLED_WIDTH) in
   length (oled_set_pixel fb x y on) = length fb /\
   (forall i : nat, i <> k -> oled_set_pixel fb x y on !! i = fb !! i) /\
   exists b b' : Z,
     fb !! k = Some b /\ oled_set_pixel fb x y on !! k = Some b' /\
     0 <= b' < 256 /\
     Z.testbit b' (y mod 8) = on /\
     forall n : Z, n <> y mod 8 -> Z.testbit b' n = Z.testbit b n).
Proof.
  split; [apply oled_set_pixel_out|].
  intros Hin [Hlen Hall] k. rewrite oled_set_pixel_in by assumption. fold k.
  split; [apply length_alter|].
  split; [intros i Hi; now apply list_lookup_alter_ne|].
  assert (Hk : (k < length fb)%nat) by (rewrite Hlen; now apply byte_index_lt).
  destruct (lookup_lt_is_Some_2 _ _ Hk) as [b Hb].
  assert (Hbr : 0 <= b < 256).
  { rewrite Forall_lookup in Hall. exact (Hall _ _ Hb). }
  exists b, (pixel_update y on b).
  split; [exact Hb|].
  split; [now rewrite list_lookup_alter_eq, Hb|].
  split; [apply pixel_update_range|].
  split.
  - rewrite pixel_update_testbit by assumption. now rewrite Z.eqb_refl.
  - intros n Hn. rewrite pixel_update_testbit by assumption.
    destruct (Z.eqb_spec n (y mod 8)); [contradiction|reflexivity].
Qed.

Lemma oled_set_pixel_frame_witness :
  ~ in_display 200 3 /\ in_display 3 10 /\ framebuffer_ok (oled_clear_buffer []) /\
  oled_set_pixel (oled_clear_buffer []) 200 3 true = oled_clear_buffer [] /\
  length (oled_set_pixel (oled_clear_buffer []) 3 10 true)
  = length (oled_clear_buffer []).
Proof.
  assert (Hout : ~ in_display 200 3) by (unfold in_display, OLED_WIDTH; lia).
  assert (Hin : in_display 3 10) by (unfold in_display, OLED_WIDTH, OLED_HEIGHT; lia).
  assert (Hok : framebuffer_ok (oled_clear_buffer [])).
  { split; [apply length_replicate|]. apply Forall_replicate. lia. }
  split; [exact Hout|]. split; [exact Hin|]. split; [exact Hok|]. split.
  - exact (proj1 (oled_set_pixel_frame (oled_clear_buffer []) 200 3 true) Hout).
  - exact (proj1 (proj2 (oled_set_pixel_frame (oled_clear_buffer []) 3 10 true) Hin Hok)).
Defined.

(** ** [oled_draw_char] *)

Section DrawChar.

Implicit Types (fb : list Z) (x y px py : Z) (on : bool).

(** Reading back a pixel of the display after [oled_set_pixel]. *)
Lemma get_pixel_set_pixel fb x y on px py :
  framebuffer_ok fb -> in_display px py ->
  get_pixel (oled_set_pixel fb x y on) px py
  = if (px =? x) && (py =? y) then on else get_pixel fb px py.
Proof.
  intros [Hlen Hall] Hp.
  destruct (decide (0 <= x < OLED_WIDTH /\ 0 <= y < OLED_HEIGHT)) as [Hin|Hout].
  - rewrite oled_set_pixel_in by exact Hin. unfold get_pixel.
    rewrite list_lookup_alter.
    pose proof (byte_index_lt x y Hin) as Hk. rewrite <- Hlen in Hk.
    destruct (lookup_lt_is_Some_2 _ _ Hk) as [b Hb].
    assert (Hbr : 0 <= b < 256).
    { rewrite Forall_lookup in Hall. exact (Hall _ _ Hb). }
    destruct Hin as [Hx Hy], Hp as [Hpx Hpy].
    unfold OLED_WIDTH, OLED_HEIGHT in *.
    assert (0 <= y / 8 < 8) by (split; [apply Z.div_pos|apply Z.div_lt_upper_bound]; lia).
    assert (0 <= py / 8 < 8) by (split; [apply Z.div_pos|apply Z.div_lt_upper_bound]; lia).
    pose proof (Z.div_mod y 8 ltac:(lia)) as Ey.
    pose proof (Z.div_mod py 8 ltac:(lia)) as Epy.
    pose proof (Z.mod_pos_bound y 8 ltac:(lia)).
    pose proof (Z.mod_pos_bound py 8 ltac:(lia)).
    case_decide as Hidx.
    + assert (px = x /\ py / 8 = y / 8) as [-> Hq] by lia.
      rewrite Z.eqb_refl. simpl. rewrite <- Hidx, Hb. simpl.
      rewrite pixel_update_testbit by exact Hbr.
      destruct (Z.eqb_spec py y) as [->|Hne].
      * now rewrite Z.eqb_refl.
      * destruct (Z.eqb_spec (py mod 8) (y mod 8)); [lia|reflexivity].
    + destruct (Z.eqb_spec px x) as [->|Hne]; [|reflexivity].
      destruct (Z.eqb_spec py y) as [->|Hne]; [|reflexivity].
      contradiction.
  - rewrite oled_set_pixel_out by exact Hout.
    destruct (Z.eqb_spec px x) as [->|Hne]; [|reflexivity].
    destruct (Z.eqb_spec py y) as [->|Hne]; [|reflexivity].
    contradiction.
Qed.

(** The column test [col & (1 << j)] reads bit [j] of the column. *)
Lemma column_bit_test (col j : Z) :
  0 <= j -> negb (Z.land col (Z.shiftl 1 j) =? 0) = Z.testbit col j.
Proof.
  intros Hj. rewrite Z.shiftl_1_l.
  destruct (Z.testbit col j) eqn:E.
  - destruct (Z.eqb_spec (Z.land col (2 ^ j)) 0) as [H0|]; [|reflexivity].
    exfalso. assert (Hb : Z.testbit (Z.land col (2 ^ j)) j = true).
    { rewrite Z.land_spec, E, Z.pow2_bits_true; auto. }
    rewrite H0, Z.bits_0 in Hb. discriminate.
  - assert (Z.land col (2 ^ j) = 0) as ->; [|reflexivity].
    apply Z.bits_inj'. intros n Hn.
    rewrite Z.land_spec, Z.bits_0, Z.pow2_bits_eqb by lia.
    destruct (Z.eqb_spec j n) as [->|]; [now rewrite E|apply andb_false_r].
Qed.

(** A loop whose body either paints the pixel with [on] or leaves it. *)
Lemma foldl_paint {A} (step : list Z -> A -> list Z) (hitb : A -> bool)
      on px py (l : list A) :
  (forall fb a, framebuffer_ok fb -> framebuffer_ok (step fb a)) ->
  (forall fb a, framebuffer_ok fb ->
     get_pixel (step fb a) px py = if hitb a then on else get_pixel fb px py) ->
  forall fb, framebuffer_ok fb ->
    framebuffer_ok (foldl step fb l) /\
    get_pixel (foldl step fb l) px py
    = if existsb hitb l then on else get_pixel fb px py.
Proof.
  intros Hok Hstep. induction l as [|a l IH]; intros fb Hfb; simpl.
  - now split.
  - destruct (IH (step fb a) (Hok _ _ Hfb)) as [Hok' Hpx]. split; [exact Hok'|].
    rewrite Hpx, Hstep by exact Hfb.
    destruct (hitb a), (existsb hitb l); reflexivity.
Qed.

Lemma draw_column_pixel fb x y i col on px py :
  framebuffer_ok fb -> in_display px py ->
  framebuffer_ok (draw_column fb x y i col on) /\
  get_pixel (draw_column fb x y i col on) px py
  = if existsb (column_hit x y i col px py) (seqZ 0 7) then on
    else get_pixel fb px py.
Proof.
  intros Hfb Hp. unfold draw_column.
  assert (Hgen : forall js : list Z, Forall (fun j => 0 <= j) js ->
    forall fb0, framebuffer_ok fb0 ->
    framebuffer_ok
      (foldl (fun fb j => if negb (Z.land col (Z.shiftl 1 j) =? 0)
                          then oled_set_pixel fb (x + i) (y + j) on else fb) fb0 js) /\
    get_pixel
      (foldl (fun fb j => if negb (Z.land col (Z.shiftl 1 j) =? 0)
                          then oled_set_pixel fb (x + i) (y + j) on else fb) fb0 js)
      px py
    = if existsb (column_hit x y i col px py) js then on else get_pixel fb0 px py).
  { induction js as [|j js IH]; intros Hjs fb0 Hfb0; simpl; [now split|].
    apply Forall_cons in Hjs as [Hj Hjs].
    rewrite column_bit_test by exact Hj.
    replace (column_hit x y i col px py j)
      with (Z.testbit col j && ((px =? x + i) && (py =? y + j))) by reflexivity.
    destruct (Z.testbit col j); simpl.
    - destruct (IH Hjs (oled_set_pixel fb0 (x + i) (y + j) on)
                  (oled_set_pixel_ok _ _ _ _ Hfb0)) as [Hok' Hpx].
      split; [exact Hok'|]. rewrite Hpx, get_pixel_set_pixel by assumption.
      destruct ((px =? x + i) && (py =? y + j)), (existsb _ js); reflexivity.
    - exact (IH Hjs fb0 Hfb0). }
  apply Hgen; [|exact Hfb].
  apply Forall_forall. intros j Hj. apply elem_of_seqZ in Hj. lia.
Qed.

Lemma glyph_hit_painted (g : list Z) x y px py :
  existsb (glyph_hit g x y px py) (seqZ 0 5) = true <-> glyph_painted g x y px py.
Proof.
  unfold glyph_painted, glyph_hit, column_hit. rewrite existsb_exists. split.
  - intros (i & Hi & Hex). apply existsb_exists in Hex as (j & Hj & Hhit).
    apply list_elem_of_In, elem_of_seqZ in Hi.
    apply list_elem_of_In, elem_of_seqZ in Hj.
    apply andb_true_iff in Hhit as [Hbit Hxy].
    apply andb_true_iff in Hxy as [Hx Hy].
    exists i, j. repeat split; try lia. exact Hbit.
  - intros (i & j & Hi & Hj & -> & -> & Hbit).
    exists i. split; [apply list_elem_of_In, elem_of_seqZ; lia|].
    apply existsb_exists. exists j.
    split; [apply list_elem_of_In, elem_of_seqZ; lia|].
    now rewrite Hbit, !Z.eqb_refl.
Qed.

End DrawChar.

Lemma glyph_index_agrees (c : ascii) : glyph_index_check c = true.
Proof.
  destruct c as [[] [] [] [] [] [] [] []]; vm_compute; reflexivity.
Qed.

Lemma font5x7_rows (k : nat) :
  (k < 39)%nat -> exists g, font5x7 !! k = Some g /\ font5x7 !!! k = g.
Proof.
  intros Hk. do 39 (destruct k as [|k]; [eexists; split; reflexivity|]). lia.
Qed.

(** C7.  For an unsupported character [oled_draw_char] returns the
    framebuffer as it received it.  For a supported character [c] the glyph
    table has an entry [g], and after [oled_draw_char fb x y c on] every
    pixel of the display that belongs to the pattern of [g] placed at
    [(x, y)] (bit [j] of column [i] at [(x + i, y + j)], 5 columns, 7 rows)
    has the value [on], and every other pixel of the display is as it was. *)
Theorem oled_draw_char_glyph (fb : list Z) (x y : Z) (c : ascii) (on : bool) :
  (~ supported c -> oled_draw_char fb x y c on = fb) /\
  (supported c -> framebuffer_ok fb ->
   exists g : list Z,
     glyph_of c = Some g /\
     framebuffer_ok (oled_draw_char fb x y c on) /\
     forall px py : Z, in_display px py ->
       (glyph_painted g x y px py ->
        get_pixel (oled_draw_char fb x y c on) px py = on) /\
       (~ glyph_painted g x y px py ->
        get_pixel (oled_draw_char fb x y c on) px py = get_pixel fb px py)).
Proof.
  pose proof (glyph_index_agrees c) as Hchk. unfold glyph_index_check in Hchk.
  unfold supported, glyph_of. split.
  - intros Hns. destruct (label_position (to_upper c) font_labels) as [k|].
    + exfalso. apply Hns. eauto.
    + apply Z.eqb_eq in Hchk. unfold oled_draw_char. now rewrite Hchk.
  - intros [k Hk] Hfb. rewrite Hk in Hchk |- *. simpl.
    apply andb_true_iff in Hchk as [Hchk Hlt].
    apply andb_true_iff in Hchk as [Hpos Hidx].
    apply Z.leb_le in Hpos. apply Nat.eqb_eq in Hidx. apply Nat.ltb_lt in Hlt.
    destruct (font5x7_rows k Hlt) as (g & Hg & Hgt).
    exists g. split; [exact Hg|].
    unfold oled_draw_char.
    destruct (Z.ltb_spec (glyph_index c) 0) as [|_]; [lia|].
    assert (Hcol : forall i, font_column (glyph_index c) i = g !!! Z.to_nat i).
    { intros i. unfold font_column. now rewrite Hidx, Hgt. }
    assert (Hloop : forall px py, in_display px py ->
      framebuffer_ok
        (foldl (fun fb i => draw_column fb x y i (font_column (glyph_index c) i) on)
               fb (seqZ 0 5)) /\
      get_pixel
        (foldl (fun fb i => draw_column fb x y i (font_column (glyph_index c) i) on)
               fb (seqZ 0 5)) px py
      = if existsb (glyph_hit g x y px py) (seqZ 0 5) then on else get_pixel fb px py).
    { intros px py Hp. apply foldl_paint; [| |exact Hfb].
      - intros fb0 i Hfb0. now apply (draw_column_pixel fb0 x y i _ on px py).
      - intros fb0 i Hfb0. rewrite Hcol.
        now apply (draw_column_pixel fb0 x y i _ on px py). }
    split.
    + apply (Hloop 0 0). unfold in_display, OLED_WIDTH, OLED_HEIGHT. lia.
    + intros px py Hp. destruct (Hloop px py Hp) as [_ Hpx]. rewrite Hpx.
      pose proof (glyph_hit_painted g x y px py) as Hiff.
      destruct (existsb (glyph_hit g x y px py) (seqZ 0 5)).
      * split; [reflexivity|]. intros Hn. exfalso. apply Hn, Hiff. reflexivity.
      * split; [|reflexivity]. intros Hp'. apply Hiff in Hp'. discriminate.
Qed.

Lemma oled_draw_char_glyph_witness :
  ~ supported "#" /\ supported "A" /\ framebuffer_ok (oled_clear_buffer []) /\
  oled_draw_char (oled_clear_buffer []) 0 0 "#" true = oled_clear_buffer [] /\
  exists g : list Z,
    glyph_of "A" = Some g /\
    framebuffer_ok (oled_draw_char (oled_clear_buffer []) 0 0 "A" true) /\
    forall px py : Z, in_display px py ->
      (glyph_painted g 0 0 px py ->
       get_pixel (oled_draw_char (oled_clear_buffer []) 0 0 "A" true) px py = true) /\
      (~ glyph_painted g 0 0 px py ->
       get_pixel (oled_draw_char (oled_clear_buffer []) 0 0 "A" true) px py
       = get_pixel (oled_clear_buffer []) px py).
Proof.
  assert (Hns : ~ supported "#") by (intros [k Hk]; discriminate Hk).
  assert (Hs : supported "A") by (exists 0%nat; reflexivity).
  assert (Hok : framebuffer_ok (oled_clear_buffer [])).
  { split; [apply length_replicate|]. apply Forall_replicate. lia. }
  split; [exact Hns|]. split; [exact Hs|]. split; [exact Hok|]. split.
  - exact (proj1 (oled_draw_char_glyph (oled_clear_buffer []) 0 0 "#" true) Hns).
  - exact (proj2 (oled_draw_char_glyph (oled_clear_buffer []) 0 0 "A" true) Hs Hok).
Defined.

Example draw_char_A_pixels :
  let fb := oled_draw_char (oled_clear_buffer []) 10 5 "A" true in
  get_pixel fb 10 5 = false /\ get_pixel fb 10 6 = true /\
  get_pixel fb 11 5 = true /\ get_pixel fb 11 6 = false.
Proof. vm_compute. repeat split. Qed.

(** ** [oled_update] *)

Section Flush.

Lemma to_uint8_page_command (page : Z) :
  0 <= page < 8 -> to_uint8 (0xB0 + page) = 0xB0 + page.
Proof. intros Hp. unfold to_uint8. apply Z.mod_small. lia. Qed.

Lemma oled_update_page_exec (page : Z) (w : world) :
  0 <= page < 8 ->
  oled_update_page page w
  = (tt, set_i2c_wire (i2c_wire w ++ page_transfer (oled_buffer w) page) w).
Proof.
  intros Hp. unfold oled_update_page, oled_write_command, i2c_master_transmit,
    page_transfer, page_bytes, get, mbind, M_bind, mret, M_ret.
  cbn. rewrite to_uint8_page_command by exact Hp.
  unfold set_i2c_wire. cbn. rewrite <- !app_assoc. cbn.
  unfold OLED_WIDTH. repeat f_equal.
Qed.

Lemma for_pages_exec (pages : list Z) :
  Forall (fun p => 0 <= p < 8) pages ->
  forall w : world,
    for_pages pages w
    = (tt, set_i2c_wire (i2c_wire w ++ flat_map (page_transfer (oled_buffer w)) pages) w).
Proof.
  induction 1 as [|p ps Hp Hps IH]; intros w.
  - cbn. unfold mret, M_ret, set_i2c_wire. rewrite app_nil_r. now destruct w.
  - cbn [for_pages]. unfold mbind, M_bind. rewrite oled_update_page_exec by exact Hp.
    rewrite IH. cbn. unfold set_i2c_wire. cbn. now rewrite <- app_assoc.
Qed.

Lemma oled_update_exec (w : world) :
  oled_update w = (tt, set_i2c_wire (i2c_wire w ++ flush_transfers (oled_buffer w)) w).
Proof.
  unfold oled_update. apply for_pages_exec.
  apply Forall_forall. intros p Hp. apply elem_of_seqZ in Hp. lia.
Qed.

Lemma page_bytes_length (fb : list Z) (page : Z) :
  framebuffer_ok fb -> 0 <= page < 8 -> length (page_bytes fb page) = 128%nat.
Proof.
  intros [Hlen _] Hp. unfold page_bytes. rewrite length_take, length_drop, Hlen.
  change (Z.to_nat OLED_BUFFER_SIZE) with 1024%nat. lia.
Qed.

End Flush.

(** C9 (as amended).  [oled_update] hands the framebuffer to the transport
    one page at a time, pages 0 to 7 in order: for each page the three
    addressing commands (0xB0 + page, 0x00, 0x10), then one data transfer of
    the control byte 0x40 followed by the 128 bytes of the page.  It returns
    nothing, changes no program variable and logs nothing; whatever the
    transport reports for these transmissions, the same transfers are made
    and the same state results. *)
Theorem oled_update_pages (w : world) :
  framebuffer_ok (oled_buffer w) ->
  i2c_wire (exec oled_update w) = i2c_wire w ++ flush_transfers (oled_buffer w) /\
  (forall page : Z, 0 <= page < 8 ->
     length (page_bytes (oled_buffer w) page) = 128%nat) /\
  program_view (exec oled_update w) = program_view w /\
  forall outcome : nat -> Z,
    oled_update (set_i2c_outcome outcome w)
    = (tt, set_i2c_outcome outcome (exec oled_update w)).
Proof.
  intros Hfb. unfold exec. rewrite oled_update_exec. cbn.
  split; [reflexivity|].
  split; [intros page Hp; now apply page_bytes_length|].
  split; [reflexivity|].
  intros outcome. now rewrite oled_update_exec.
Qed.

Lemma oled_update_pages_witness :
  let w := boot_world (fun n => Z.of_nat n) (fun _ => -1) (fun _ => (0, [])) in
  framebuffer_ok (oled_buffer w) /\
  i2c_wire (exec oled_update w) = i2c_wire w ++ flush_transfers (oled_buffer w).
Proof.
  intros w.
  assert (Hok : framebuffer_ok (oled_buffer w)).
  { split; [apply length_replicate|]. apply Forall_replicate. lia. }
  split; [exact Hok|]. exact (proj1 (oled_update_pages w Hok)).
Defined.

(** C9, counterexample to the claim as stated: on a transport that fails
    every transmission, a flush gives its caller the same result and leaves
    the same program state as on a transport that never fails. *)
Lemma oled_update_failure_not_observable : ~ flush_failure_observable.
Proof.
  intros Hobs.
  apply (Hobs (boot_world (fun n => Z.of_nat n) (fun _ => -1) (fun _ => (0, [])))).
  - exists 0%nat. split; [cbn; lia|]. cbn. unfold ESP_OK. lia.
  - unfold exec. rewrite !oled_update_exec. reflexivity.
Qed.

(** ** The inference/render cycle, executed symbolically *)

Section Cycle.

#[local] Arguments to_int64 : simpl never.
#[local] Arguments to_uint32 : simpl never.
#[local] Arguments float_div : simpl never.
#[local] Arguments float_of_Z : simpl never.
#[local] Arguments float_gt : simpl never.
#[local] Arguments SFmul : simpl never.
#[local] Arguments draw_header : simpl never.
#[local] Arguments draw_anomaly : simpl never.
#[local] Arguments draw_normal : simpl never.
#[local] Arguments draw_footer : simpl never.
#[local] Arguments extract_scores : simpl never.
#[local] Arguments flush_transfers : simpl never.
#[local] Arguments Z.geb : simpl never.
#[local] Arguments Z.eqb : simpl never.
#[local] Arguments seqZ : simpl never.

Implicit Types (w : world) (result : classification).

Lemma finish_cycle_failed w (inference_start res : Z) result :
  res <> EI_IMPULSE_OK ->
  finish_cycle inference_start res result w
  = (tt, set_esp_log (esp_log w ++ [LogInferenceFailed res])
           (set_perf_metrics
              (set_inference_us
                 (to_int64 (esp_timer w (timer_reads w) - inference_start))
                 (perf_metrics w))
              (set_timer_reads (S (timer_reads w)) w))).
Proof.
  intros Hres. unfold finish_cycle.
  destruct (Z.eqb_spec res EI_IMPULSE_OK) as [|_]; [contradiction|].
  reflexivity.
Qed.

Lemma finish_cycle_ok w (inference_start : Z) result :
  let w' := exec (finish_cycle inference_start EI_IMPULSE_OK result) w in
  let normal_score := fst (extract_scores result) in
  let anomaly_score := snd (extract_scores result) in
  let current_time := esp_timer w (4 + timer_reads w)%nat in
  let fire := to_int64 (current_time - last_report_time w) >=? 10000000 in
  let m := completed_metrics w inference_start in
  perf_metrics w' = m /\
  (exists score_text timing_text : string,
     oled_buffer w'
     = draw_footer score_text timing_text
         (if float_gt anomaly_score normal_score
          then draw_anomaly (draw_header (oled_buffer w))
          else draw_normal (draw_header (oled_buffer w)))) /\
  esp_log w'
  = esp_log w ++ LogInference (float_gt anomaly_score normal_score) m
                 :: (if fire then [LogSummary current_time m] else []) /\
  last_report_time w' = (if fire then current_time else last_report_time w) /\
  esp_timer w' = esp_timer w /\
  timer_reads w' = (5 + timer_reads w)%nat /\
  handoff_trace w' = handoff_trace w /\
  buffer_index w' = buffer_index w /\
  audio_ready w' = audio_ready w /\
  inference_buffer w' = inference_buffer w.
Proof.
  unfold exec, finish_cycle. change (EI_IMPULSE_OK =? EI_IMPULSE_OK) with true.
  cbn [negb].
  unfold render, update_cycle_metrics, report_summary, esp_timer_get_time,
    ESP_LOG, modify, get, skip.
  unfold mbind, M_bind, mret, M_ret. cbn.
  rewrite oled_update_exec. cbn.
  destruct (_ >=? _); cbn; rewrite <- ?app_assoc; cbn;
    (split; [reflexivity|]); (split; [eauto|]); repeat split; reflexivity.
Qed.

Lemma inference_iteration_idle w :
  audio_ready w = false -> inference_iteration w = (tt, w).
Proof. intros Hr. unfold inference_iteration, get, mbind, M_bind. now rewrite Hr. Qed.

Lemma inference_iteration_ready w :
  audio_ready w = true ->
  inference_iteration w
  = finish_cycle (esp_timer w (S (timer_reads w)))
      (fst (run_classifier w (window_signal w)))
      (snd (run_classifier w (window_signal w)))
      (classified w).
Proof.
  intros Hr. unfold inference_iteration, get, mbind, M_bind. rewrite Hr. cbn [negb].
  unfold claim_window, signal_get_data, observe, esp_timer_get_time, modify, get,
    mbind, M_bind, mret, M_ret, classified, window_signal. cbn.
  rewrite <- app_assoc. reflexivity.
Qed.

End Cycle.

(** ** Decision rule *)

Section Decision.

Lemma SFcompare_antisym (a b : spec_float) :
  SFcompare b a = option_map CompOpp (SFcompare a b).
Proof.
  destruct a as [sa|sa| |sa ma ea], b as [sb|sb| |sb mb eb];
    try (destruct sa); try (destruct sb); try reflexivity; cbn;
    rewrite (Z.compare_antisym ea eb); destruct (Z.compare ea eb); cbn;
    try reflexivity.
  all: change (Pos.compare_cont Eq mb ma) with (Pos.compare mb ma);
       change (Pos.compare_cont Eq ma mb) with (Pos.compare ma mb);
       rewrite (Pos.compare_antisym ma mb);
       destruct (Pos.compare ma mb); reflexivity.
Qed.

Lemma float_gt_compare (a n : spec_float) :
  float_gt a n = true <-> SFcompare a n = Some Gt.
Proof.
  unfold float_gt, SFltb. rewrite (SFcompare_antisym a n).
  destruct (SFcompare a n) as [[]|]; cbn; split; congruence.
Qed.

Lemma float_gt_tie (a n : spec_float) : SFeqb a n = true -> float_gt a n = false.
Proof.
  unfold float_gt, SFltb, SFeqb. rewrite (SFcompare_antisym a n).
  destruct (SFcompare a n) as [[]|]; cbn; congruence.
Qed.

Lemma shows_exclusive (w w' : world) : shows_anomaly w w' -> shows_normal w w' -> False.
Proof.
  intros (? & ? & ? & ? & _ & Ha) (? & ? & ? & ? & _ & Hn).
  rewrite Ha in Hn. apply app_inv_head in Hn. discriminate.
Qed.

End Decision.

(* The decision rule itself is stated in Part IV, together with what the
   display reads in each state. *)

(** The scripted scores of the specification: 0.30/0.70, 0.70/0.30 and
    0.50/0.50 as binary32 values. *)
Example scripted_scores :
  let f030 := S754_finite false 10066330 (-25) in
  let f070 := S754_finite false 11744051 (-24) in
  let f050 := S754_finite false 8388608 (-24) in
  let scores n a := extract_scores [("normal"%string, n); ("abnormal"%string, a)] in
  float_gt (snd (scores f030 f070)) (fst (scores f030 f070)) = true /\
  float_gt (snd (scores f070 f030)) (fst (scores f070 f030)) = false /\
  float_gt (snd (scores f050 f050)) (fst (scores f050 f050)) = false.
Proof. vm_compute. repeat split. Qed.

(** ** Classifier failure *)

(** C4 (as amended).  When the cycle is entered and the classifier reports
    failure, the failure is logged and the cycle ends there: the framebuffer
    is not redrawn, nothing is sent to the display, no summary is due, and
    of the Performance Metrics only [inference_us] is written (with the
    duration of the failed classifier call); the inference counter, the
    display and total durations and the throughput keep their values. *)
Theorem classifier_failure_abandons_cycle (w : world) :
  audio_ready w = true ->
  fst (run_classifier w (window_signal w)) <> EI_IMPULSE_OK ->
  let w' := exec inference_iteration w in
  esp_log w' = esp_log w ++ [LogInferenceFailed (fst (run_classifier w (window_signal w)))] /\
  oled_buffer w' = oled_buffer w /\
  i2c_wire w' = i2c_wire w /\
  last_report_time w' = last_report_time w /\
  perf_metrics w'
  = set_inference_us
      (to_int64 (esp_timer w (2 + timer_reads w) - esp_timer w (1 + timer_reads w)))
      (perf_metrics w) /\
  audio_ready w' = false.
Proof.
  intros Hready Hfail w'. subst w'. unfold exec.
  rewrite inference_iteration_ready by exact Hready.
  rewrite finish_cycle_failed by exact Hfail.
  cbn. repeat split; reflexivity.
Qed.

Lemma classifier_failure_abandons_cycle_witness :
  let w := set_audio_ready true
             (boot_world (fun n => 1000 * Z.of_nat n) (fun _ => 0) (fun _ => (-1, []))) in
  audio_ready w = true /\
  fst (run_classifier w (window_signal w)) <> EI_IMPULSE_OK /\
  inference_count (perf_metrics (exec inference_iteration w)) = 0 /\
  inference_us (perf_metrics (exec inference_iteration w)) = 1000 /\
  oled_buffer (exec inference_iteration w) = oled_buffer w.
Proof.
  intros w.
  assert (Hready : audio_ready w = true) by reflexivity.
  assert (Hfail : fst (run_classifier w (window_signal w)) <> EI_IMPULSE_OK)
    by (cbn; unfold EI_IMPULSE_OK; lia).
  destruct (classifier_failure_abandons_cycle w Hready Hfail)
    as (_ & Hfb & _ & _ & Hm & _).
  split; [exact Hready|]. split; [exact Hfail|].
  rewrite Hm. split; [reflexivity|]. split; [reflexivity|exact Hfb].
Defined.

(** C4, counterexample to the claim as stated: a failed classifier call
    that took 1000 us changes [inference_us]. *)
Lemma failed_cycle_updates_inference_us : ~ failed_cycle_updates_no_metric.
Proof.
  intros Hclaim.
  specialize (Hclaim (boot_world (fun n => 1000 * (Z.of_nat n + 1)) (fun _ => 0)
                                 (fun _ => (-1, [])))
                     0 (-1) [] ltac:(unfold EI_IMPULSE_OK; lia)).
  apply (f_equal inference_us) in Hclaim. vm_compute in Hclaim. discriminate Hclaim.
Qed.

(** ** Throughput *)

(** C8 (as amended).  In every completed cycle the total duration is the
    timer reading after the display update minus the cycle start, and the
    throughput is the binary32 quotient of 1000000 by that total; there is
    no guard: with a total of 0 the division is by zero and the throughput
    stored is +infinity. *)
Theorem throughput_unguarded (w : world) (inference_start : Z) (result : classification) :
  let w' := exec (finish_cycle inference_start EI_IMPULSE_OK result) w in
  let total := total_cycle_us (perf_metrics w') in
  total = to_int64 (esp_timer w (3 + timer_reads w) - cycle_start_time w) /\
  fps (perf_metrics w') = float_div (float_of_Z 1000000) (float_of_Z total) /\
  (total = 0 -> fps (perf_metrics w') = S754_infinity false).
Proof.
  intros w' total.
  destruct (finish_cycle_ok w inference_start result) as (Hm & _).
  fold w' in Hm. subst total. rewrite Hm. cbn.
  split; [reflexivity|]. split; [reflexivity|].
  intros ->. reflexivity.
Qed.

Lemma throughput_unguarded_witness :
  let w := boot_world (fun _ => 0) (fun _ => 0) (fun _ => (0, [])) in
  let w' := exec (finish_cycle 0 EI_IMPULSE_OK []) w in
  total_cycle_us (perf_metrics w') = 0 /\
  fps (perf_metrics w') = S754_infinity false.
Proof.
  intros w w'.
  destruct (throughput_unguarded w 0 []) as (Htot & _ & Hinf).
  assert (H0 : total_cycle_us (perf_metrics w') = 0) by (subst w'; rewrite Htot; reflexivity).
  split; [exact H0|exact (Hinf H0)].
Defined.

(** C8, counterexample to the claim as stated: when the two timer readings
    coincide, the total is 0 and the stored throughput is not finite. *)
Lemma throughput_division_by_zero : ~ throughput_guarded.
Proof.
  intros Hclaim.
  specialize (Hclaim (boot_world (fun _ => 0) (fun _ => 0) (fun _ => (0, []))) 0 []).
  cbv zeta in Hclaim.
  destruct (finish_cycle_ok (boot_world (fun _ => 0) (fun _ => 0) (fun _ => (0, []))) 0 [])
    as (Hm & _).
  rewrite Hm in Hclaim. specialize (Hclaim eq_refl). discriminate Hclaim.
Qed.

(** A cycle of 250 ms gives a throughput of 4.0. *)
Example throughput_250ms :
  float_div (float_of_Z 1000000) (float_of_Z 250000) = S754_finite false 8388608 (-21).
Proof. vm_compute. reflexivity. Qed.

(** ** The capture task *)

Section Capture.

#[local] Arguments to_int64 : simpl never.
#[local] Arguments to_int16 : simpl never.
#[local] Arguments Z.geb : simpl never.
#[local] Arguments Z.ltb : simpl never.
#[local] Arguments Z.eqb : simpl never.
#[local] Arguments Z.add : simpl never.

Implicit Types (w : world) (raw idx : Z) (samples : list Z).

Lemma capture_frame_refl w : capture_frame w w.
Proof. repeat split. Qed.

Lemma capture_frame_trans w1 w2 w3 :
  capture_frame w1 w2 -> capture_frame w2 w3 -> capture_frame w1 w3.
Proof.
  unfold capture_frame. intros H12 H23.
  destruct H12 as (?&?&?&?&?&?&?&?&?), H23 as (?&?&?&?&?&?&?&?&?).
  repeat split; congruence.
Qed.

Lemma store_sample_exec raw w :
  store_sample raw w
  = (tt, set_buffer_index (buffer_index w + 1)
           (set_handoff_trace
              (handoff_trace w ++ [EvWrite (buffer_index w) (to_int16 (Z.shiftr raw 14))])
              (set_inference_buffer
                 (<[Z.to_nat (buffer_index w) := to_int16 (Z.shiftr raw 14)]>
                    (inference_buffer w)) w))).
Proof. reflexivity. Qed.

Lemma publish_window_exec w :
  publish_window w
  = (tt, set_buffer_index 0
           (set_handoff_trace (handoff_trace w ++ [EvReady])
              (set_audio_ready true
                 (set_perf_metrics
                    (set_audio_capture_us
                       (to_int64 (esp_timer w (timer_reads w) - audio_capture_start_time w))
                       (perf_metrics w))
                    (set_timer_reads (S (timer_reads w)) w))))).
Proof. reflexivity. Qed.

(** One pass through the body of the [for] loop. *)
Lemma capture_sample_spec raw w :
  let w' := exec (capture_sample raw) w in
  handoff_trace w' = handoff_trace w ++ capture_events (buffer_index w) [raw] /\
  buffer_index w' = (if buffer_index w + 1 >=? EI_CLASSIFIER_RAW_SAMPLE_COUNT then 0 else buffer_index w + 1) /\
  audio_ready w' = (if buffer_index w + 1 >=? EI_CLASSIFIER_RAW_SAMPLE_COUNT then true else audio_ready w) /\
  inference_buffer w'
  = <[Z.to_nat (buffer_index w) := to_int16 (Z.shiftr raw 14)]> (inference_buffer w) /\
  capture_frame w w'.
Proof.
  unfold exec, capture_sample, mbind, M_bind. rewrite store_sample_exec.
  unfold get, skip, mret, M_ret. cbn.
  destruct (buffer_index w + 1 >=? EI_CLASSIFIER_RAW_SAMPLE_COUNT).
  - rewrite publish_window_exec. cbn. rewrite <- app_assoc.
    repeat split; try reflexivity. cbn. apply length_insert.
  - cbn. repeat split; try reflexivity. cbn. apply length_insert.
Qed.

Lemma capture_events_cons idx raw samples :
  capture_events idx (raw :: samples)
  = capture_events idx [raw]
    ++ capture_events (if idx + 1 >=? EI_CLASSIFIER_RAW_SAMPLE_COUNT then 0 else idx + 1) samples.
Proof. cbn. destruct (idx + 1 >=? EI_CLASSIFIER_RAW_SAMPLE_COUNT); reflexivity. Qed.

(** The [for] loop consumes every sample of the read: its second guard
    never fails. *)
Lemma capture_samples_spec samples :
  forall w, 0 <= buffer_index w < EI_CLASSIFIER_RAW_SAMPLE_COUNT ->
    let w' := exec (capture_samples samples) w in
    handoff_trace w' = handoff_trace w ++ capture_events (buffer_index w) samples /\
    buffer_index w' = (buffer_index w + Z.of_nat (length samples)) mod EI_CLASSIFIER_RAW_SAMPLE_COUNT /\
    capture_frame w w'.
Proof.
  induction samples as [|raw rest IH]; intros w Hidx.
  - cbn. rewrite app_nil_r, Z.add_0_r, Z.mod_small by exact Hidx.
    repeat split.
  - cbn [capture_samples]. unfold exec, mbind, M_bind, get.
    destruct (Z.ltb_spec (buffer_index w) EI_CLASSIFIER_RAW_SAMPLE_COUNT) as [_|]; [|lia].
    destruct (capture_sample_spec raw w) as (Htr & Hbi & _ & _ & Hfr).
    unfold exec in Htr, Hbi, Hfr.
    destruct (capture_sample raw w) as [[] w1]. cbn [snd] in *.
    assert (Hidx1 : 0 <= buffer_index w1 < EI_CLASSIFIER_RAW_SAMPLE_COUNT).
    { rewrite Hbi. unfold EI_CLASSIFIER_RAW_SAMPLE_COUNT in *. destruct (Z.geb_spec (buffer_index w + 1) 416); lia. }
    destruct (IH w1 Hidx1) as (Htr' & Hbi' & Hfr'). unfold exec in Htr', Hbi', Hfr'.
    split; [|split].
    + rewrite Htr', Htr, <- app_assoc, Hbi. now rewrite <- capture_events_cons.
    + rewrite Hbi', Hbi. cbn [length]. unfold EI_CLASSIFIER_RAW_SAMPLE_COUNT in *.
      destruct (Z.geb_spec (buffer_index w + 1) 416) as [Hfull|Hnot].
      * assert (buffer_index w = 415) as -> by lia.
        replace (415 + Z.of_nat (S (length rest)))
          with (Z.of_nat (length rest) + 1 * 416) by lia.
        now rewrite Z.mod_add by lia.
      * f_equal. lia.
    + exact (capture_frame_trans _ _ _ Hfr Hfr').
Qed.

Lemma mark_capture_start_spec w :
  let w' := exec mark_capture_start w in
  handoff_trace w' = handoff_trace w /\ buffer_index w' = buffer_index w /\
  audio_ready w' = audio_ready w /\ inference_buffer w' = inference_buffer w /\
  capture_frame w w'.
Proof.
  unfold exec, mark_capture_start, mbind, M_bind, get.
  destruct (buffer_index w =? 0); cbn; repeat split.
Qed.

Lemma audio_capture_iteration_spec (read : Z * list Z) w :
  0 <= buffer_index w < EI_CLASSIFIER_RAW_SAMPLE_COUNT ->
  let samples := if fst read =? ESP_OK then snd read else [] in
  let w' := exec (audio_capture_iteration read) w in
  handoff_trace w' = handoff_trace w ++ capture_events (buffer_index w) samples /\
  buffer_index w'
  = (buffer_index w + Z.of_nat (length samples)) mod EI_CLASSIFIER_RAW_SAMPLE_COUNT /\
  capture_frame w w'.
Proof.
  intros Hidx samples w'. subst samples w'.
  unfold audio_capture_iteration, exec, mbind, M_bind.
  destruct (mark_capture_start_spec w) as (Htr1 & Hbi1 & _ & _ & Hfr1).
  unfold exec in Htr1, Hbi1, Hfr1.
  destruct (mark_capture_start w) as [[] w1]. cbn [snd] in *.
  destruct (fst read =? ESP_OK).
  - destruct (capture_samples_spec (snd read) w1 ltac:(now rewrite Hbi1))
      as (Htr & Hbi & Hfr). unfold exec in Htr, Hbi, Hfr.
    rewrite Htr, Hbi, Htr1, Hbi1. split; [reflexivity|]. split; [reflexivity|].
    exact (capture_frame_trans _ _ _ Hfr1 Hfr).
  - cbn. rewrite app_nil_r, Z.add_0_r, Z.mod_small by exact Hidx.
    split; [assumption|]. split; assumption.
Qed.

Lemma capture_events_app idx samples1 samples2 :
  0 <= idx < EI_CLASSIFIER_RAW_SAMPLE_COUNT ->
  capture_events idx (samples1 ++ samples2)
  = capture_events idx samples1
    ++ capture_events ((idx + Z.of_nat (length samples1)) mod EI_CLASSIFIER_RAW_SAMPLE_COUNT)
                      samples2.
Proof.
  revert idx. unfold EI_CLASSIFIER_RAW_SAMPLE_COUNT.
  induction samples1 as [|raw rest IH]; intros idx Hidx.
  - cbn [app length capture_events]. rewrite Z.add_0_r.
    rewrite Z.mod_small by lia. reflexivity.
  - cbn [app length capture_events]. unfold EI_CLASSIFIER_RAW_SAMPLE_COUNT.
    destruct (Z.geb_spec (idx + 1) 416) as [Hfull|Hnot].
    + rewrite (IH 0) by lia. assert (idx = 415) as -> by lia.
      replace (415 + Z.of_nat (S (length rest)))
        with (0 + Z.of_nat (length rest) + 1 * 416) by lia.
      now rewrite Z.mod_add by lia.
    + rewrite (IH (idx + 1)) by lia.
      replace (idx + Z.of_nat (S (length rest)))
        with (idx + 1 + Z.of_nat (length rest)) by lia.
      reflexivity.
Qed.

Lemma audio_capture_task_spec (reads : list (Z * list Z)) :
  forall w, 0 <= buffer_index w < EI_CLASSIFIER_RAW_SAMPLE_COUNT ->
    let w' := exec (audio_capture_task reads) w in
    handoff_trace w'
    = handoff_trace w ++ capture_events (buffer_index w) (accepted_samples reads) /\
    buffer_index w'
    = (buffer_index w + Z.of_nat (length (accepted_samples reads)))
      mod EI_CLASSIFIER_RAW_SAMPLE_COUNT /\
    capture_frame w w'.
Proof.
  induction reads as [|read rest IH]; intros w Hidx.
  - cbn. rewrite app_nil_r, Z.add_0_r, Z.mod_small by exact Hidx. repeat split.
  - cbn [audio_capture_task]. unfold exec, mbind, M_bind.
    destruct (audio_capture_iteration_spec read w Hidx) as (Htr & Hbi & Hfr).
    unfold exec in Htr, Hbi, Hfr.
    destruct (audio_capture_iteration read w) as [[] w1]. cbn [snd] in *.
    assert (Hidx1 : 0 <= buffer_index w1 < EI_CLASSIFIER_RAW_SAMPLE_COUNT).
    { rewrite Hbi. apply Z.mod_pos_bound. reflexivity. }
    destruct (IH w1 Hidx1) as (Htr' & Hbi' & Hfr'). unfold exec in Htr', Hbi', Hfr'.
    change (accepted_samples (read :: rest))
      with ((if fst read =? ESP_OK then snd read else []) ++ accepted_samples rest).
    split; [|split].
    + rewrite Htr', Htr, Hbi, <- app_assoc. now rewrite <- capture_events_app.
    + rewrite Hbi', Hbi, length_app, Nat2Z.inj_add, Zplus_mod_idemp_l. f_equal. lia.
    + exact (capture_frame_trans _ _ _ Hfr Hfr').
Qed.

Lemma count_app (p : handoff_event -> bool) (t1 t2 : list handoff_event) :
  count p (t1 ++ t2) = count p t1 + count p t2.
Proof. unfold count. rewrite filter_app, length_app. lia. Qed.

Lemma count_cons (p : handoff_event -> bool) (e : handoff_event) (t : list handoff_event) :
  count p (e :: t) = (if p e then 1 else 0) + count p t.
Proof.
  unfold count. rewrite filter_cons. destruct (p e) eqn:E.
  - rewrite decide_True by reflexivity. cbn [length]. lia.
  - rewrite decide_False by discriminate. lia.
Qed.

(** Marks and writes among the events of a sample stream. *)
Lemma capture_events_count samples :
  forall idx, 0 <= idx < EI_CLASSIFIER_RAW_SAMPLE_COUNT ->
    count is_ready (capture_events idx samples)
    = (idx + Z.of_nat (length samples)) / EI_CLASSIFIER_RAW_SAMPLE_COUNT /\
    count is_write (capture_events idx samples) = Z.of_nat (length samples) /\
    count is_claim (capture_events idx samples) = 0 /\
    count is_read (capture_events idx samples) = 0.
Proof.
  unfold EI_CLASSIFIER_RAW_SAMPLE_COUNT.
  induction samples as [|raw rest IH]; intros idx Hidx.
  - cbn [capture_events length]. rewrite Z.add_0_r, Z.div_small by lia. repeat split.
  - cbn [capture_events length]. unfold EI_CLASSIFIER_RAW_SAMPLE_COUNT.
    rewrite !count_cons. cbn [is_ready is_write is_claim is_read].
    destruct (Z.geb_spec (idx + 1) 416) as [Hfull|Hnot].
    + rewrite !count_cons. cbn [is_ready is_write is_claim is_read].
      destruct (IH 0 ltac:(lia)) as (Hr & Hw & Hc & Hd). rewrite Hr, Hw, Hc, Hd.
      assert (idx = 415) as -> by lia.
      replace (415 + Z.of_nat (S (length rest)))
        with (0 + Z.of_nat (length rest) + 1 * 416) by lia.
      rewrite Z.div_add by lia. repeat split; lia.
    + destruct (IH (idx + 1) ltac:(lia)) as (Hr & Hw & Hc & Hd). rewrite Hr, Hw, Hc, Hd.
      replace (idx + Z.of_nat (S (length rest)))
        with (idx + 1 + Z.of_nat (length rest)) by lia.
      repeat split; lia.
Qed.

End Capture.

(* The readiness flag over a stream of samples is treated in Part IV. *)

(** ** Sample conversion *)

Section Conversion.

Lemma to_int16_range (z : Z) : - 2 ^ 15 <= to_int16 z < 2 ^ 15.
Proof.
  unfold to_int16. pose proof (Z.mod_pos_bound (z + 2 ^ 15) (2 ^ 16) ltac:(lia)). lia.
Qed.


Lemma to_int16_small (z : Z) : - 2 ^ 15 <= z < 2 ^ 15 -> to_int16 z = z.
Proof. intros Hz. unfold to_int16. rewrite Z.mod_small; lia. Qed.

End Conversion.



(** A raw sample whose shifted value does not fit 16 bits is truncated:
    [0x40000000 >> 14 = 65536], stored as 0. *)
Example wide_sample_truncated :
  to_int16 (Z.shiftr 0x40000000 14) = 0 /\
  to_int16 (Z.shiftr 0x20000000 14) = - 32768.
Proof. split; reflexivity. Qed.

(** ** Periodic summary *)

Section Telemetry.

#[local] Arguments to_int64 : simpl never.
#[local] Arguments Z.geb : simpl never.

Implicit Types (w : world) (opened : Z).

Lemma to_int64_small (z : Z) : - 2 ^ 63 <= z < 2 ^ 63 -> to_int64 z = z.
Proof. intros Hz. unfold to_int64. rewrite Z.mod_small; lia. Qed.

Lemma summary_times_app (l1 l2 : list log_entry) :
  summary_times (l1 ++ l2) = summary_times l1 ++ summary_times l2.
Proof.
  induction l1 as [|e l1 IH]; [reflexivity|].
  destruct e; cbn; now rewrite IH.
Qed.

Lemma spaced_snoc (ts : list Z) :
  forall prev t, spaced prev ts -> 10000000 <= t - default prev (last ts) ->
                 spaced prev (ts ++ [t]).
Proof.
  induction ts as [|t1 ts IH]; intros prev t Hsp Hgap.
  - cbn in *. split; [exact Hgap|exact I].
  - destruct Hsp as [H1 Hsp]. cbn [app spaced]. split; [exact H1|].
    apply IH; [exact Hsp|].
    destruct ts as [|t2 ts]; [exact Hgap|].
    rewrite last_cons_cons in Hgap.
    destruct (last (t2 :: ts)) eqn:E; [exact Hgap|].
    apply last_None in E. discriminate E.
Qed.

(** [report_summary] in closed form. *)
Lemma report_summary_exec w :
  let current_time := esp_timer w (timer_reads w) in
  report_summary w
  = (tt, if to_int64 (current_time - last_report_time w) >=? 10000000
         then set_last_report_time current_time
                (set_esp_log (esp_log w ++ [LogSummary current_time (perf_metrics w)])
                   (set_timer_reads (S (timer_reads w)) w))
         else set_timer_reads (S (timer_reads w)) w).
Proof.
  unfold report_summary, esp_timer_get_time, ESP_LOG, modify, get, skip,
    mbind, M_bind, mret, M_ret. cbn.
  destruct (_ >=? _); reflexivity.
Qed.

Lemma report_inv_frame opened w w' :
  esp_log w' = esp_log w -> last_report_time w' = last_report_time w ->
  report_inv opened w -> report_inv opened w'.
Proof. unfold report_inv. intros -> ->. tauto. Qed.

Lemma report_inv_log opened w w' (e : log_entry) :
  summary_times [e] = [] ->
  esp_log w' = esp_log w ++ [e] -> last_report_time w' = last_report_time w ->
  report_inv opened w -> report_inv opened w'.
Proof.
  unfold report_inv. intros He -> ->. rewrite summary_times_app, He, app_nil_r. tauto.
Qed.

Lemma report_inv_cycle opened w w' (d : bool) (m m' : performance_metrics_t) (t : Z) :
  is_time t ->
  esp_log w'
  = esp_log w ++ LogInference d m
                 :: (if to_int64 (t - last_report_time w) >=? 10000000
                     then [LogSummary t m'] else []) ->
  last_report_time w'
  = (if to_int64 (t - last_report_time w) >=? 10000000
     then t else last_report_time w) ->
  report_inv opened w -> report_inv opened w'.
Proof.
  unfold report_inv, is_time. intros Ht Hlog Hlast (Hsp & Hl & Hrange).
  rewrite Hlog, Hlast.
  rewrite summary_times_app. cbn [summary_times].
  destruct (Z.geb_spec (to_int64 (t - last_report_time w)) 10000000) as [Hfire|_].
  - cbn [summary_times]. rewrite last_snoc. cbn [default].
    split; [|split; [reflexivity|exact Ht]].
    apply spaced_snoc; [exact Hsp|]. rewrite <- Hl.
    rewrite to_int64_small in Hfire by lia. lia.
  - cbn [summary_times]. rewrite app_nil_r. tauto.
Qed.

Lemma finish_cycle_report_inv opened w (inference_start res : Z) (result : classification) :
  (forall n, is_time (esp_timer w n)) ->
  report_inv opened w ->
  let w' := exec (finish_cycle inference_start res result) w in
  report_inv opened w' /\ esp_timer w' = esp_timer w /\ buffer_index w' = buffer_index w.
Proof.
  intros Htimer Hinv w'. subst w'.
  destruct (Z.eq_dec res EI_IMPULSE_OK) as [->|Hfail].
  - destruct (finish_cycle_ok w inference_start result)
      as (Hm & _ & Hlog & Hlast & Htm & _ & _ & Hbi & _).
    split; [|split; [exact Htm|exact Hbi]].
    exact (report_inv_cycle opened w _ _ _ _ _ (Htimer _) Hlog Hlast Hinv).
  - unfold exec. rewrite finish_cycle_failed by exact Hfail.
    split; [|split; reflexivity].
    apply (report_inv_log opened w _ (LogInferenceFailed res));
      [reflexivity|reflexivity|reflexivity|exact Hinv].
Qed.

Lemma inference_iteration_report_inv opened w :
  (forall n, is_time (esp_timer w n)) ->
  report_inv opened w ->
  let w' := exec inference_iteration w in
  report_inv opened w' /\ esp_timer w' = esp_timer w /\ buffer_index w' = buffer_index w.
Proof.
  intros Htimer Hinv w'. subst w'. unfold exec.
  destruct (audio_ready w) eqn:Hready.
  - rewrite inference_iteration_ready by exact Hready.
    apply (finish_cycle_report_inv opened (classified w)).
    + exact Htimer.
    + exact Hinv.
  - rewrite inference_iteration_idle by exact Hready. cbn. tauto.
Qed.

Lemma run_report_inv (schedule : list activation) opened :
  forall w,
    (forall n, is_time (esp_timer w n)) ->
    0 <= buffer_index w < EI_CLASSIFIER_RAW_SAMPLE_COUNT ->
    report_inv opened w ->
    report_inv opened (exec (run schedule) w).
Proof.
  induction schedule as [|a rest IH]; intros w Htimer Hidx Hinv; [exact Hinv|].
  cbn [run]. unfold exec, mbind, M_bind.
  assert (Hstep : report_inv opened (exec (activate a) w) /\
                  esp_timer (exec (activate a) w) = esp_timer w /\
                  0 <= buffer_index (exec (activate a) w) < EI_CLASSIFIER_RAW_SAMPLE_COUNT).
  { destruct a as [read|]; cbn [activate].
    - destruct (audio_capture_iteration_spec read w Hidx) as (_ & Hbi & Hfr).
      destruct Hfr as (_ & _ & Hlast & Htm & _ & _ & _ & Hlog & _).
      split; [exact (report_inv_frame opened w _ Hlog Hlast Hinv)|].
      split; [exact Htm|]. rewrite Hbi. apply Z.mod_pos_bound. reflexivity.
    - destruct (inference_iteration_report_inv opened w Htimer Hinv) as (Hi & Htm & Hbi).
      split; [exact Hi|]. split; [exact Htm|]. now rewrite Hbi. }
  unfold exec in Hstep. destruct (activate a w) as [[] w1]. cbn [snd] in *.
  destruct Hstep as (Hinv1 & Htm1 & Hidx1).
  apply IH; [|exact Hidx1|exact Hinv1]. intros n. rewrite Htm1. apply Htimer.
Qed.

End Telemetry.

(** C10.  In every run of the firmware (the inference task started, then
    the two tasks activated in any order, over any reads and classifier
    results), with timer readings in the range of the microsecond clock,
    each summary is logged at least 10 000 000 us after the previous one,
    the first at least that long after the task start.  Emitting a summary
    leaves the Performance Metrics, the inference counter included,
    untouched: it logs them and moves [last_report_time] to the current
    time. *)
Theorem summary_spacing (schedule : list activation) (w : world) :
  esp_log w = [] ->
  buffer_index w = 0 ->
  (forall n : nat, is_time (esp_timer w n)) ->
  spaced (esp_timer w (timer_reads w))
         (summary_times (esp_log (exec (firmware schedule) w))) /\
  forall w1 : world,
    perf_metrics (exec report_summary w1) = perf_metrics w1 /\
    (last_report_time (exec report_summary w1) = last_report_time w1 \/
     last_report_time (exec report_summary w1) = esp_timer w1 (timer_reads w1)).
Proof.
  intros Hlog Hidx Htimer. split.
  - unfold firmware, exec, mbind, M_bind, inference_task_start, esp_timer_get_time,
      modify. cbn.
    apply (run_report_inv schedule (esp_timer w (timer_reads w))).
    + exact Htimer.
    + cbn. rewrite Hidx. unfold EI_CLASSIFIER_RAW_SAMPLE_COUNT. lia.
    + unfold report_inv. cbn. rewrite Hlog. cbn.
      split; [exact I|]. split; [reflexivity|apply Htimer].
  - intros w1. unfold exec. rewrite report_summary_exec. cbn.
    destruct (_ >=? _); cbn; auto.
Qed.

Lemma summary_spacing_witness :
  let w := set_audio_ready true
             (boot_world (fun n => Z.min (3000000 * Z.of_nat n) (2 ^ 62)) (fun _ => 0)
                         (fun _ => (0, []))) in
  let schedule := [RunInference] in
  esp_log w = [] /\ buffer_index w = 0 /\ (forall n : nat, is_time (esp_timer w n)) /\
  spaced 0 (summary_times (esp_log (exec (firmware schedule) w))) /\
  summary_times (esp_log (exec (firmware schedule) w)) = [21000000].
Proof.
  intros w schedule.
  assert (Hlog : esp_log w = []) by reflexivity.
  assert (Hidx : buffer_index w = 0) by reflexivity.
  assert (Htimer : forall n : nat, is_time (esp_timer w n)).
  { intros n. cbn. unfold is_time. lia. }
  split; [exact Hlog|]. split; [exact Hidx|]. split; [exact Htimer|].
  split; [exact (proj1 (summary_spacing schedule w Hlog Hidx Htimer))|].
  vm_compute. reflexivity.
Defined.

(** ** Handoff between the two tasks *)

Section Handoff.

#[local] Arguments to_int64 : simpl never.
#[local] Arguments to_int16 : simpl never.
#[local] Arguments Z.geb : simpl never.
#[local] Arguments Z.add : simpl never.
#[local] Arguments seqZ : simpl never.

Implicit Types (w : world) (s : system) (t : list handoff_event).

Lemma count_snoc (p : handoff_event -> bool) t (e : handoff_event) :
  count p (t ++ [e]) = count p t + (if p e then 1 else 0).
Proof.
  rewrite count_app, count_cons. change (count p []) with 0. lia.
Qed.


Lemma count_reads (slots : list Z) :
  count is_read (map EvRead slots) = Z.of_nat (length slots) /\
  count is_write (map EvRead slots) = 0 /\
  count is_ready (map EvRead slots) = 0 /\
  count is_claim (map EvRead slots) = 0.
Proof.
  induction slots as [|k slots (Hr & Hw & Hm & Hc)]; [repeat split|].
  cbn [map length]. rewrite !count_cons, Hr, Hw, Hm, Hc. cbn. repeat split; lia.
Qed.

(** Effect of each atomic action on the shared window state. *)
Lemma store_sample_effect raw w :
  let w' := exec (store_sample raw) w in
  handoff_trace w'
  = handoff_trace w ++ [EvWrite (buffer_index w) (to_int16 (Z.shiftr raw 14))] /\
  buffer_index w' = buffer_index w + 1 /\ audio_ready w' = audio_ready w.
Proof. repeat split. Qed.

Lemma publish_window_effect w :
  let w' := exec publish_window w in
  handoff_trace w' = handoff_trace w ++ [EvReady] /\
  buffer_index w' = 0 /\ audio_ready w' = true.
Proof. repeat split. Qed.

Lemma poll_ready_effect w :
  let w' := exec (t ← esp_timer_get_time; modify (set_cycle_start_time t)) w in
  handoff_trace w' = handoff_trace w /\
  buffer_index w' = buffer_index w /\ audio_ready w' = audio_ready w.
Proof. repeat split. Qed.

Lemma claim_effect w :
  let w' := exec (_ ← claim_window; esp_timer_get_time) w in
  handoff_trace w' = handoff_trace w ++ [EvClaim] /\
  buffer_index w' = buffer_index w /\ audio_ready w' = false.
Proof. repeat split. Qed.

Lemma get_data_effect (offset length : Z) w :
  let w' := exec (signal_get_data offset length) w in
  handoff_trace w' = handoff_trace w ++ map EvRead (seqZ offset length) /\
  buffer_index w' = buffer_index w /\ audio_ready w' = audio_ready w.
Proof. repeat split. Qed.

Lemma finish_cycle_effect (inference_start res : Z) (result : classification) w :
  let w' := exec (finish_cycle inference_start res result) w in
  handoff_trace w' = handoff_trace w /\
  buffer_index w' = buffer_index w /\ audio_ready w' = audio_ready w.
Proof.
  destruct (Z.eq_dec res EI_IMPULSE_OK) as [->|Hfail].
  - destruct (finish_cycle_ok w inference_start result)
      as (_ & _ & _ & _ & _ & _ & Htr & Hbi & Hrd & _).
    auto.
  - unfold exec. rewrite finish_cycle_failed by exact Hfail. repeat split.
Qed.






End Handoff.

(** ** Structure of the handoff trace *)

Section HandoffStructure.

Implicit Types (w : world) (s : system).








End HandoffStructure.




(** The window the classifier then receives is torn: slot 0 already holds
    the first sample of the next window. *)
Example torn_window :
  let w := boot_world (fun n => Z.of_nat n) (fun _ => 0) (fun _ => (0, [])) in
  let read := (ESP_OK, replicate 416 16384 ++ [32768]) in
  let w' := exec (audio_capture_iteration read) w in
  audio_ready w' = true /\ take 3 (inference_buffer w') = [2; 1; 1].
Proof. vm_compute. split; reflexivity. Qed.

(* ================================================================== *)
(** * Part III: further properties of the code                         *)
(* ================================================================== *)

(** ** Framebuffer primitives *)

Section Primitives.

Implicit Types (fb : list Z) (x y px py : Z) (on : bool).

Lemma clear_buffer_ok fb : framebuffer_ok (oled_clear_buffer fb).
Proof. split; [apply length_replicate|]. apply Forall_replicate. lia. Qed.

Lemma fill_buffer_ok fb : framebuffer_ok (oled_fill_buffer fb).
Proof. split; [apply length_replicate|]. apply Forall_replicate. lia. Qed.

Lemma byte_eq_bits (a b : Z) :
  0 <= a < 256 -> 0 <= b < 256 ->
  (forall n, Z.testbit a n = Z.testbit b n) -> a = b.
Proof. intros _ _ Hbits. now apply Z.bits_inj. Qed.

Lemma pixel_update_overwrite y on1 on2 (b : Z) :
  0 <= b < 256 ->
  pixel_update y on2 (pixel_update y on1 b) = pixel_update y on2 b.
Proof.
  intros Hb. apply byte_eq_bits; try apply pixel_update_range.
  intros n. rewrite !pixel_update_testbit by (try apply pixel_update_range; exact Hb).
  destruct (n =? y mod 8); reflexivity.
Qed.

Lemma pixel_update_commute y1 y2 on1 on2 (b : Z) :
  0 <= b < 256 -> y1 mod 8 <> y2 mod 8 ->
  pixel_update y1 on1 (pixel_update y2 on2 b)
  = pixel_update y2 on2 (pixel_update y1 on1 b).
Proof.
  intros Hb Hne. apply byte_eq_bits; try apply pixel_update_range.
  intros n. rewrite !pixel_update_testbit by (try apply pixel_update_range; exact Hb).
  destruct (Z.eqb_spec n (y1 mod 8)), (Z.eqb_spec n (y2 mod 8)); try reflexivity.
  congruence.
Qed.

Lemma in_display_dec x y : {in_display x y} + {~ in_display x y}.
Proof.
  unfold in_display.
  destruct (decide (0 <= x < OLED_WIDTH /\ 0 <= y < OLED_HEIGHT)); [left|right]; assumption.
Qed.

Lemma get_pixel_clear fb px py :
  in_display px py -> get_pixel (oled_clear_buffer fb) px py = false.
Proof.
  intros Hin. pose proof (byte_index_lt px py Hin) as Hk.
  unfold get_pixel, oled_clear_buffer. rewrite lookup_replicate_2 by exact Hk.
  apply Z.bits_0.
Qed.

Lemma framebuffer_byte fb (k : nat) (b : Z) :
  framebuffer_ok fb -> fb !! k = Some b -> 0 <= b < 256.
Proof. intros [_ Hall] Hk. rewrite Forall_lookup in Hall. exact (Hall _ _ Hk). Qed.

End Primitives.

(** X1.  After [oled_clear_buffer] (resp. [oled_fill_buffer]) the
    framebuffer is a well-formed 1024-byte array in which every pixel of the
    display reads off (resp. on), whatever the buffer held before. *)
Theorem clear_fill_pixels (fb : list Z) :
  framebuffer_ok (oled_clear_buffer fb) /\
  framebuffer_ok (oled_fill_buffer fb) /\
  forall px py : Z, in_display px py ->
    get_pixel (oled_clear_buffer fb) px py = false /\
    get_pixel (oled_fill_buffer fb) px py = true.
Proof.
  split; [apply clear_buffer_ok|]. split; [apply fill_buffer_ok|].
  intros px py Hin. pose proof (byte_index_lt px py Hin) as Hk.
  split; [now apply get_pixel_clear|].
  unfold get_pixel, oled_fill_buffer. rewrite lookup_replicate_2 by exact Hk.
  pose proof (Z.mod_pos_bound py 8 ltac:(lia)) as Hm.
  change 255 with (Z.ones 8). apply Z.ones_spec_low. lia.
Qed.

Lemma clear_fill_pixels_witness :
  in_display 127 63 /\
  get_pixel (oled_clear_buffer [1; 2; 3]) 127 63 = false /\
  get_pixel (oled_fill_buffer [1; 2; 3]) 127 63 = true.
Proof.
  assert (Hin : in_display 127 63) by (unfold in_display, OLED_WIDTH, OLED_HEIGHT; lia).
  split; [exact Hin|].
  exact (proj2 (proj2 (clear_fill_pixels [1; 2; 3])) 127 63 Hin).
Defined.

(** X2.  The last write to a pixel wins: setting a pixel and then setting
    the same pixel again (to the same or the other value) leaves exactly the
    framebuffer of the second call alone.  In particular [oled_set_pixel] is
    idempotent, and drawing then erasing a pixel equals erasing it. *)
Theorem set_pixel_overwrite (fb : list Z) (x y : Z) (on1 on2 : bool) :
  framebuffer_ok fb ->
  oled_set_pixel (oled_set_pixel fb x y on1) x y on2 = oled_set_pixel fb x y on2.
Proof.
  intros Hfb. destruct (in_display_dec x y) as [Hin|Hout].
  - rewrite !oled_set_pixel_in by exact Hin. rewrite list_alter_alter_eq.
    apply list_alter_ext; [|reflexivity]. intros b Hb. cbn.
    apply pixel_update_overwrite. exact (framebuffer_byte fb _ b Hfb Hb).
  - now rewrite !oled_set_pixel_out by exact Hout.
Qed.

Lemma set_pixel_overwrite_witness :
  framebuffer_ok (oled_fill_buffer []) /\
  oled_set_pixel (oled_set_pixel (oled_fill_buffer []) 5 9 true) 5 9 false
  = oled_set_pixel (oled_fill_buffer []) 5 9 false.
Proof.
  split; [apply fill_buffer_ok|].
  exact (set_pixel_overwrite (oled_fill_buffer []) 5 9 true false (fill_buffer_ok [])).
Defined.

(** X3.  Writes to two different pixels commute: the framebuffer does not
    depend on the order of the two calls, also when both pixels live in the
    same byte or when either lies off the display. *)
Theorem set_pixel_commute (fb : list Z) (x1 y1 x2 y2 : Z) (on1 on2 : bool) :
  framebuffer_ok fb -> (x1, y1) <> (x2, y2) ->
  oled_set_pixel (oled_set_pixel fb x1 y1 on1) x2 y2 on2
  = oled_set_pixel (oled_set_pixel fb x2 y2 on2) x1 y1 on1.
Proof.
  intros Hfb Hne.
  destruct (in_display_dec x1 y1) as [Hin1|Hout1];
    [|now rewrite !(oled_set_pixel_out _ x1 y1) by exact Hout1].
  destruct (in_display_dec x2 y2) as [Hin2|Hout2];
    [|now rewrite !(oled_set_pixel_out _ x2 y2) by exact Hout2].
  rewrite !oled_set_pixel_in by assumption.
  destruct (decide (Z.to_nat (x2 + y2 / 8 * OLED_WIDTH)
                    = Z.to_nat (x1 + y1 / 8 * OLED_WIDTH))) as [Heq|Hidx].
  - rewrite Heq, !list_alter_alter_eq.
    apply list_alter_ext; [|reflexivity]. intros b Hb. cbn.
    apply pixel_update_commute; [exact (framebuffer_byte fb _ b Hfb Hb)|].
    destruct Hin1 as [Hx1 Hy1], Hin2 as [Hx2 Hy2]. unfold OLED_WIDTH, OLED_HEIGHT in *.
    assert (0 <= y1 / 8 < 8) by (split; [apply Z.div_pos|apply Z.div_lt_upper_bound]; lia).
    assert (0 <= y2 / 8 < 8) by (split; [apply Z.div_pos|apply Z.div_lt_upper_bound]; lia).
    pose proof (Z.div_mod y1 8 ltac:(lia)). pose proof (Z.div_mod y2 8 ltac:(lia)).
    intros Hmod. apply Hne. f_equal; lia.
  - now apply list_alter_alter_ne.
Qed.

Lemma set_pixel_commute_witness :
  framebuffer_ok (oled_clear_buffer []) /\ (3, 9) <> (3, 12) /\
  oled_set_pixel (oled_set_pixel (oled_clear_buffer []) 3 9 true) 3 12 true
  = oled_set_pixel (oled_set_pixel (oled_clear_buffer []) 3 12 true) 3 9 true.
Proof.
  assert (Hne : (3, 9) <> (3, 12)) by discriminate.
  split; [apply clear_buffer_ok|]. split; [exact Hne|].
  exact (set_pixel_commute (oled_clear_buffer []) 3 9 3 12 true true
           (clear_buffer_ok []) Hne).
Defined.

(** ** Glyphs and strings *)

Section Glyphs.

Implicit Types (fb : list Z) (x y px py : Z) (on : bool) (c : ascii) (str : string).

(** Where the index computation of [oled_draw_char] leads. *)
Lemma glyph_index_of c :
  match glyph_of c with
  | Some g => 0 <= glyph_index c /\
              forall i, font_column (glyph_index c) i = g !!! Z.to_nat i
  | None => glyph_index c = -1
  end.
Proof.
  pose proof (glyph_index_agrees c) as Hchk. unfold glyph_index_check in Hchk.
  unfold glyph_of. destruct (label_position (to_upper c) font_labels) as [k|]; cbn.
  - apply andb_true_iff in Hchk as [Hchk Hlt].
    apply andb_true_iff in Hchk as [Hpos Hidx].
    apply Z.leb_le in Hpos. apply Nat.eqb_eq in Hidx. apply Nat.ltb_lt in Hlt.
    destruct (font5x7_rows k Hlt) as (g & Hg & Hgt). rewrite Hg.
    split; [exact Hpos|]. intros i. unfold font_column. now rewrite Hidx, Hgt.
  - now apply Z.eqb_eq.
Qed.

Lemma oled_draw_char_skip fb x y c on :
  glyph_of c = None -> oled_draw_char fb x y c on = fb.
Proof.
  intros Hnone. pose proof (glyph_index_of c) as Hidx. rewrite Hnone in Hidx.
  unfold oled_draw_char. now rewrite Hidx.
Qed.

Lemma oled_draw_char_pixel fb x y c on (g : list Z) :
  glyph_of c = Some g -> framebuffer_ok fb ->
  framebuffer_ok (oled_draw_char fb x y c on) /\
  forall px py, in_display px py ->
    get_pixel (oled_draw_char fb x y c on) px py
    = if existsb (glyph_hit g x y px py) (seqZ 0 5) then on else get_pixel fb px py.
Proof.
  intros Hg Hfb. pose proof (glyph_index_of c) as Hidx. rewrite Hg in Hidx.
  destruct Hidx as [Hpos Hcol]. unfold oled_draw_char.
  destruct (Z.ltb_spec (glyph_index c) 0) as [|_]; [lia|].
  assert (Hloop : forall px py, in_display px py ->
    framebuffer_ok
      (foldl (fun fb i => draw_column fb x y i (font_column (glyph_index c) i) on)
             fb (seqZ 0 5)) /\
    get_pixel
      (foldl (fun fb i => draw_column fb x y i (font_column (glyph_index c) i) on)
             fb (seqZ 0 5)) px py
    = if existsb (glyph_hit g x y px py) (seqZ 0 5) then on else get_pixel fb px py).
  { intros px py Hp. apply foldl_paint; [| |exact Hfb].
    - intros fb0 i Hfb0. now apply (draw_column_pixel fb0 x y i _ on px py).
    - intros fb0 i Hfb0. rewrite Hcol.
      now apply (draw_column_pixel fb0 x y i _ on px py). }
  split.
  - apply (Hloop 0 0). unfold in_display, OLED_WIDTH, OLED_HEIGHT. lia.
  - intros px py Hp. now apply Hloop.
Qed.

Lemma oled_draw_char_ok fb x y c on :
  framebuffer_ok fb -> framebuffer_ok (oled_draw_char fb x y c on).
Proof.
  intros Hfb. destruct (glyph_of c) as [g|] eqn:Hg.
  - now apply (oled_draw_char_pixel fb x y c on g).
  - now rewrite oled_draw_char_skip.
Qed.

Lemma to_upper_index c : glyph_index (to_upper c) = glyph_index c.
Proof. destruct c as [[] [] [] [] [] [] [] []]; vm_compute; reflexivity. Qed.

(** A loop of [oled_set_pixel] calls that all fall off the display. *)
Lemma draw_column_off fb x y i col on :
  (forall j, 0 <= j < 7 -> ~ in_display (x + i) (y + j)) ->
  draw_column fb x y i col on = fb.
Proof.
  intros Hoff. unfold draw_column.
  assert (Hgen : forall js : list Z, Forall (fun j => 0 <= j < 7) js ->
    foldl (fun fb j => if negb (Z.land col (Z.shiftl 1 j) =? 0)
                       then oled_set_pixel fb (x + i) (y + j) on else fb) fb js = fb).
  { induction js as [|j js IH]; intros Hjs; [reflexivity|].
    apply Forall_cons in Hjs as [Hj Hjs]. cbn [foldl].
    rewrite oled_set_pixel_out by (apply Hoff; exact Hj).
    destruct (negb _); now apply IH. }
  apply Hgen. apply Forall_forall. intros j Hj. apply elem_of_seqZ in Hj. lia.
Qed.

Lemma string_get_cons (k : nat) c str :
  String.get (S k) (String c str) = String.get k str.
Proof. reflexivity. Qed.

Lemma string_hit_painted str :
  forall x y px py,
    string_hit str x y px py = true <-> string_painted str x y px py.
Proof.
  induction str as [|c rest IH]; intros x y px py.
  - split; [discriminate|]. intros (k & c & g & Hget & _). destruct k; discriminate.
  - cbn [string_hit]. rewrite orb_true_iff, IH. unfold string_painted. split.
    + intros [Hhead|(k & c' & g & Hget & Hg & Hp)].
      * destruct (glyph_of c) as [g|] eqn:Hg; [|discriminate].
        exists 0%nat, c, g. split; [reflexivity|]. split; [exact Hg|].
        rewrite Z.mul_0_r, Z.add_0_r. now apply glyph_hit_painted.
      * exists (S k), c', g. split; [exact Hget|]. split; [exact Hg|].
        replace (x + 6 * Z.of_nat (S k)) with (x + 6 + 6 * Z.of_nat k) by lia.
        exact Hp.
    + intros (k & c' & g & Hget & Hg & Hp). destruct k as [|k].
      * left. cbn in Hget. injection Hget as ->. rewrite Hg.
        rewrite Z.mul_0_r, Z.add_0_r in Hp. now apply glyph_hit_painted.
      * right. exists k, c', g. split; [exact Hget|]. split; [exact Hg|].
        replace (x + 6 + 6 * Z.of_nat k) with (x + 6 * Z.of_nat (S k)) by lia.
        exact Hp.
Qed.

Lemma oled_draw_string_pixel str :
  forall fb x y on, framebuffer_ok fb ->
    framebuffer_ok (oled_draw_string fb x y str on) /\
    forall px py, in_display px py ->
      get_pixel (oled_draw_string fb x y str on) px py
      = if string_hit str x y px py then on else get_pixel fb px py.
Proof.
  induction str as [|c rest IH]; intros fb x y on Hfb; [now split|].
  cbn [oled_draw_string string_hit].
  pose proof (oled_draw_char_ok fb x y c on Hfb) as Hok1.
  destruct (IH (oled_draw_char fb x y c on) (x + 6) y on Hok1) as [Hok Hpx].
  split; [exact Hok|]. intros px py Hp. rewrite Hpx by exact Hp.
  destruct (glyph_of c) as [g|] eqn:Hg.
  - destruct (oled_draw_char_pixel fb x y c on g Hg Hfb) as [_ Hc].
    rewrite Hc by exact Hp.
    destruct (existsb _ _), (string_hit rest (x + 6) y px py); reflexivity.
  - rewrite oled_draw_char_skip by exact Hg. reflexivity.
Qed.

Lemma string_painted_box str x y px py :
  string_painted str x y px py ->
  x <= px < x + 6 * Z.of_nat (String.length str) /\ y <= py < y + 7.
Proof.
  intros (k & c & g & Hget & _ & (i & j & Hi & Hj & -> & -> & _)).
  assert (Hk : (k < String.length str)%nat).
  { clear -Hget. revert k Hget. induction str as [|d rest IH]; intros k Hget.
    - destruct k; discriminate.
    - destruct k as [|k]; cbn; [lia|]. apply IH in Hget. lia. }
  lia.
Qed.

Lemma oled_draw_string_outside str fb x y on px py :
  framebuffer_ok fb -> in_display px py ->
  ~ (x <= px < x + 6 * Z.of_nat (String.length str) /\ y <= py < y + 7) ->
  get_pixel (oled_draw_string fb x y str on) px py = get_pixel fb px py.
Proof.
  intros Hfb Hp Hbox. destruct (oled_draw_string_pixel str fb x y on Hfb) as [_ Hpx].
  rewrite Hpx by exact Hp.
  destruct (string_hit str x y px py) eqn:Hhit; [|reflexivity].
  exfalso. apply Hbox. apply string_painted_box, string_hit_painted. exact Hhit.
Qed.

Lemma oled_draw_string_ok str fb x y on :
  framebuffer_ok fb -> framebuffer_ok (oled_draw_string fb x y str on).
Proof. intros Hfb. now apply oled_draw_string_pixel. Qed.

End Glyphs.

(** X4.  [oled_draw_char] is case-insensitive: a lower-case letter draws
    exactly what its upper-case letter draws (and every other character is
    its own upper case). *)
Theorem draw_char_case_insensitive (fb : list Z) (x y : Z) (c : ascii) (on : bool) :
  oled_draw_char fb x y (to_upper c) on = oled_draw_char fb x y c on.
Proof. unfold oled_draw_char. now rewrite to_upper_index. Qed.

(** X5.  A character whose 5x7 cell lies entirely off the display (to the
    right, to the left, below or above) is clipped away: [oled_draw_char]
    returns the framebuffer unchanged, without error. *)
Theorem draw_char_clipped (fb : list Z) (x y : Z) (c : ascii) (on : bool) :
  x >= OLED_WIDTH \/ x <= -5 \/ y >= OLED_HEIGHT \/ y <= -7 ->
  oled_draw_char fb x y c on = fb.
Proof.
  intros Hoff. unfold oled_draw_char. destruct (glyph_index c <? 0); [reflexivity|].
  assert (Hgen : forall cols : list Z, Forall (fun i => 0 <= i < 5) cols ->
    foldl (fun fb i => draw_column fb x y i (font_column (glyph_index c) i) on) fb cols
    = fb).
  { induction cols as [|i cols IH]; intros Hcols; [reflexivity|].
    apply Forall_cons in Hcols as [Hi Hcols]. cbn [foldl].
    rewrite draw_column_off; [now apply IH|].
    intros j Hj. unfold in_display, OLED_WIDTH, OLED_HEIGHT in *. lia. }
  apply Hgen. apply Forall_forall. intros i Hi. apply elem_of_seqZ in Hi. lia.
Qed.

Lemma draw_char_clipped_witness :
  (128 >= OLED_WIDTH \/ 128 <= -5 \/ 10 >= OLED_HEIGHT \/ 10 <= -7) /\
  oled_draw_char (oled_fill_buffer []) 128 10 "A" false = oled_fill_buffer [].
Proof.
  assert (Hoff : 128 >= OLED_WIDTH \/ 128 <= -5 \/ 10 >= OLED_HEIGHT \/ 10 <= -7)
    by (left; unfold OLED_WIDTH; lia).
  split; [exact Hoff|].
  exact (draw_char_clipped (oled_fill_buffer []) 128 10 "A" false Hoff).
Defined.

(** X6.  Drawing a character on a blank cell and erasing it again (same
    position, [on = false]) restores every pixel of the display: if the
    pixels of the glyph pattern were off before, the framebuffer reads as
    before at every display pixel. *)
Theorem draw_then_erase (fb : list Z) (x y : Z) (c : ascii) :
  framebuffer_ok fb ->
  (forall (g : list Z) (px py : Z),
     glyph_of c = Some g -> in_display px py -> glyph_painted g x y px py ->
     get_pixel fb px py = false) ->
  forall px py : Z, in_display px py ->
    get_pixel (oled_draw_char (oled_draw_char fb x y c true) x y c false) px py
    = get_pixel fb px py.
Proof.
  intros Hfb Hblank px py Hp. destruct (glyph_of c) as [g|] eqn:Hg.
  - destruct (oled_draw_char_pixel fb x y c true g Hg Hfb) as [Hok1 Hpx1].
    destruct (oled_draw_char_pixel _ x y c false g Hg Hok1) as [_ Hpx2].
    rewrite Hpx2, Hpx1 by exact Hp.
    destruct (existsb (glyph_hit g x y px py) (seqZ 0 5)) eqn:Hhit; [|reflexivity].
    symmetry. apply (Hblank g); [reflexivity|exact Hp|]. now apply glyph_hit_painted.
  - now rewrite !oled_draw_char_skip by exact Hg.
Qed.

Lemma draw_then_erase_witness :
  framebuffer_ok (oled_clear_buffer []) /\
  get_pixel (oled_draw_char (oled_draw_char (oled_clear_buffer []) 4 4 "Q" true)
                            4 4 "Q" false) 5 5
  = get_pixel (oled_clear_buffer []) 5 5.
Proof.
  split; [apply clear_buffer_ok|].
  apply (draw_then_erase (oled_clear_buffer []) 4 4 "Q" (clear_buffer_ok [])).
  - intros g px py _ Hp _. now apply get_pixel_clear.
  - unfold in_display, OLED_WIDTH, OLED_HEIGHT. lia.
Defined.

(** X7.  [oled_draw_string] advances 6 pixels per character, supported or
    not: drawing the concatenation of two strings is drawing the first and
    then the second, 6 pixels further right for every character of the
    first. *)
Theorem draw_string_app (s1 s2 : string) (fb : list Z) (x y : Z) (on : bool) :
  oled_draw_string fb x y (String.append s1 s2) on
  = oled_draw_string (oled_draw_string fb x y s1 on)
                     (x + 6 * Z.of_nat (String.length s1)) y s2 on.
Proof.
  revert fb x. induction s1 as [|c rest IH]; intros fb x.
  - cbn. now rewrite Z.add_0_r.
  - cbn [String.append oled_draw_string String.length]. rewrite IH.
    f_equal. lia.
Qed.

(** X8.  What [oled_draw_string] does to the display: a pixel that belongs
    to the glyph of the k-th character placed at [x + 6k] takes the value
    [on]; every other pixel of the display is unchanged, in particular every
    pixel outside the rows [y .. y+6] and the columns [x .. x + 6n - 1] of
    the text; unsupported characters leave a blank cell.  The framebuffer
    stays a well-formed array. *)
Theorem draw_string_pixels (str : string) (fb : list Z) (x y : Z) (on : bool) :
  framebuffer_ok fb ->
  framebuffer_ok (oled_draw_string fb x y str on) /\
  forall px py : Z, in_display px py ->
    (string_painted str x y px py ->
     get_pixel (oled_draw_string fb x y str on) px py = on) /\
    (~ string_painted str x y px py ->
     get_pixel (oled_draw_string fb x y str on) px py = get_pixel fb px py) /\
    (~ (x <= px < x + 6 * Z.of_nat (String.length str) /\ y <= py < y + 7) ->
     get_pixel (oled_draw_string fb x y str on) px py = get_pixel fb px py).
Proof.
  intros Hfb. destruct (oled_draw_string_pixel str fb x y on Hfb) as [Hok Hpx].
  split; [exact Hok|]. intros px py Hp. rewrite Hpx by exact Hp.
  pose proof (string_hit_painted str x y px py) as Hiff.
  destruct (string_hit str x y px py).
  - split; [reflexivity|]. split.
    + intros Hn. exfalso. apply Hn, Hiff. reflexivity.
    + intros Hbox. exfalso. apply Hbox. apply string_painted_box, Hiff. reflexivity.
  - split; [|split; reflexivity]. intros Hpt. apply Hiff in Hpt. discriminate.
Qed.

Lemma draw_string_pixels_witness :
  framebuffer_ok (oled_clear_buffer []) /\ in_display 16 6 /\
  string_painted "AB" 10 5 16 6 /\
  get_pixel (oled_draw_string (oled_clear_buffer []) 10 5 "AB" true) 16 6 = true.
Proof.
  assert (Hin : in_display 16 6) by (unfold in_display, OLED_WIDTH, OLED_HEIGHT; lia).
  assert (Hp : string_painted "AB" 10 5 16 6).
  { exists 1%nat, "B"%char, [0x7F; 0x49; 0x49; 0x49; 0x36].
    split; [reflexivity|]. split; [reflexivity|].
    exists 0, 1. repeat split; try lia. }
  split; [apply clear_buffer_ok|]. split; [exact Hin|]. split; [exact Hp|].
  exact (proj1 (proj2 (draw_string_pixels "AB" (oled_clear_buffer []) 10 5 true
                         (clear_buffer_ok [])) 16 6 Hin) Hp).
Defined.

(** ** The rendered frame *)

Section Frame.

Lemma framebuffer_ok_check (l : list Z) :
  (length l =? Z.to_nat OLED_BUFFER_SIZE)%nat
  && forallb (fun b => (0 <=? b) && (b <? 256)) l = true ->
  framebuffer_ok l.
Proof.
  intros Hchk. apply andb_true_iff in Hchk as [Hlen Hall].
  apply Nat.eqb_eq in Hlen. split; [exact Hlen|].
  apply Forall_forall. intros b Hb.
  rewrite forallb_forall in Hall. apply list_elem_of_In in Hb.
  specialize (Hall b Hb). apply andb_true_iff in Hall as [H0 H1].
  apply Z.leb_le in H0. apply Z.ltb_lt in H1. lia.
Qed.

Lemma draw_footer_above (score_text timing_text : string) (fb : list Z) (px py : Z) :
  framebuffer_ok fb -> in_display px py -> py < 45 ->
  get_pixel (draw_footer score_text timing_text fb) px py = get_pixel fb px py.
Proof.
  intros Hfb Hp Hrow. unfold draw_footer.
  rewrite oled_draw_string_outside; [| |exact Hp|lia].
  - apply oled_draw_string_outside; [exact Hfb|exact Hp|lia].
  - now apply oled_draw_string_ok.
Qed.

Lemma status_frames_ok (fb : list Z) :
  framebuffer_ok (draw_anomaly (draw_header fb)) /\
  framebuffer_ok (draw_normal (draw_header fb)).
Proof. split; apply framebuffer_ok_check; vm_compute; reflexivity. Qed.

End Frame.

(** X9.  The two result frames can always be told apart: whatever the score
    and timing texts drawn below, the top-left corner of the warning box,
    pixel (10, 22), is on in the anomaly frame and off in the normal frame,
    so the frame of an anomaly cycle never equals the frame of a normal
    cycle. *)
Theorem status_frames_differ (fb1 fb2 : list Z) (st1 tt1 st2 tt2 : string) :
  get_pixel (draw_footer st1 tt1 (draw_anomaly (draw_header fb1))) 10 22 = true /\
  get_pixel (draw_footer st2 tt2 (draw_normal (draw_header fb2))) 10 22 = false /\
  draw_footer st1 tt1 (draw_anomaly (draw_header fb1))
  <> draw_footer st2 tt2 (draw_normal (draw_header fb2)).
Proof.
  assert (Hin : in_display 10 22) by (unfold in_display, OLED_WIDTH, OLED_HEIGHT; lia).
  assert (Ha : get_pixel (draw_footer st1 tt1 (draw_anomaly (draw_header fb1))) 10 22 = true).
  { rewrite (draw_footer_above st1 tt1 (draw_anomaly (draw_header fb1)) 10 22
               (proj1 (status_frames_ok fb1)) Hin ltac:(lia)).
    vm_compute. reflexivity. }
  assert (Hn : get_pixel (draw_footer st2 tt2 (draw_normal (draw_header fb2))) 10 22 = false).
  { rewrite (draw_footer_above st2 tt2 (draw_normal (draw_header fb2)) 10 22
               (proj2 (status_frames_ok fb2)) Hin ltac:(lia)).
    vm_compute. reflexivity. }
  split; [exact Ha|]. split; [exact Hn|].
  intros Heq. rewrite Heq, Hn in Ha. discriminate Ha.
Qed.

(** ** Flush, read back *)

Section FlushBack.

Lemma drop_chunk (l : list Z) (n : nat) :
  take 128 (drop n l) ++ drop (n + 128) l = drop n l.
Proof. rewrite <- drop_drop. apply take_drop. Qed.

Lemma wire_pixels_flush (fb : list Z) :
  length fb = Z.to_nat OLED_BUFFER_SIZE -> wire_pixels (flush_transfers fb) = fb.
Proof.
  intros Hlen. change (Z.to_nat OLED_BUFFER_SIZE) with 1024%nat in Hlen.
  unfold flush_transfers, wire_pixels, page_transfer, page_bytes. cbn [flat_map app].
  change (Z.to_nat (128 * 0)) with 0%nat. change (Z.to_nat (128 * 1)) with 128%nat.
  change (Z.to_nat (128 * 2)) with (128 + 128)%nat.
  change (Z.to_nat (128 * 3)) with (128 + 128 + 128)%nat.
  change (Z.to_nat (128 * 4)) with (128 + 128 + 128 + 128)%nat.
  change (Z.to_nat (128 * 5)) with (128 + 128 + 128 + 128 + 128)%nat.
  change (Z.to_nat (128 * 6)) with (128 + 128 + 128 + 128 + 128 + 128)%nat.
  change (Z.to_nat (128 * 7)) with (128 + 128 + 128 + 128 + 128 + 128 + 128)%nat.
  rewrite app_nil_r.
  rewrite (take_ge (drop (128 + 128 + 128 + 128 + 128 + 128 + 128) fb))
    by (rewrite length_drop, Hlen; lia).
  rewrite !drop_chunk. reflexivity.
Qed.

End FlushBack.

(** X10.  Flush loses nothing and reorders nothing: the pixel bytes of the
    data transfers that [oled_update] adds to the wire, taken in the order
    sent and stripped of their control byte, are the framebuffer itself. *)
Theorem oled_update_sends_framebuffer (w : world) :
  framebuffer_ok (oled_buffer w) ->
  wire_pixels (drop (length (i2c_wire w)) (i2c_wire (exec oled_update w)))
  = oled_buffer w.
Proof.
  intros [Hlen _]. unfold exec. rewrite oled_update_exec. cbn [snd].
  change (i2c_wire (set_i2c_wire ?v w)) with v.
  rewrite drop_app_length. now apply wire_pixels_flush.
Qed.

Lemma oled_update_sends_framebuffer_witness :
  let w := set_oled_buffer (oled_draw_string (oled_clear_buffer []) 5 10 "FAN ANOMALY" true)
             (boot_world (fun n => Z.of_nat n) (fun _ => -1) (fun _ => (0, []))) in
  framebuffer_ok (oled_buffer w) /\
  wire_pixels (drop (length (i2c_wire w)) (i2c_wire (exec oled_update w)))
  = oled_buffer w.
Proof.
  intros w.
  assert (Hok : framebuffer_ok (oled_buffer w))
    by (apply oled_draw_string_ok, clear_buffer_ok).
  split; [exact Hok|]. exact (oled_update_sends_framebuffer w Hok).
Defined.

(** ** Signal adapter *)

Section Signal.

Lemma holds_from_spec (test : Z -> bool) (n : nat) :
  forall v, holds_from test n v = true ->
            forall u, v <= u < v + Z.of_nat n -> test u = true.
Proof.
  induction n as [|k IH]; intros v Hall u Hu; [lia|].
  cbn [holds_from] in Hall. apply andb_true_iff in Hall as [Hv Hrest].
  destruct (Z.eq_dec u v) as [->|Hne]; [exact Hv|].
  apply (IH (v + 1) Hrest). lia.
Qed.

Lemma float_of_int16_check :
  holds_from float_exact_at (Z.to_nat (2 ^ 16)) (- 2 ^ 15) = true.
Proof. vm_compute. reflexivity. Qed.

Lemma float_of_int16_exact (v : Z) : is_int16 v -> float_to_Z (float_of_Z v) = Some v.
Proof.
  intros Hv. unfold is_int16 in Hv.
  pose proof (holds_from_spec _ _ _ float_of_int16_check v ltac:(lia)) as Hex.
  unfold float_exact_at in Hex.
  destruct (float_to_Z (float_of_Z v)) as [u|]; [|discriminate].
  apply Z.eqb_eq in Hex. now subst.
Qed.

Lemma signal_get_data_fst (offset length : Z) (w : world) :
  fst (signal_get_data offset length w)
  = map float_of_Z (take (Z.to_nat length) (drop (Z.to_nat offset) (inference_buffer w))).
Proof. reflexivity. Qed.

End Signal.

(** X11.  The signal accessor converts without loss: for a window of 16-bit
    samples and a request inside it, [get_data(offset, length)] yields
    exactly [length] floats, the i-th denoting the integer
    [inference_buffer[offset + i]] (no scaling, no rounding), and leaves the
    window and the readiness flag as they are. *)
Theorem signal_get_data_exact (offset length : Z) (w : world) :
  0 <= offset -> 0 <= length ->
  offset + length <= Z.of_nat (List.length (inference_buffer w)) ->
  Forall is_int16 (inference_buffer w) ->
  let out := fst (signal_get_data offset length w) in
  List.length out = Z.to_nat length /\
  (forall i : nat, (i < Z.to_nat length)%nat ->
     exists v : Z,
       inference_buffer w !! (Z.to_nat offset + i)%nat = Some v /\
       (float_to_Z <$> out !! i) = Some (Some v)) /\
  inference_buffer (exec (signal_get_data offset length) w) = inference_buffer w /\
  audio_ready (exec (signal_get_data offset length) w) = audio_ready w.
Proof.
  intros Ho Hl Hbound Hint out. subst out. rewrite signal_get_data_fst.
  split; [|split; [|split; reflexivity]].
  - rewrite length_map, length_take, length_drop. lia.
  - intros i Hi.
    assert (Hlt : (Z.to_nat offset + i < List.length (inference_buffer w))%nat) by lia.
    destruct (lookup_lt_is_Some_2 _ _ Hlt) as [v Hv]. exists v. split; [exact Hv|].
    rewrite list_lookup_fmap, lookup_take_lt, lookup_drop, Hv by exact Hi. cbn.
    do 2 f_equal. apply float_of_int16_exact.
    rewrite Forall_lookup in Hint. exact (Hint _ _ Hv).
Qed.

Lemma signal_get_data_exact_witness :
  let w := set_inference_buffer (replicate 416 (-7))
             (boot_world (fun n => Z.of_nat n) (fun _ => 0) (fun _ => (0, []))) in
  0 <= 400 /\ 0 <= 16 /\ 400 + 16 <= Z.of_nat (List.length (inference_buffer w)) /\
  Forall is_int16 (inference_buffer w) /\
  List.length (fst (signal_get_data 400 16 w)) = Z.to_nat 16.
Proof.
  intros w.
  assert (Hb : 400 + 16 <= Z.of_nat (List.length (inference_buffer w)))
    by (subst w; cbn [inference_buffer set_inference_buffer];
        rewrite length_replicate; lia).
  assert (Hint : Forall is_int16 (inference_buffer w))
    by (apply Forall_replicate; unfold is_int16; lia).
  split; [lia|]. split; [lia|]. split; [exact Hb|]. split; [exact Hint|].
  exact (proj1 (signal_get_data_exact 400 16 w ltac:(lia) ltac:(lia) Hb Hint)).
Defined.



(** ** Score extraction *)

Section Scores.

Lemma label_tests_disjoint (label : string) :
  is_normal_label label = true -> is_abnormal_label label = false.
Proof.
  unfold is_normal_label, is_abnormal_label. intros H.
  apply orb_true_iff in H as [H|H]; apply String.eqb_eq in H; subst; reflexivity.
Qed.

Lemma last_score_snoc (test : string -> bool) (result : list (string * spec_float))
      (entry : string * spec_float) :
  last_score test (result ++ [entry])
  = if test (fst entry) then snd entry else last_score test result.
Proof.
  unfold last_score. rewrite filter_app, map_app, filter_cons, filter_nil.
  destruct (test (fst entry)) eqn:E.
  - rewrite decide_True by reflexivity. cbn [map]. now rewrite last_snoc.
  - rewrite decide_False by discriminate. cbn [map]. now rewrite app_nil_r.
Qed.

End Scores.

(** X13.  The score loop keeps, for each class, the value of the last entry
    whose label is spelled exactly "normal" or "Normal" (resp. "abnormal" or
    "Abnormal"); entries with any other label are ignored, and a class with
    no entry scores 0.0. *)
Theorem extract_scores_last (result : classification) :
  extract_scores result
  = (last_score is_normal_label result, last_score is_abnormal_label result).
Proof.
  induction result as [|entry result IH] using rev_ind; [reflexivity|].
  unfold extract_scores in *. rewrite foldl_app. cbn [foldl]. rewrite IH.
  rewrite !last_score_snoc. cbn [fst snd].
  fold (is_normal_label (fst entry)). fold (is_abnormal_label (fst entry)).
  destruct (is_normal_label (fst entry)) eqn:En.
  - now rewrite (label_tests_disjoint _ En).
  - destruct (is_abnormal_label (fst entry)); reflexivity.
Qed.

(** Only the two spellings match: an upper-case label is ignored. *)
Example extract_scores_spelling :
  extract_scores [("NORMAL"%string, S754_finite false 8388608 (-24));
                  ("abnormal"%string, S754_finite false 8388608 (-23));
                  ("noise"%string, S754_finite false 8388608 (-22))]
  = (S754_zero false, S754_finite false 8388608 (-23)).
Proof. reflexivity. Qed.

(** ** The window the capture task hands over *)

Section Window.

#[local] Arguments to_int64 : simpl never.
#[local] Arguments to_int16 : simpl never.
#[local] Arguments Z.geb : simpl never.
#[local] Arguments Z.ltb : simpl never.
#[local] Arguments Z.add : simpl never.

Implicit Types (w : world) (raw : Z) (samples : list Z).

Lemma capture_samples_cons raw samples w :
  buffer_index w < EI_CLASSIFIER_RAW_SAMPLE_COUNT ->
  exec (capture_samples (raw :: samples)) w
  = exec (capture_samples samples) (exec (capture_sample raw) w).
Proof.
  intros Hidx. cbn [capture_samples]. unfold exec, mbind, M_bind, get.
  destruct (Z.ltb_spec (buffer_index w) EI_CLASSIFIER_RAW_SAMPLE_COUNT) as [_|]; [|lia].
  now destruct (capture_sample raw w) as [[] w1].
Qed.

Lemma capture_samples_buffer samples :
  forall w,
    0 <= buffer_index w ->
    buffer_index w + Z.of_nat (length samples) <= EI_CLASSIFIER_RAW_SAMPLE_COUNT ->
    length (inference_buffer w) = Z.to_nat EI_CLASSIFIER_RAW_SAMPLE_COUNT ->
    inference_buffer (exec (capture_samples samples) w)
    = take (Z.to_nat (buffer_index w)) (inference_buffer w)
      ++ map convert_sample samples
      ++ drop (Z.to_nat (buffer_index w) + length samples) (inference_buffer w).
Proof.
  unfold EI_CLASSIFIER_RAW_SAMPLE_COUNT.
  induction samples as [|raw rest IH]; intros w H0 Hfit Hlen.
  - cbn [map length app]. rewrite Nat.add_0_r. now rewrite take_drop.
  - cbn [length] in Hfit.
    rewrite capture_samples_cons by (unfold EI_CLASSIFIER_RAW_SAMPLE_COUNT; lia).
    destruct (capture_sample_spec raw w) as (_ & Hbi & _ & Hbuf & _).
    set (w1 := exec (capture_sample raw) w) in *.
    assert (Hins : forall n, (Z.to_nat (buffer_index w) < n)%nat ->
              drop n (inference_buffer w1) = drop n (inference_buffer w))
      by (intros n Hn; rewrite Hbuf; now apply drop_insert_lt).
    assert (Htake : take (S (Z.to_nat (buffer_index w))) (inference_buffer w1)
                    = take (Z.to_nat (buffer_index w)) (inference_buffer w)
                      ++ [convert_sample raw]).
    { rewrite Hbuf. erewrite take_S_r by (apply list_lookup_insert_eq; lia).
      now rewrite take_insert_ge by lia. }
    destruct rest as [|raw2 rest].
    + cbn [capture_samples exec skip mret M_ret snd map length app].
      change (snd (skip w1)) with w1.
      rewrite <- (take_drop (S (Z.to_nat (buffer_index w))) (inference_buffer w1)) at 1.
      rewrite Htake, <- app_assoc. cbn [app]. do 2 f_equal.
      rewrite Hins by lia. f_equal. lia.
    + cbn [length] in Hfit.
      assert (Hbi1 : buffer_index w1 = buffer_index w + 1).
      { rewrite Hbi. unfold EI_CLASSIFIER_RAW_SAMPLE_COUNT.
        destruct (Z.geb_spec (buffer_index w + 1) 416); [lia|reflexivity]. }
      rewrite IH; [|lia|cbn [length]; lia|rewrite Hbuf, length_insert; exact Hlen].
      rewrite Hbi1. replace (Z.to_nat (buffer_index w + 1))
        with (S (Z.to_nat (buffer_index w))) by lia.
      rewrite Htake, <- app_assoc. cbn [app map].
      rewrite Hins by lia.
      replace (S (Z.to_nat (buffer_index w)) + length (raw2 :: rest))%nat
        with (Z.to_nat (buffer_index w) + length (raw :: raw2 :: rest))%nat
        by (cbn [length]; lia).
      reflexivity.
Qed.

Lemma convert_sample_int16 raw : is_int16 (convert_sample raw).
Proof. apply to_int16_range. Qed.

Lemma capture_samples_preserves (P : world -> Prop) :
  (forall w raw, 0 <= buffer_index w < EI_CLASSIFIER_RAW_SAMPLE_COUNT ->
                 P w -> P (exec (capture_sample raw) w)) ->
  forall samples w,
    0 <= buffer_index w < EI_CLASSIFIER_RAW_SAMPLE_COUNT ->
    P w -> P (exec (capture_samples samples) w).
Proof.
  intros Hsample. induction samples as [|raw rest IH]; intros w Hidx HP; [exact HP|].
  rewrite capture_samples_cons by lia. apply IH; [|now apply Hsample].
  destruct (capture_sample_spec raw w) as (_ & -> & _).
  unfold EI_CLASSIFIER_RAW_SAMPLE_COUNT in *.
  destruct (Z.geb_spec (buffer_index w + 1) 416); lia.
Qed.

Lemma capture_samples_ready samples :
  forall w,
    0 <= buffer_index w < EI_CLASSIFIER_RAW_SAMPLE_COUNT ->
    EI_CLASSIFIER_RAW_SAMPLE_COUNT <= buffer_index w + Z.of_nat (length samples) ->
    audio_ready (exec (capture_samples samples) w) = true.
Proof.
  induction samples as [|raw rest IH]; intros w Hidx Hfull.
  - cbn [length] in Hfull. lia.
  - rewrite capture_samples_cons by lia.
    destruct (capture_sample_spec raw w) as (_ & Hbi & Hrd & _).
    unfold EI_CLASSIFIER_RAW_SAMPLE_COUNT in *.
    destruct (Z.geb_spec (buffer_index w + 1) 416) as [Hnow|Hlater].
    + apply (capture_samples_preserves (fun w => audio_ready w = true)).
      * intros w0 raw0 _ HP. destruct (capture_sample_spec raw0 w0) as (_ & _ & -> & _).
        rewrite HP. now destruct (_ >=? _).
      * rewrite Hbi. unfold EI_CLASSIFIER_RAW_SAMPLE_COUNT. lia.
      * exact Hrd.
    + apply IH; rewrite Hbi; unfold EI_CLASSIFIER_RAW_SAMPLE_COUNT;
        cbn [length] in Hfull; lia.
Qed.

(** The capture task keeps what a sample step keeps. *)
Lemma audio_capture_task_preserves (P : world -> Prop) :
  (forall w raw, 0 <= buffer_index w < EI_CLASSIFIER_RAW_SAMPLE_COUNT ->
                 P w -> P (exec (capture_sample raw) w)) ->
  (forall w, P w -> P (exec mark_capture_start w)) ->
  forall (reads : list (Z * list Z)) w,
    0 <= buffer_index w < EI_CLASSIFIER_RAW_SAMPLE_COUNT ->
    P w -> P (exec (audio_capture_task reads) w).
Proof.
  intros Hsample Hmark.
  pose proof (capture_samples_preserves P Hsample) as Hloop.
  induction reads as [|read rest IH]; intros w Hidx HP; [exact HP|].
  cbn [audio_capture_task]. unfold exec, mbind, M_bind.
  destruct (audio_capture_iteration_spec read w Hidx) as (_ & Hbi & _).
  assert (HP1 : P (exec (audio_capture_iteration read) w)).
  { unfold audio_capture_iteration, exec, mbind, M_bind.
    pose proof (Hmark w HP) as HPm.
    destruct (mark_capture_start_spec w) as (_ & Hbim & _).
    unfold exec in HPm, Hbim. destruct (mark_capture_start w) as [[] wm]. cbn [snd] in *.
    destruct (fst read =? ESP_OK); [|exact HPm].
    apply Hloop; [now rewrite Hbim|exact HPm]. }
  unfold exec in HP1, Hbi. destruct (audio_capture_iteration read w) as [[] w1].
  cbn [snd] in *. apply IH; [|exact HP1].
  rewrite Hbi. apply Z.mod_pos_bound. reflexivity.
Qed.

Lemma capture_events_in_window samples :
  forall idx, 0 <= idx < EI_CLASSIFIER_RAW_SAMPLE_COUNT ->
    Forall write_in_window (capture_events idx samples).
Proof.
  unfold EI_CLASSIFIER_RAW_SAMPLE_COUNT.
  induction samples as [|raw rest IH]; intros idx Hidx; [constructor|].
  cbn [capture_events]. constructor.
  - split; [exact Hidx|apply to_int16_range].
  - unfold EI_CLASSIFIER_RAW_SAMPLE_COUNT.
    destruct (Z.geb_spec (idx + 1) 416).
    + constructor; [exact I|]. apply IH. lia.
    + apply IH. lia.
Qed.

End Window.

(** The mark that closes a window is the last event of the stream that
    fills it. *)
Lemma capture_events_last (samples : list Z) :
  forall (idx : Z) (t : list handoff_event),
    0 <= idx < EI_CLASSIFIER_RAW_SAMPLE_COUNT ->
    samples <> [] ->
    (idx + Z.of_nat (length samples)) mod EI_CLASSIFIER_RAW_SAMPLE_COUNT = 0 ->
    last (t ++ capture_events idx samples) = Some EvReady.
Proof.
  unfold EI_CLASSIFIER_RAW_SAMPLE_COUNT.
  induction samples as [|raw rest IH]; intros idx t Hidx Hne Hmod; [congruence|].
  cbn [capture_events]. unfold EI_CLASSIFIER_RAW_SAMPLE_COUNT.
  destruct rest as [|raw' rest].
  - cbn [length] in Hmod.
    assert (idx = 415) as ->.
    { destruct (Z.eq_dec idx 415) as [|Hne']; [assumption|].
      rewrite Z.mod_small in Hmod by lia. lia. }
    cbn. now rewrite last_app.
  - destruct (Z.geb_spec (idx + 1) 416) as [Hfull|Hnot].
    + change (?a :: EvReady :: ?l) with ([a; EvReady] ++ l).
      rewrite app_assoc. apply (IH 0); [lia|discriminate|].
      assert (idx = 415) as -> by lia.
      replace (415 + Z.of_nat (length (raw :: raw' :: rest)))
        with (0 + Z.of_nat (length (raw' :: rest)) + 1 * 416) in Hmod
        by (cbn [length]; lia).
      now rewrite Z.mod_add in Hmod by lia.
    + change (?a :: ?l) with ([a] ++ l).
      rewrite app_assoc. apply (IH (idx + 1)); [lia|discriminate|].
      replace (idx + 1 + Z.of_nat (length (raw' :: rest)))
        with (idx + Z.of_nat (length (raw :: raw' :: rest))) by (cbn [length]; lia).
      exact Hmod.
Qed.

(** X14.  When the capture task marks a window ready, the window holds the
    samples of that window: after exactly 416 accepted samples taken from
    fill index 0, the buffer is the list of their conversions, in arrival
    order, the flag is set, the index is back at 0, and the run has made
    exactly one ready mark, as the last of its accesses. *)
Theorem window_holds_samples (samples : list Z) (w : world) :
  buffer_index w = 0 ->
  length (inference_buffer w) = Z.to_nat EI_CLASSIFIER_RAW_SAMPLE_COUNT ->
  length samples = Z.to_nat EI_CLASSIFIER_RAW_SAMPLE_COUNT ->
  let w' := exec (capture_samples samples) w in
  inference_buffer w' = map convert_sample samples /\
  audio_ready w' = true /\
  buffer_index w' = 0 /\
  count is_ready (handoff_trace w') = count is_ready (handoff_trace w) + 1 /\
  last (handoff_trace w') = Some EvReady.
Proof.
  intros Hidx Hlen Hn w'. subst w'.
  assert (H0 : 0 <= 0 < EI_CLASSIFIER_RAW_SAMPLE_COUNT)
    by (unfold EI_CLASSIFIER_RAW_SAMPLE_COUNT; lia).
  destruct (capture_samples_spec samples w ltac:(rewrite Hidx; exact H0))
    as (Htr & Hbi & _).
  cbv zeta in Htr, Hbi. rewrite Hidx in Htr.
  split; [|split; [|split; [|split]]].
  - rewrite capture_samples_buffer; rewrite ?Hidx, ?Hn; try exact Hlen;
      try (unfold EI_CLASSIFIER_RAW_SAMPLE_COUNT; lia).
    cbn [Z.to_nat take app Nat.add]. rewrite drop_ge by (rewrite Hlen; lia).
    apply app_nil_r.
  - apply capture_samples_ready; rewrite Hidx, ?Hn;
      unfold EI_CLASSIFIER_RAW_SAMPLE_COUNT; lia.
  - rewrite Hbi, Hidx, Hn. reflexivity.
  - rewrite Htr, count_app, (proj1 (capture_events_count samples 0 H0)), Hn.
    reflexivity.
  - rewrite Htr. apply capture_events_last; [exact H0| |].
    + intros ->. discriminate Hn.
    + rewrite Hn. reflexivity.
Qed.

Lemma window_holds_samples_witness :
  let w := boot_world (fun n => Z.of_nat n) (fun _ => 0) (fun _ => (0, [])) in
  let samples := replicate 416 (-1000000) in
  buffer_index w = 0 /\
  length (inference_buffer w) = Z.to_nat EI_CLASSIFIER_RAW_SAMPLE_COUNT /\
  length samples = Z.to_nat EI_CLASSIFIER_RAW_SAMPLE_COUNT /\
  inference_buffer (exec (capture_samples samples) w) = map convert_sample samples /\
  count is_ready (handoff_trace (exec (capture_samples samples) w)) = 1.
Proof.
  intros w samples.
  assert (Hidx : buffer_index w = 0) by reflexivity.
  assert (Hlen : length (inference_buffer w) = Z.to_nat EI_CLASSIFIER_RAW_SAMPLE_COUNT)
    by apply length_replicate.
  assert (Hn : length samples = Z.to_nat EI_CLASSIFIER_RAW_SAMPLE_COUNT)
    by apply length_replicate.
  split; [exact Hidx|]. split; [exact Hlen|]. split; [exact Hn|].
  destruct (window_holds_samples samples w Hidx Hlen Hn) as (Hbuf & _ & _ & Hcount & _).
  split; [exact Hbuf|exact Hcount].
Defined.

(** X15.  The capture task never writes outside the window: over any
    sequence of reads, every write it makes goes to a slot in [0, 416) and
    stores a value in the 16-bit range, the buffer keeps its 416 entries, all
    of them 16-bit values, and the fill index ends in [0, 416). *)
Theorem capture_stays_in_window (reads : list (Z * list Z)) (w : world) :
  0 <= buffer_index w < EI_CLASSIFIER_RAW_SAMPLE_COUNT ->
  length (inference_buffer w) = Z.to_nat EI_CLASSIFIER_RAW_SAMPLE_COUNT ->
  Forall is_int16 (inference_buffer w) ->
  let w' := exec (audio_capture_task reads) w in
  (exists events : list handoff_event,
     handoff_trace w' = handoff_trace w ++ events /\ Forall write_in_window events) /\
  length (inference_buffer w') = Z.to_nat EI_CLASSIFIER_RAW_SAMPLE_COUNT /\
  Forall is_int16 (inference_buffer w') /\
  0 <= buffer_index w' < EI_CLASSIFIER_RAW_SAMPLE_COUNT.
Proof.
  intros Hidx Hlen Hint w'. subst w'.
  destruct (audio_capture_task_spec reads w Hidx) as (Htr & Hbi & Hfr).
  split; [|split; [|split]].
  - eexists. split; [exact Htr|]. now apply capture_events_in_window.
  - destruct Hfr as (_ & _ & _ & _ & _ & _ & _ & _ & Hl). now rewrite Hl.
  - apply (audio_capture_task_preserves (fun w => Forall is_int16 (inference_buffer w)));
      try assumption.
    + intros w0 raw _ HP. destruct (capture_sample_spec raw w0) as (_ & _ & _ & -> & _).
      apply Forall_insert; [exact HP|apply to_int16_range].
    + intros w0 HP. destruct (mark_capture_start_spec w0) as (_ & _ & _ & -> & _).
      exact HP.
  - rewrite Hbi. apply Z.mod_pos_bound. reflexivity.
Qed.

Lemma capture_stays_in_window_witness :
  let w := boot_world (fun n => Z.of_nat n) (fun _ => 0) (fun _ => (0, [])) in
  let reads := [(ESP_OK, replicate 512 2147483647); (ESP_OK, replicate 512 (-2147483648))] in
  0 <= buffer_index w < EI_CLASSIFIER_RAW_SAMPLE_COUNT /\
  length (inference_buffer w) = Z.to_nat EI_CLASSIFIER_RAW_SAMPLE_COUNT /\
  Forall is_int16 (inference_buffer w) /\
  Forall is_int16 (inference_buffer (exec (audio_capture_task reads) w)).
Proof.
  intros w reads.
  assert (Hidx : 0 <= buffer_index w < EI_CLASSIFIER_RAW_SAMPLE_COUNT)
    by (cbn; unfold EI_CLASSIFIER_RAW_SAMPLE_COUNT; lia).
  assert (Hlen : length (inference_buffer w) = Z.to_nat EI_CLASSIFIER_RAW_SAMPLE_COUNT)
    by apply length_replicate.
  assert (Hint : Forall is_int16 (inference_buffer w))
    by (apply Forall_replicate; unfold is_int16; lia).
  split; [exact Hidx|]. split; [exact Hlen|]. split; [exact Hint|].
  exact (proj1 (proj2 (proj2 (capture_stays_in_window reads w Hidx Hlen Hint)))).
Defined.

(** ** Cycles, counter and log over a run *)

Section Runs.

#[local] Arguments to_int64 : simpl never.
#[local] Arguments to_int16 : simpl never.
#[local] Arguments to_uint32 : simpl never.
#[local] Arguments float_div : simpl never.
#[local] Arguments float_of_Z : simpl never.
#[local] Arguments float_gt : simpl never.
#[local] Arguments SFmul : simpl never.
#[local] Arguments draw_header : simpl never.
#[local] Arguments draw_anomaly : simpl never.
#[local] Arguments draw_normal : simpl never.
#[local] Arguments draw_footer : simpl never.
#[local] Arguments extract_scores : simpl never.
#[local] Arguments flush_transfers : simpl never.
#[local] Arguments Z.geb : simpl never.
#[local] Arguments Z.eqb : simpl never.
#[local] Arguments Z.add : simpl never.
#[local] Arguments seqZ : simpl never.

Implicit Types (w : world) (log : list log_entry).

Lemma finish_cycle_wire w (inference_start : Z) (result : classification) :
  let w' := exec (finish_cycle inference_start EI_IMPULSE_OK result) w in
  i2c_wire w' = i2c_wire w ++ flush_transfers (oled_buffer w').
Proof.
  unfold exec, finish_cycle. change (EI_IMPULSE_OK =? EI_IMPULSE_OK) with true.
  cbn [negb].
  unfold render, update_cycle_metrics, report_summary, esp_timer_get_time,
    ESP_LOG, modify, get, skip.
  unfold mbind, M_bind, mret, M_ret. cbn.
  rewrite oled_update_exec. cbn.
  destruct (_ >=? _); reflexivity.
Qed.

Lemma capture_sample_counter raw w :
  inference_count (perf_metrics (exec (capture_sample raw) w))
  = inference_count (perf_metrics w).
Proof.
  unfold exec, capture_sample, mbind, M_bind. rewrite store_sample_exec.
  unfold get, skip, mret, M_ret. cbn.
  destruct (_ >=? _); [rewrite publish_window_exec|]; reflexivity.
Qed.

Lemma mark_capture_start_counter w :
  inference_count (perf_metrics (exec mark_capture_start w))
  = inference_count (perf_metrics w).
Proof.
  unfold exec, mark_capture_start, mbind, M_bind, get.
  destruct (buffer_index w =? 0); reflexivity.
Qed.

Lemma audio_capture_iteration_task (read : Z * list Z) w :
  exec (audio_capture_iteration read) w = exec (audio_capture_task [read]) w.
Proof.
  cbn [audio_capture_task]. unfold exec, mbind, M_bind.
  now destruct (audio_capture_iteration read w) as [[] w1].
Qed.

Lemma finish_cycle_log_step w (inference_start res : Z) (result : classification) :
  log_step w (exec (finish_cycle inference_start res result) w).
Proof.
  destruct (Z.eq_dec res EI_IMPULSE_OK) as [->|Hfail].
  - destruct (finish_cycle_ok w inference_start result)
      as (Hm & _ & Hlog & _).
    apply (log_completed w _ _ _ _ Hlog).
    + destruct (_ >=? _); [right; eauto|now left].
    + rewrite Hm. reflexivity.
  - unfold exec. rewrite finish_cycle_failed by exact Hfail.
    apply (log_failed w _ res); reflexivity.
Qed.

Lemma log_step_classified w w' : log_step (classified w) w' -> log_step w w'.
Proof.
  intros [Hlog Hc|res Hlog Hc|d m tail Hlog Htail Hc].
  - exact (log_quiet w w' Hlog Hc).
  - exact (log_failed w w' res Hlog Hc).
  - exact (log_completed w w' d m tail Hlog Htail Hc).
Qed.

Lemma inference_iteration_log_step w :
  log_step w (exec inference_iteration w) /\
  buffer_index (exec inference_iteration w) = buffer_index w.
Proof.
  unfold exec. destruct (audio_ready w) eqn:Hready.
  - rewrite inference_iteration_ready by exact Hready. split.
    + apply log_step_classified. apply finish_cycle_log_step.
    + exact (proj1 (proj2 (finish_cycle_effect _ _ _ (classified w)))).
  - rewrite inference_iteration_idle by exact Hready.
    split; [|reflexivity]. now apply log_quiet.
Qed.

Lemma activate_log_step (a : activation) w :
  0 <= buffer_index w < EI_CLASSIFIER_RAW_SAMPLE_COUNT ->
  log_step w (exec (activate a) w) /\
  0 <= buffer_index (exec (activate a) w) < EI_CLASSIFIER_RAW_SAMPLE_COUNT.
Proof.
  intros Hidx. destruct a as [read|]; cbn [activate].
  - destruct (audio_capture_iteration_spec read w Hidx) as (_ & Hbi & Hfr).
    split; [|rewrite Hbi; apply Z.mod_pos_bound; reflexivity].
    apply log_quiet; [apply Hfr|].
    rewrite audio_capture_iteration_task.
    apply (audio_capture_task_preserves
             (fun w0 => inference_count (perf_metrics w0)
                        = inference_count (perf_metrics w))); try assumption.
    + intros w0 raw _ HP. now rewrite capture_sample_counter.
    + intros w0 HP. now rewrite mark_capture_start_counter.
    + reflexivity.
  - destruct (inference_iteration_log_step w) as [Hstep Hbi].
    split; [exact Hstep|]. now rewrite Hbi.
Qed.

Lemma completed_cycles_app log1 log2 :
  completed_cycles (log1 ++ log2) = completed_cycles log1 + completed_cycles log2.
Proof. unfold completed_cycles. rewrite filter_app, length_app. lia. Qed.

Lemma summaries_follow_app log1 :
  forall prev log2,
    summaries_follow prev (log1 ++ log2)
    <-> summaries_follow prev log1
        /\ summaries_follow (match last log1 with Some e => Some e | None => prev end) log2.
Proof.
  induction log1 as [|e log1 IH]; intros prev log2.
  - cbn. tauto.
  - cbn [app summaries_follow]. rewrite IH.
    destruct log1 as [|e2 log1]; [cbn; tauto|].
    rewrite last_cons_cons.
    destruct (last (e2 :: log1)) eqn:E; [tauto|].
    apply last_None in E. discriminate E.
Qed.

Lemma to_uint32_succ (n : Z) : to_uint32 (to_uint32 n + 1) = to_uint32 (n + 1).
Proof. unfold to_uint32. apply Zplus_mod_idemp_l. Qed.

Lemma log_step_inv w w' : log_step w w' -> log_inv w -> log_inv w'.
Proof.
  unfold log_inv. intros Hstep [Hcount Hfollow].
  destruct Hstep as [Hlog Hc|res Hlog Hc|d m tail Hlog Htail Hc].
  - now rewrite Hlog, Hc.
  - rewrite Hlog, Hc, completed_cycles_app, summaries_follow_app.
    change (completed_cycles [LogInferenceFailed res]) with 0. rewrite Z.add_0_r.
    cbn. tauto.
  - rewrite Hlog, Hc, Hcount, completed_cycles_app, summaries_follow_app, to_uint32_succ.
    destruct Htail as [->|[t ->]].
    + change (completed_cycles [LogInference d m]) with 1. cbn. tauto.
    + change (completed_cycles [LogInference d m; LogSummary t m]) with 1.
      cbn. split; [reflexivity|]. split; [exact Hfollow|]. eauto.
Qed.

Lemma run_log_inv (schedule : list activation) :
  forall w,
    0 <= buffer_index w < EI_CLASSIFIER_RAW_SAMPLE_COUNT ->
    log_inv w -> log_inv (exec (run schedule) w).
Proof.
  induction schedule as [|a rest IH]; intros w Hidx Hinv; [exact Hinv|].
  cbn [run]. unfold exec, mbind, M_bind.
  destruct (activate_log_step a w Hidx) as [Hstep Hidx1].
  pose proof (log_step_inv _ _ Hstep Hinv) as Hinv1.
  unfold exec in Hinv1, Hidx1. destruct (activate a w) as [[] w1]. cbn [snd] in *.
  now apply IH.
Qed.

Lemma firmware_log_inv (schedule : list activation) w :
  esp_log w = [] -> inference_count (perf_metrics w) = 0 -> buffer_index w = 0 ->
  log_inv (exec (firmware schedule) w).
Proof.
  intros Hlog Hcount Hidx.
  unfold firmware, exec, mbind, M_bind, inference_task_start, esp_timer_get_time,
    modify. cbn.
  apply run_log_inv.
  - cbn. rewrite Hidx. unfold EI_CLASSIFIER_RAW_SAMPLE_COUNT. lia.
  - unfold log_inv. cbn. rewrite Hlog, Hcount. split; [reflexivity|exact I].
Qed.

Lemma inference_iteration_clears w : audio_ready (exec inference_iteration w) = false.
Proof.
  unfold exec. destruct (audio_ready w) eqn:Hready.
  - rewrite inference_iteration_ready by exact Hready.
    destruct (finish_cycle_effect (esp_timer w (S (timer_reads w)))
                (fst (run_classifier w (window_signal w)))
                (snd (run_classifier w (window_signal w))) (classified w))
      as (_ & _ & Hrd).
    unfold exec in Hrd. rewrite Hrd. reflexivity.
  - rewrite inference_iteration_idle by exact Hready. exact Hready.
Qed.

End Runs.

(** X16.  The inference counter counts completed cycles and nothing else:
    in every run of the firmware from start-up, its value is the number of
    completed-cycle lines in the log, reduced modulo 2^32; failed
    classifications, idle polls, summaries and the capture task leave it
    alone. *)
Theorem counter_counts_completed_cycles (schedule : list activation) (w : world) :
  esp_log w = [] -> inference_count (perf_metrics w) = 0 -> buffer_index w = 0 ->
  inference_count (perf_metrics (exec (firmware schedule) w))
  = to_uint32 (completed_cycles (esp_log (exec (firmware schedule) w))).
Proof.
  intros Hlog Hcount Hidx. exact (proj1 (firmware_log_inv schedule w Hlog Hcount Hidx)).
Qed.

Lemma counter_counts_completed_cycles_witness :
  let read := (ESP_OK, replicate 512 0) in
  let schedule := [RunCapture read; RunInference; RunInference; RunCapture read;
                   RunInference] in
  let w := boot_world (fun n => Z.of_nat n) (fun _ => 0) (fun _ => (0, [])) in
  esp_log w = [] /\ inference_count (perf_metrics w) = 0 /\ buffer_index w = 0 /\
  inference_count (perf_metrics (exec (firmware schedule) w)) = 2.
Proof.
  intros read schedule w.
  assert (Hlog : esp_log w = []) by reflexivity.
  assert (Hcount : inference_count (perf_metrics w) = 0) by reflexivity.
  assert (Hidx : buffer_index w = 0) by reflexivity.
  split; [exact Hlog|]. split; [exact Hcount|]. split; [exact Hidx|].
  rewrite (counter_counts_completed_cycles schedule w Hlog Hcount Hidx).
  vm_compute. reflexivity.
Defined.

(** X17.  The summary figures are those of the latest cycle, not averages:
    in every run from start-up, each summary in the log comes directly
    after the line of a completed cycle and carries the very metrics record
    of that line. *)
Theorem summary_reports_latest_cycle (schedule : list activation) (w : world) :
  esp_log w = [] -> inference_count (perf_metrics w) = 0 -> buffer_index w = 0 ->
  summaries_follow None (esp_log (exec (firmware schedule) w)).
Proof.
  intros Hlog Hcount Hidx. exact (proj2 (firmware_log_inv schedule w Hlog Hcount Hidx)).
Qed.

Lemma summary_reports_latest_cycle_witness :
  let w := set_audio_ready true
             (boot_world (fun n => Z.min (3000000 * Z.of_nat n) (2 ^ 62)) (fun _ => 0)
                         (fun _ => (0, []))) in
  esp_log w = [] /\ inference_count (perf_metrics w) = 0 /\ buffer_index w = 0 /\
  summaries_follow None (esp_log (exec (firmware [RunInference]) w)) /\
  length (esp_log (exec (firmware [RunInference]) w)) = 2%nat.
Proof.
  intros w.
  assert (Hlog : esp_log w = []) by reflexivity.
  assert (Hcount : inference_count (perf_metrics w) = 0) by reflexivity.
  assert (Hidx : buffer_index w = 0) by reflexivity.
  split; [exact Hlog|]. split; [exact Hcount|]. split; [exact Hidx|].
  split; [exact (summary_reports_latest_cycle [RunInference] w Hlog Hcount Hidx)|].
  vm_compute. reflexivity.
Defined.

(** ** Claims and marks in the interleaved system *)

Section Budget.

Implicit Types (w : world) (s : system).

Lemma step_marks s s' :
  step s s' ->
  count is_ready (handoff_trace (sys_world s))
  <= count is_ready (handoff_trace (sys_world s')) /\
  (count is_ready (handoff_trace (sys_world s'))
   = count is_ready (handoff_trace (sys_world s)) ->
   claim_budget s' <= claim_budget s).
Proof.
  intros Hstep. unfold claim_budget.
  destruct Hstep as [w ip|raw w ip|w ip|w cp Hr|w cp Hr|w cp
                     |offset length w cp t Ho Hl Hol|res result w cp t];
    cbn [sys_world cap_pc inf_pc].
  - destruct (mark_capture_start_spec w) as (-> & _ & -> & _). lia.
  - destruct (store_sample_effect raw w) as (-> & _ & ->).
    rewrite !count_snoc. cbn [is_ready is_claim]. lia.
  - destruct (publish_window_effect w) as (-> & _ & ->).
    rewrite !count_snoc. cbn [is_ready is_claim]. lia.
  - lia.
  - destruct (poll_ready_effect w) as (-> & _ & ->). rewrite Hr. cbn. lia.
  - destruct (claim_effect w) as (-> & _ & ->).
    rewrite !count_snoc. cbn [is_ready is_claim orb].
    rewrite orb_true_r. lia.
  - destruct (get_data_effect offset length w) as (-> & _ & ->).
    destruct (count_reads (seqZ offset length)) as (_ & _ & Em & Ec).
    rewrite !count_app, Em, Ec. lia.
  - destruct (finish_cycle_effect t res result w) as (-> & _ & ->).
    rewrite !orb_false_r. destruct (audio_ready w); lia.
Qed.

Lemma steps_marks s s' :
  steps s s' ->
  count is_ready (handoff_trace (sys_world s))
  <= count is_ready (handoff_trace (sys_world s')).
Proof.
  induction 1 as [|s s' s'' Hstep _ IH]; [lia|].
  pose proof (proj1 (step_marks s s' Hstep)). lia.
Qed.

Lemma claims_in_budget s :
  count is_claim (handoff_trace (sys_world s)) <= claim_budget s.
Proof. unfold claim_budget. destruct (_ || _); lia. Qed.

End Budget.

(** X18.  A mark is consumed at most once, however the two tasks
    interleave: over any sequence of steps in which the capture task makes
    no new mark, the inference task clears the flag at most once, and not at
    all when the flag is clear and it has not just seen it set. *)
Theorem mark_claimed_once (s s' : system) :
  steps s s' ->
  count is_ready (handoff_trace (sys_world s'))
  = count is_ready (handoff_trace (sys_world s)) ->
  count is_claim (handoff_trace (sys_world s')) <= claim_budget s.
Proof.
  induction 1 as [s|s s' s'' Hstep Hsteps IH]; intros Hsame.
  - apply claims_in_budget.
  - destruct (step_marks s s' Hstep) as [Hle Hbudget].
    pose proof (steps_marks s' s'' Hsteps) as Hle'.
    specialize (IH ltac:(lia)). specialize (Hbudget ltac:(lia)). lia.
Qed.

Lemma mark_claimed_once_witness :
  let w := set_audio_ready true
             (boot_world (fun n => Z.of_nat n) (fun _ => 0) (fun _ => (0, []))) in
  let s := Build_system w CapFill InfIdle in
  let w1 := exec (t ← esp_timer_get_time; modify (set_cycle_start_time t)) w in
  let w2 := exec (_ ← claim_window; esp_timer_get_time) w1 in
  let t2 := fst ((_ ← claim_window; esp_timer_get_time) w1) in
  let s' := Build_system (exec (finish_cycle t2 0 []) (exec (signal_get_data 0 416) w2))
                         CapFill InfIdle in
  steps s s' /\
  count is_ready (handoff_trace (sys_world s'))
  = count is_ready (handoff_trace (sys_world s)) /\
  count is_claim (handoff_trace (sys_world s')) <= claim_budget s /\
  claim_budget s = 1.
Proof.
  intros w s w1 w2 t2 s'.
  assert (Hsteps : steps s s').
  { apply (steps_step s (Build_system w1 CapFill InfClaiming)).
    { now apply step_poll_ready. }
    apply (steps_step _ (Build_system w2 CapFill (InfClassifying t2))).
    { apply step_claim. }
    apply (steps_step _ (Build_system (exec (signal_get_data 0 416) w2) CapFill
                                      (InfClassifying t2))).
    { apply step_get_data; unfold EI_CLASSIFIER_RAW_SAMPLE_COUNT; lia. }
    apply (steps_step _ s'); [apply step_finish|apply steps_refl]. }
  assert (Hsame : count is_ready (handoff_trace (sys_world s'))
                  = count is_ready (handoff_trace (sys_world s)))
    by (vm_compute; reflexivity).
  split; [exact Hsteps|]. split; [exact Hsame|].
  split; [exact (mark_claimed_once s s' Hsteps Hsame)|reflexivity].
Defined.

(** X19.  Every completed cycle transmits the frame it rendered, whole: the
    transfers it adds to the wire are one flush of the framebuffer as the
    cycle leaves it, that framebuffer is a well-formed array whatever was
    in it before, and the pixel bytes sent are exactly its bytes. *)
Theorem cycle_sends_rendered_frame (w : world) (inference_start : Z)
        (result : classification) :
  let w' := exec (finish_cycle inference_start EI_IMPULSE_OK result) w in
  i2c_wire w' = i2c_wire w ++ flush_transfers (oled_buffer w') /\
  framebuffer_ok (oled_buffer w') /\
  wire_pixels (drop (length (i2c_wire w)) (i2c_wire w')) = oled_buffer w'.
Proof.
  intros w'.
  pose proof (finish_cycle_wire w inference_start result) as Hwire. fold w' in Hwire.
  destruct (finish_cycle_ok w inference_start result) as (_ & (st & tt & Hfb) & _).
  fold w' in Hfb.
  assert (Hok : framebuffer_ok (oled_buffer w')).
  { rewrite Hfb. unfold draw_footer. do 2 apply oled_draw_string_ok.
    destruct (float_gt _ _);
      [exact (proj1 (status_frames_ok (oled_buffer w)))
      |exact (proj2 (status_frames_ok (oled_buffer w)))]. }
  split; [exact Hwire|]. split; [exact Hok|].
  rewrite Hwire, drop_app_length. apply wire_pixels_flush, Hok.
Qed.

(** ** Layout of the rendered frame, consistency of the durations *)

Section Layout.

#[local] Arguments to_int64 : simpl never.
#[local] Arguments to_uint32 : simpl never.
#[local] Arguments float_div : simpl never.
#[local] Arguments float_of_Z : simpl never.

Lemma separator_rows (fb : list Z) :
  holds_from (row_pixel_on (draw_anomaly (draw_header fb)) 16) 128 0 = true /\
  holds_from (row_pixel_on (draw_normal (draw_header fb)) 16) 128 0 = true.
Proof. split; vm_compute; reflexivity. Qed.

Lemma timer_monotone_le (w : world) (n k : nat) :
  timer_monotone w -> esp_timer w n <= esp_timer w (k + n).
Proof.
  intros Hmono. induction k as [|k IH]; [cbn; lia|].
  cbn [Nat.add]. pose proof (proj2 (Hmono (k + n)%nat)). lia.
Qed.

Lemma finish_cycle_durations (w : world) (inference_start : Z) (result : classification) :
  let m := perf_metrics (exec (finish_cycle inference_start EI_IMPULSE_OK result) w) in
  inference_us m = to_int64 (esp_timer w (0 + timer_reads w) - inference_start) /\
  display_update_us m
  = to_int64 (esp_timer w (2 + timer_reads w) - esp_timer w (1 + timer_reads w)) /\
  total_cycle_us m = to_int64 (esp_timer w (3 + timer_reads w) - cycle_start_time w).
Proof.
  destruct (finish_cycle_ok w inference_start result) as (Hm & _).
  cbv zeta. rewrite Hm. repeat split; reflexivity.
Qed.

Lemma classified_fields (w : world) :
  esp_timer (classified w) = esp_timer w /\
  timer_reads (classified w) = (2 + timer_reads w)%nat /\
  cycle_start_time (classified w) = esp_timer w (timer_reads w).
Proof. repeat split. Qed.

End Layout.

(** X20.  The separator line survives rendering: in the frame of every
    completed cycle, anomaly or normal, whatever the score and timing texts,
    all 128 pixels of row 16 are on. *)
Theorem separator_line_intact (w : world) (inference_start : Z) (result : classification)
        (x : Z) :
  0 <= x < OLED_WIDTH ->
  get_pixel (oled_buffer (exec (finish_cycle inference_start EI_IMPULSE_OK result) w))
            x 16 = true.
Proof.
  intros Hx.
  destruct (finish_cycle_ok w inference_start result) as (_ & (st & tt & Hfb) & _).
  rewrite Hfb.
  assert (Hin : in_display x 16) by (unfold in_display, OLED_WIDTH, OLED_HEIGHT in *; lia).
  destruct (separator_rows (oled_buffer w)) as [Ha Hn].
  unfold OLED_WIDTH in Hx.
  destruct (float_gt _ _).
  - rewrite (draw_footer_above st tt _ x 16 (proj1 (status_frames_ok (oled_buffer w)))
               Hin ltac:(lia)).
    exact (holds_from_spec _ _ _ Ha x ltac:(lia)).
  - rewrite (draw_footer_above st tt _ x 16 (proj2 (status_frames_ok (oled_buffer w)))
               Hin ltac:(lia)).
    exact (holds_from_spec _ _ _ Hn x ltac:(lia)).
Qed.

Lemma separator_line_intact_witness :
  let w := boot_world (fun n => Z.of_nat n) (fun _ => 0) (fun _ => (0, [])) in
  0 <= 127 < OLED_WIDTH /\
  get_pixel (oled_buffer (exec (finish_cycle 0 EI_IMPULSE_OK []) w)) 127 16 = true.
Proof.
  intros w.
  assert (Hx : 0 <= 127 < OLED_WIDTH) by (unfold OLED_WIDTH; lia).
  split; [exact Hx|]. exact (separator_line_intact w 0 [] 127 Hx).
Defined.

(** X21.  The durations a completed cycle records are consistent: with a
    timer that never runs backwards, the inference and display durations
    and the total are non-negative, and the two phases together never
    exceed the total cycle time. *)
Theorem cycle_durations_consistent (w : world) :
  timer_monotone w -> audio_ready w = true ->
  fst (run_classifier w (window_signal w)) = EI_IMPULSE_OK ->
  let m := perf_metrics (exec inference_iteration w) in
  0 <= inference_us m /\ 0 <= display_update_us m /\
  inference_us m + display_update_us m <= total_cycle_us m.
Proof.
  intros Hmono Hready Hok m.
  assert (Hm : m = perf_metrics
                     (exec (finish_cycle (esp_timer w (S (timer_reads w))) EI_IMPULSE_OK
                                         (snd (run_classifier w (window_signal w))))
                           (classified w))).
  { subst m. unfold exec. rewrite inference_iteration_ready by exact Hready.
    now rewrite Hok. }
  destruct (finish_cycle_durations (classified w) (esp_timer w (S (timer_reads w)))
              (snd (run_classifier w (window_signal w)))) as (Hi & Hd & Ht).
  cbv zeta in Hi, Hd, Ht. rewrite <- Hm in Hi, Hd, Ht. rewrite Hi, Hd, Ht.
  destruct (classified_fields w) as (-> & -> & ->).
  set (r := timer_reads w).
  pose proof (proj1 (Hmono r)) as R0.
  pose proof (proj1 (Hmono (1 + r)%nat)) as R1.
  pose proof (proj1 (Hmono (2 + r)%nat)) as R2.
  pose proof (proj1 (Hmono (3 + r)%nat)) as R3.
  pose proof (proj1 (Hmono (4 + r)%nat)) as R4.
  pose proof (proj1 (Hmono (5 + r)%nat)) as R5.
  pose proof (proj2 (Hmono r)) as M0.
  pose proof (proj2 (Hmono (1 + r)%nat)) as M1.
  pose proof (proj2 (Hmono (2 + r)%nat)) as M2.
  pose proof (proj2 (Hmono (3 + r)%nat)) as M3.
  pose proof (proj2 (Hmono (4 + r)%nat)) as M4.
  unfold is_time in *. cbn [Nat.add] in *.
  rewrite !to_int64_small by lia. lia.
Qed.

Lemma cycle_durations_consistent_witness :
  let w := set_audio_ready true
             (boot_world (fun n => Z.min (1000 * Z.of_nat n) (2 ^ 62)) (fun _ => 0)
                         (fun _ => (0, []))) in
  timer_monotone w /\ audio_ready w = true /\
  fst (run_classifier w (window_signal w)) = EI_IMPULSE_OK /\
  inference_us (perf_metrics (exec inference_iteration w))
  + display_update_us (perf_metrics (exec inference_iteration w))
  <= total_cycle_us (perf_metrics (exec inference_iteration w)).
Proof.
  intros w.
  assert (Hmono : timer_monotone w).
  { intros n. cbn. unfold is_time. lia. }
  assert (Hready : audio_ready w = true) by reflexivity.
  assert (Hok : fst (run_classifier w (window_signal w)) = EI_IMPULSE_OK) by reflexivity.
  split; [exact Hmono|]. split; [exact Hready|]. split; [exact Hok|].
  exact (proj2 (proj2 (cycle_durations_consistent w Hmono Hready Hok))).
Defined.

(* ================================================================== *)
(** * Part IV: the readiness flag and the status band                  *)
(* ================================================================== *)

(** ** The readiness flag *)

Section Flag.

#[local] Arguments to_int64 : simpl never.
#[local] Arguments to_int16 : simpl never.
#[local] Arguments Z.geb : simpl never.
#[local] Arguments Z.ltb : simpl never.
#[local] Arguments Z.leb : simpl never.
#[local] Arguments Z.eqb : simpl never.
#[local] Arguments Z.add : simpl never.

Implicit Types (w : world) (samples : list Z) (ops : list window_op).

(** The capture loop sets the flag when it completes a window and never
    touches it otherwise. *)
Lemma capture_samples_flag samples :
  forall w, 0 <= buffer_index w < EI_CLASSIFIER_RAW_SAMPLE_COUNT ->
    audio_ready (exec (capture_samples samples) w)
    = audio_ready w
      || (EI_CLASSIFIER_RAW_SAMPLE_COUNT <=? buffer_index w + Z.of_nat (length samples)).
Proof.
  induction samples as [|raw rest IH]; intros w Hidx.
  - cbn [capture_samples length Z.of_nat]. rewrite Z.add_0_r.
    destruct (Z.leb_spec EI_CLASSIFIER_RAW_SAMPLE_COUNT (buffer_index w)); [lia|].
    now rewrite orb_false_r.
  - cbn [capture_samples]. unfold exec, mbind, M_bind, get.
    destruct (Z.ltb_spec (buffer_index w) EI_CLASSIFIER_RAW_SAMPLE_COUNT) as [_|]; [|lia].
    destruct (capture_sample_spec raw w) as (_ & Hbi & Hrd & _).
    unfold exec in Hbi, Hrd.
    destruct (capture_sample raw w) as [[] w1]. cbn [snd] in *.
    assert (Hidx1 : 0 <= buffer_index w1 < EI_CLASSIFIER_RAW_SAMPLE_COUNT).
    { rewrite Hbi. unfold EI_CLASSIFIER_RAW_SAMPLE_COUNT in *.
      destruct (Z.geb_spec (buffer_index w + 1) 416); lia. }
    specialize (IH w1 Hidx1). unfold exec in IH. rewrite IH, Hrd, Hbi.
    cbn [length]. unfold EI_CLASSIFIER_RAW_SAMPLE_COUNT in *.
    destruct (Z.geb_spec (buffer_index w + 1) 416) as [Hfull|Hnot].
    + destruct (Z.leb_spec 416 (buffer_index w + Z.of_nat (S (length rest)))); [|lia].
      now rewrite orb_true_r.
    + f_equal. f_equal. lia.
Qed.

Lemma audio_capture_iteration_flag (read : Z * list Z) w :
  0 <= buffer_index w < EI_CLASSIFIER_RAW_SAMPLE_COUNT ->
  audio_ready (exec (audio_capture_iteration read) w)
  = audio_ready w
    || (EI_CLASSIFIER_RAW_SAMPLE_COUNT
        <=? buffer_index w
            + Z.of_nat (length (if fst read =? ESP_OK then snd read else []))).
Proof.
  intros Hidx. unfold audio_capture_iteration, exec, mbind, M_bind.
  destruct (mark_capture_start_spec w) as (_ & Hbi1 & Hrd1 & _).
  unfold exec in Hbi1, Hrd1.
  destruct (mark_capture_start w) as [[] w1]. cbn [snd] in *.
  destruct (fst read =? ESP_OK).
  - pose proof (capture_samples_flag (snd read) w1 ltac:(now rewrite Hbi1)) as Hrd.
    unfold exec in Hrd. now rewrite Hrd, Hrd1, Hbi1.
  - cbn [skip mret M_ret snd length Z.of_nat]. rewrite Z.add_0_r.
    destruct (Z.leb_spec EI_CLASSIFIER_RAW_SAMPLE_COUNT (buffer_index w)); [lia|].
    now rewrite orb_false_r.
Qed.

Lemma audio_capture_task_flag (reads : list (Z * list Z)) :
  forall w, 0 <= buffer_index w < EI_CLASSIFIER_RAW_SAMPLE_COUNT ->
    audio_ready (exec (audio_capture_task reads) w)
    = audio_ready w
      || (EI_CLASSIFIER_RAW_SAMPLE_COUNT
          <=? buffer_index w + Z.of_nat (length (accepted_samples reads))).
Proof.
  induction reads as [|read rest IH]; intros w Hidx.
  - cbn [audio_capture_task accepted_samples flat_map length Z.of_nat].
    rewrite Z.add_0_r.
    destruct (Z.leb_spec EI_CLASSIFIER_RAW_SAMPLE_COUNT (buffer_index w)); [lia|].
    now rewrite orb_false_r.
  - cbn [audio_capture_task]. unfold exec, mbind, M_bind.
    destruct (audio_capture_iteration_spec read w Hidx) as (_ & Hbi & _).
    pose proof (audio_capture_iteration_flag read w Hidx) as Hrd.
    unfold exec in Hbi, Hrd.
    destruct (audio_capture_iteration read w) as [[] w1]. cbn [snd] in *.
    assert (Hidx1 : 0 <= buffer_index w1 < EI_CLASSIFIER_RAW_SAMPLE_COUNT).
    { rewrite Hbi. apply Z.mod_pos_bound. reflexivity. }
    specialize (IH w1 Hidx1). unfold exec in IH. rewrite IH, Hrd.
    change (accepted_samples (read :: rest))
      with ((if fst read =? ESP_OK then snd read else []) ++ accepted_samples rest).
    rewrite length_app, Nat2Z.inj_add, Hbi.
    set (l1 := Z.of_nat (length (if fst read =? ESP_OK then snd read else []))).
    set (l2 := Z.of_nat (length (accepted_samples rest))).
    assert (0 <= l1 /\ 0 <= l2) as [Hl1 Hl2] by (subst l1 l2; lia).
    unfold EI_CLASSIFIER_RAW_SAMPLE_COUNT in *.
    destruct (Z.leb_spec 416 (buffer_index w + l1)) as [Hfull|Hnot].
    + destruct (Z.leb_spec 416 (buffer_index w + (l1 + l2))); [|lia].
      now rewrite !orb_true_r.
    + rewrite Z.mod_small by lia. rewrite orb_false_r. f_equal. f_equal. lia.
Qed.

Lemma claim_window_effect w :
  let w' := exec claim_window w in
  handoff_trace w' = handoff_trace w ++ [EvClaim] /\
  buffer_index w' = buffer_index w /\ audio_ready w' = false.
Proof. repeat split. Qed.

Lemma do_ops_app ops1 ops2 :
  forall w, exec (do_ops (ops1 ++ ops2)) w = exec (do_ops ops2) (exec (do_ops ops1) w).
Proof.
  induction ops1 as [|op rest IH]; intros w; [reflexivity|].
  cbn [app do_ops]. unfold exec, mbind, M_bind in *.
  destruct (do_op op w) as [[] w1]. apply IH.
Qed.

Lemma do_ops_single (op : window_op) w : exec (do_ops [op]) w = exec (do_op op) w.
Proof.
  cbn [do_ops]. unfold exec, mbind, M_bind. now destruct (do_op op w) as [[] w1].
Qed.

Lemma sample_count_snoc ops (op : window_op) :
  sample_count (ops ++ [op])
  = sample_count ops + (if is_sample_op op then 1 else 0).
Proof.
  unfold sample_count. rewrite filter_app, length_app, filter_cons, filter_nil.
  destruct (is_sample_op op) eqn:E.
  - rewrite decide_True by reflexivity. cbn [length]. lia.
  - rewrite decide_False by discriminate. cbn [length]. lia.
Qed.

Lemma sample_count_nonneg ops : 0 <= sample_count ops.
Proof. unfold sample_count. lia. Qed.

Lemma marked_nil : ~ marked [].
Proof. intros (before & raw & after & Heq & _). now destruct before. Qed.

Lemma marked_claim ops : ~ marked (ops ++ [OpClaim]).
Proof.
  intros (before & raw & after & Heq & _ & Hall).
  destruct after as [|op after _] using rev_ind.
  - apply app_inj_tail in Heq as [_ Heq]. discriminate.
  - change (before ++ OpSample raw :: after ++ [op])
      with (before ++ (OpSample raw :: after) ++ [op]) in Heq.
    rewrite app_assoc in Heq. apply app_inj_tail in Heq as [_ <-].
    apply Forall_app in Hall as [_ Hop]. apply Forall_inv in Hop.
    discriminate Hop.
Qed.

Lemma marked_sample ops (raw : Z) :
  marked (ops ++ [OpSample raw])
  <-> (sample_count ops + 1) mod EI_CLASSIFIER_RAW_SAMPLE_COUNT = 0 \/ marked ops.
Proof.
  split.
  - intros (before & raw' & after & Heq & Hmod & Hall).
    destruct after as [|op after _] using rev_ind.
    + apply app_inj_tail in Heq as [-> _]. now left.
    + change (before ++ OpSample raw' :: after ++ [op])
        with (before ++ (OpSample raw' :: after) ++ [op]) in Heq.
      rewrite app_assoc in Heq. apply app_inj_tail in Heq as [-> _].
      apply Forall_app in Hall as [Hall _].
      right. now exists before, raw', after.
  - intros [Hmod|(before & raw' & after & -> & Hmod & Hall)].
    + exists ops, raw, []. repeat split; [exact Hmod|constructor].
    + exists before, raw', (after ++ [OpSample raw]).
      split; [now rewrite <- app_assoc|]. split; [exact Hmod|].
      apply Forall_app. split; [exact Hall|]. now apply Forall_singleton.
Qed.

(** The flag and the index after any stream of samples and clears. *)
Lemma do_ops_spec ops w :
  buffer_index w = 0 -> audio_ready w = false ->
  let w' := exec (do_ops ops) w in
  buffer_index w' = sample_count ops mod EI_CLASSIFIER_RAW_SAMPLE_COUNT /\
  (audio_ready w' = true <-> marked ops) /\
  count is_ready (handoff_trace w')
  = count is_ready (handoff_trace w)
    + sample_count ops / EI_CLASSIFIER_RAW_SAMPLE_COUNT.
Proof.
  intros Hidx Hflag. cbv zeta.
  induction ops as [|op ops (Hbi & Hrd & Hcount)] using rev_ind.
  - change (exec (do_ops []) w) with w. rewrite Hidx, Hflag.
    change (sample_count []) with 0. rewrite Z.add_0_r.
    split; [reflexivity|]. split; [|reflexivity].
    split; [discriminate|]. intros H. destruct (marked_nil H).
  - rewrite do_ops_app, do_ops_single, sample_count_snoc.
    pose proof (sample_count_nonneg ops) as Hn.
    set (n := sample_count ops) in *. set (w1 := exec (do_ops ops) w) in *.
    destruct op as [raw|]; cbn [do_op is_sample_op].
    + destruct (capture_sample_spec raw w1) as (Htr & Hbi' & Hrd' & _).
      cbv zeta in Htr, Hbi', Hrd'.
      rewrite Htr, Hbi', Hrd', count_app, Hcount, marked_sample. fold n.
      cbn [capture_events]. rewrite !count_cons. cbn [is_ready].
      rewrite Hbi. unfold EI_CLASSIFIER_RAW_SAMPLE_COUNT in *.
      destruct (Z.geb_spec (n mod 416 + 1) 416) as [Hfull|Hnot].
      * rewrite count_cons. cbn [is_ready]. change (count is_ready []) with 0.
        assert ((n + 1) mod 416 = 0 /\ (n + 1) / 416 = n / 416 + 1) as [Hm Hd]
          by (split; Z.div_mod_to_equations; lia).
        rewrite Hm, Hd. split; [reflexivity|]. split; [tauto|lia].
      * change (count is_ready []) with 0.
        assert ((n + 1) mod 416 = n mod 416 + 1 /\ (n + 1) / 416 = n / 416) as [Hm Hd]
          by (split; Z.div_mod_to_equations; lia).
        rewrite Hm, Hd. split; [reflexivity|]. split; [|lia].
        rewrite Hrd. split; [tauto|]. intros [H|H]; [|exact H].
        pose proof (Z.mod_pos_bound n 416 ltac:(lia)). lia.
    + destruct (claim_window_effect w1) as (Htr & Hbi' & Hrd').
      cbv zeta in Htr, Hbi', Hrd'.
      rewrite Htr, Hbi', Hrd', count_snoc, Hcount, Z.add_0_r. cbn [is_ready].
      split; [exact Hbi|]. split; [|lia].
      split; [discriminate|]. intros H. destruct (marked_claim ops H).
Qed.

End Flag.

(** C3.  The capture task sets the readiness flag exactly once per 416
    accepted samples.  Over any sequence of reads processed from the start
    of a window, its accesses are one write per accepted sample with the
    mark right after the write that fills slot 415; after [n] accepted
    samples it has made [n / 416] marks, the fill index is [n mod 416], and
    the flag is set if it was set before or [416 <= n], never earlier.
    With the consumer's clears falling anywhere between the samples, the
    flag is set exactly when the latest of the samples numbered by a
    multiple of 416 and of the clears is a sample: every such sample sets
    it, at the step that takes the index back to 0, and nothing else
    does. *)
Theorem ready_once_per_window (reads : list (Z * list Z)) (ops : list window_op)
        (w : world) :
  buffer_index w = 0 ->
  (let samples := accepted_samples reads in
   let w' := exec (audio_capture_task reads) w in
   handoff_trace w' = handoff_trace w ++ capture_events 0 samples /\
   buffer_index w' = Z.of_nat (length samples) mod EI_CLASSIFIER_RAW_SAMPLE_COUNT /\
   count is_ready (handoff_trace w')
   = count is_ready (handoff_trace w)
     + Z.of_nat (length samples) / EI_CLASSIFIER_RAW_SAMPLE_COUNT /\
   audio_ready w'
   = audio_ready w || (EI_CLASSIFIER_RAW_SAMPLE_COUNT <=? Z.of_nat (length samples))) /\
  (audio_ready w = false ->
   let w' := exec (do_ops ops) w in
   buffer_index w' = sample_count ops mod EI_CLASSIFIER_RAW_SAMPLE_COUNT /\
   (audio_ready w' = true <-> marked ops) /\
   count is_ready (handoff_trace w')
   = count is_ready (handoff_trace w)
     + sample_count ops / EI_CLASSIFIER_RAW_SAMPLE_COUNT).
Proof.
  intros Hidx.
  assert (H0 : 0 <= 0 < EI_CLASSIFIER_RAW_SAMPLE_COUNT)
    by (unfold EI_CLASSIFIER_RAW_SAMPLE_COUNT; lia).
  split.
  - intros samples w'.
    destruct (audio_capture_task_spec reads w ltac:(rewrite Hidx; exact H0))
      as (Htr & Hbi & _).
    pose proof (audio_capture_task_flag reads w ltac:(rewrite Hidx; exact H0)) as Hrd.
    rewrite Hidx in Htr, Hbi, Hrd. fold samples w' in Htr, Hbi, Hrd.
    split; [exact Htr|]. split; [exact Hbi|]. split; [|exact Hrd].
    rewrite Htr, count_app. f_equal.
    exact (proj1 (capture_events_count samples 0 H0)).
  - intros Hflag. exact (do_ops_spec ops w Hidx Hflag).
Qed.

Lemma ready_once_per_window_witness :
  let w := boot_world (fun n => Z.of_nat n) (fun _ => 0) (fun _ => (0, [])) in
  let reads := [(ESP_OK, replicate 512 0); (-1, [7; 7]); (ESP_OK, replicate 512 0)] in
  let ops := replicate 416 (OpSample 0) ++ [OpClaim; OpSample 0] in
  buffer_index w = 0 /\ audio_ready w = false /\
  buffer_index (exec (audio_capture_task reads) w) = 192 /\
  count is_ready (handoff_trace (exec (audio_capture_task reads) w)) = 2 /\
  audio_ready (exec (audio_capture_task reads) w) = true /\
  buffer_index (exec (do_ops ops) w) = 1 /\
  ~ marked ops.
Proof.
  intros w reads ops.
  assert (Hidx : buffer_index w = 0) by reflexivity.
  assert (Hflag : audio_ready w = false) by reflexivity.
  destruct (ready_once_per_window reads ops w Hidx) as ((_ & Hbi & Hcount & Hrd) & Hops).
  destruct (Hops Hflag) as (Hbi' & Hmark & _).
  split; [exact Hidx|]. split; [exact Hflag|].
  split; [rewrite Hbi; reflexivity|].
  split; [rewrite Hcount; reflexivity|].
  split; [rewrite Hrd; reflexivity|].
  split; [rewrite Hbi'; reflexivity|].
  intros H. apply Hmark in H. vm_compute in H. discriminate H.
Defined.

(** The flag over one window and a half with a clear in between: set by
    sample 416, cleared, and not set again by the samples that follow. *)
Example flag_over_two_windows :
  let w := boot_world (fun n => Z.of_nat n) (fun _ => 0) (fun _ => (0, [])) in
  let flag ops := audio_ready (exec (do_ops ops) w) in
  flag (replicate 415 (OpSample 0)) = false /\
  flag (replicate 416 (OpSample 0)) = true /\
  flag (replicate 416 (OpSample 0) ++ [OpClaim]) = false /\
  flag (replicate 416 (OpSample 0) ++ OpClaim :: replicate 415 (OpSample 0)) = false /\
  flag (replicate 416 (OpSample 0) ++ OpClaim :: replicate 416 (OpSample 0)) = true.
Proof. vm_compute. repeat split. Qed.

(** ** The status band *)

Section Band.

Lemma box_hit_border (px py : Z) : box_hit px py = true <-> box_border px py.
Proof.
  unfold box_hit, box_border, OLED_WIDTH.
  rewrite !orb_true_iff, !andb_true_iff, !orb_true_iff, !Z.leb_le, !Z.ltb_lt, !Z.eqb_eq.
  lia.
Qed.

Lemma band_matches_spec (frame : list Z) (hit : Z -> Z -> bool) :
  band_matches frame hit = true ->
  forall px py : Z,
    0 <= px < OLED_WIDTH -> 17 <= py < 45 -> get_pixel frame px py = hit px py.
Proof.
  unfold band_matches, OLED_WIDTH. intros Hall px py Hx Hy.
  pose proof (holds_from_spec _ _ _ Hall py ltac:(lia)) as Hrow. cbv beta in Hrow.
  pose proof (holds_from_spec _ _ _ Hrow px ltac:(lia)) as Hpx. cbv beta in Hpx.
  now apply Bool.eqb_prop.
Qed.

Lemma status_band_check (fb : list Z) :
  band_matches (draw_anomaly (draw_header fb))
               (fun px py => string_hit "ANOMALY!" 15 25 px py || box_hit px py) = true /\
  band_matches (draw_normal (draw_header fb)) (string_hit "NORMAL" 20 25) = true.
Proof. split; vm_compute; reflexivity. Qed.

Lemma status_band_anomaly (fb : list Z) (score_text timing_text : string) :
  anomaly_displayed (draw_footer score_text timing_text (draw_anomaly (draw_header fb))).
Proof.
  intros px py Hx Hy.
  assert (Hin : in_display px py) by (unfold in_display, OLED_WIDTH, OLED_HEIGHT in *; lia).
  rewrite (draw_footer_above score_text timing_text _ px py
             (proj1 (status_frames_ok fb)) Hin ltac:(lia)).
  rewrite (band_matches_spec _ _ (proj1 (status_band_check fb)) px py Hx Hy).
  now rewrite orb_true_iff, string_hit_painted, box_hit_border.
Qed.

Lemma status_band_normal (fb : list Z) (score_text timing_text : string) :
  normal_displayed (draw_footer score_text timing_text (draw_normal (draw_header fb))).
Proof.
  intros px py Hx Hy.
  assert (Hin : in_display px py) by (unfold in_display, OLED_WIDTH, OLED_HEIGHT in *; lia).
  rewrite (draw_footer_above score_text timing_text _ px py
             (proj2 (status_frames_ok fb)) Hin ltac:(lia)).
  rewrite (band_matches_spec _ _ (proj2 (status_band_check fb)) px py Hx Hy).
  apply string_hit_painted.
Qed.

(** No frame reads both: the corner (10, 22) of the box is no pixel of
    NORMAL. *)
Lemma displayed_exclusive (frame : list Z) :
  anomaly_displayed frame -> normal_displayed frame -> False.
Proof.
  intros Ha Hn.
  assert (Hx : 0 <= 10 < OLED_WIDTH) by (unfold OLED_WIDTH; lia).
  assert (Hy : 17 <= 22 < 45) by lia.
  assert (Hon : get_pixel frame 10 22 = true).
  { apply (Ha 10 22 Hx Hy). right. unfold box_border, OLED_WIDTH. lia. }
  apply (Hn 10 22 Hx Hy) in Hon. apply string_hit_painted in Hon.
  vm_compute in Hon. discriminate Hon.
Qed.

End Band.

(** C2.  In every completed cycle, with the scores extracted from the
    classification result, the cycle reports the anomaly state if and only
    if the abnormal score compares strictly greater than the normal score,
    and the normal state otherwise; in particular equal scores give the
    normal state.  The state is reported by the branch drawn and the log
    line, and it is what the display reads: in the band between the
    separator line and the score line the frame has exactly the pixels of
    ANOMALY! at (15, 25) and of the warning box in the anomaly state, and
    exactly the pixels of NORMAL at (20, 25) in the normal state, whatever
    the score and timing texts. *)
Theorem decision_rule (w : world) (inference_start : Z) (result : classification) :
  let normal_score := fst (extract_scores result) in
  let anomaly_score := snd (extract_scores result) in
  let w' := exec (finish_cycle inference_start EI_IMPULSE_OK result) w in
  (shows_anomaly w w' <-> SFcompare anomaly_score normal_score = Some Gt) /\
  (shows_normal w w' <-> SFcompare anomaly_score normal_score <> Some Gt) /\
  (SFeqb anomaly_score normal_score = true -> shows_normal w w') /\
  (anomaly_displayed (oled_buffer w')
   <-> SFcompare anomaly_score normal_score = Some Gt) /\
  (normal_displayed (oled_buffer w')
   <-> SFcompare anomaly_score normal_score <> Some Gt) /\
  (SFeqb anomaly_score normal_score = true ->
   normal_displayed (oled_buffer w') /\ ~ anomaly_displayed (oled_buffer w')).
Proof.
  intros n a w'.
  destruct (finish_cycle_ok w inference_start result)
    as (_ & (st & tt & Hfb) & Hlog & _).
  fold n a w' in Hfb, Hlog.
  assert (Hcase : (float_gt a n = true /\ shows_anomaly w w'
                   /\ anomaly_displayed (oled_buffer w')) \/
                  (float_gt a n = false /\ shows_normal w w'
                   /\ normal_displayed (oled_buffer w'))).
  { destruct (float_gt a n) eqn:Hgt; [left|right]; (split; [reflexivity|]); split.
    - exists st, tt; eauto.
    - rewrite Hfb. apply status_band_anomaly.
    - exists st, tt; eauto.
    - rewrite Hfb. apply status_band_normal. }
  assert (Hnot : float_gt a n = false <-> SFcompare a n <> Some Gt).
  { rewrite <- float_gt_compare. destruct (float_gt a n); split; congruence. }
  split; [|split; [|split; [|split; [|split]]]].
  - rewrite <- float_gt_compare. split.
    + intros Ha. destruct Hcase as [(Hgt & _)|(_ & Hn & _)]; [exact Hgt|].
      exfalso. exact (shows_exclusive w w' Ha Hn).
    + intros Hgt. destruct Hcase as [(_ & Ha & _)|(Hf & _)]; [exact Ha|congruence].
  - rewrite <- Hnot. split.
    + intros Hn. destruct Hcase as [(_ & Ha & _)|(Hf & _)]; [|exact Hf].
      exfalso. exact (shows_exclusive w w' Ha Hn).
    + intros Hf. destruct Hcase as [(Hgt & _)|(_ & Hn & _)]; [congruence|exact Hn].
  - intros Heq. apply float_gt_tie in Heq.
    destruct Hcase as [(Hgt & _)|(_ & Hn & _)]; [congruence|exact Hn].
  - rewrite <- float_gt_compare. split.
    + intros Ha. destruct Hcase as [(Hgt & _)|(_ & _ & Hn)]; [exact Hgt|].
      exfalso. exact (displayed_exclusive _ Ha Hn).
    + intros Hgt. destruct Hcase as [(_ & _ & Ha)|(Hf & _)]; [exact Ha|congruence].
  - rewrite <- Hnot. split.
    + intros Hn. destruct Hcase as [(_ & _ & Ha)|(Hf & _)]; [|exact Hf].
      exfalso. exact (displayed_exclusive _ Ha Hn).
    + intros Hf. destruct Hcase as [(Hgt & _)|(_ & _ & Hn)]; [congruence|exact Hn].
  - intros Heq. apply float_gt_tie in Heq.
    destruct Hcase as [(Hgt & _)|(_ & _ & Hn)]; [congruence|].
    split; [exact Hn|]. intros Ha. exact (displayed_exclusive _ Ha Hn).
Qed.

Lemma decision_rule_witness :
  let result := [("normal"%string, S754_finite false 8388608 (-24));
                 ("abnormal"%string, S754_finite false 8388608 (-24))] in
  let w := boot_world (fun n => 1000 * Z.of_nat n) (fun _ => 0) (fun _ => (0, result)) in
  SFeqb (snd (extract_scores result)) (fst (extract_scores result)) = true /\
  shows_normal w (exec (finish_cycle 0 EI_IMPULSE_OK result) w) /\
  normal_displayed (oled_buffer (exec (finish_cycle 0 EI_IMPULSE_OK result) w)) /\
  ~ anomaly_displayed (oled_buffer (exec (finish_cycle 0 EI_IMPULSE_OK result) w)).
Proof.
  intros result w.
  assert (Htie : SFeqb (snd (extract_scores result)) (fst (extract_scores result)) = true)
    by reflexivity.
  destruct (decision_rule w 0 result) as (_ & _ & Hshow & _ & _ & Hband).
  split; [exact Htie|]. split; [exact (Hshow Htie)|]. exact (Hband Htie).
Defined.

(** The letters on the display, rows 25 to 31 of the frame of a normal
    cycle (columns 20 to 55) and of an anomaly cycle (columns 15 to 62). *)
Example status_text_bitmaps :
  let rows fb x n :=
    map (fun py =>
           string_of_list_ascii
             (map (fun px => if get_pixel fb px py then "#"%char else "."%char)
                  (seqZ x n)))
        (seqZ 25 7) in
  let normal := draw_footer "N:0.50 A:0.50" "Inf:12ms" (draw_normal (draw_header [])) in
  let anomaly := draw_footer "N:0.30 A:0.70" "Inf:12ms" (draw_anomaly (draw_header [])) in
  rows normal 20 36
  = ["#...#..###..####..#...#..###..#....."%string;
     "#...#.#...#.#...#.##.##.#...#.#....."%string;
     "##..#.#...#.#...#.#.#.#.#...#.#....."%string;
     "#.#.#.#...#.####..#.#.#.#...#.#....."%string;
     "#..##.#...#.#.#...#...#.#####.#....."%string;
     "#...#.#...#.#..#..#...#.#...#.#....."%string;
     "#...#..###..#...#.#...#.#...#.#####."%string] /\
  rows anomaly 15 48
  = [".###..#...#..###..#...#..###..#.....#...#...#..."%string;
     "#...#.#...#.#...#.##.##.#...#.#.....#...#...#..."%string;
     "#...#.##..#.#...#.#.#.#.#...#.#.....#...#...#..."%string;
     "#...#.#.#.#.#...#.#.#.#.#...#.#......#.#....#..."%string;
     "#####.#..##.#...#.#...#.#####.#.......#.....#..."%string;
     "#...#.#...#.#...#.#...#.#...#.#.......#........."%string;
     "#...#.#...#..###..#...#.#...#.#####...#.....#..."%string].
Proof. vm_compute. split; reflexivity. Qed.
